(** * note-ignite: template generation and markup transformation engine

    A shallow embedding of [src/tools/markup.ts] (marker comments, the
    bulk file transformer, the empty-directory reaper), of the
    generator part of [src/tools/generators.ts] (front matter, patch
    directives, [generateFromTemplate], [extractBoilerplateName],
    [installGenerators]) and of the name handling of the [generate]
    command ([src/commands/generate.ts]).

    JavaScript strings are modelled as [string], read as sequences of
    8-bit code units; arrays as [list]; [undefined] as [None]. *)

From Stdlib Require Import String Ascii List ZArith Lia Bool.
From stdpp Require Import base option list gmap strings.

Local Open Scope string_scope.
Local Open Scope list_scope.

(** ** JavaScript string primitives used by the sources *)
Module JS.

Definition LF : string := String "010" "".

(** [s.startsWith(p)], also the test "an occurrence of [p] begins here". *)
Fixpoint startsWith (p s : string) : bool :=
  match p, s with
  | EmptyString, _ => true
  | String a p', String b s' => if Ascii.eqb a b then startsWith p' s' else false
  | String _ _, EmptyString => false
  end.

(** [s.includes(t)] *)
Fixpoint includes (s t : string) : bool :=
  startsWith t s ||
  match s with
  | EmptyString => false
  | String _ s' => includes s' t
  end.

(** Whether the code unit [c] occurs in [s]. *)
Fixpoint has_char (c : ascii) (s : string) : bool :=
  match s with
  | EmptyString => false
  | String a s' => Ascii.eqb a c || has_char c s'
  end.

(** A text without line feeds: a single line. *)
Definition no_LF (s : string) : Prop := has_char "010" s = false.

(** Whether [s] is the code unit [c] repeated. *)
Fixpoint all_eq (c : ascii) (s : string) : bool :=
  match s with
  | EmptyString => true
  | String x s' => Ascii.eqb x c && all_eq c s'
  end.

(** [s.slice(n)] for [0 <= n] *)
Fixpoint drop (n : nat) (s : string) : string :=
  match n, s with
  | O, _ => s
  | S n', String _ s' => drop n' s'
  | S _, EmptyString => EmptyString
  end.

(** [s.split(sep)] for a non-empty separator.  [skip] counts the code
    units of a separator occurrence that are still to be passed over. *)
Fixpoint split_from (sep : string) (skip : nat) (s : string) : list string :=
  match s with
  | EmptyString => [EmptyString]
  | String a s' =>
      match skip with
      | S k => split_from sep k s'
      | O =>
          if startsWith sep s
          then EmptyString :: split_from sep (String.length sep - 1) s'
          else match split_from sep 0 s' with
               | h :: t => String a h :: t
               | [] => [String a EmptyString]
               end
      end
  end.

Definition split (sep s : string) : list string := split_from sep 0 s.

(** [lines.join(sep)] *)
Fixpoint join (sep : string) (ls : list string) : string :=
  match ls with
  | [] => EmptyString
  | [l] => l
  | l :: rest => l +:+ sep +:+ join sep rest
  end.

(** [s.replace(pat, rep)] with a string pattern: only the first
    occurrence is replaced.  ([rep] is inserted literally; the sources
    only pass replacement texts without dollar patterns here.) *)
Fixpoint replace (pat rep s : string) : string :=
  if startsWith pat s then rep +:+ drop (String.length pat) s
  else match s with
       | EmptyString => EmptyString
       | String c s' => String c (replace pat rep s')
       end.

(** White space and line terminators stripped by [trim], among the
    8-bit code units: TAB, LF, VT, FF, CR, SP and NBSP. *)
Definition isWhiteSpace (c : ascii) : bool :=
  let n := nat_of_ascii c in
  ((9 <=? n)%nat && (n <=? 13)%nat) || (n =? 32)%nat || (n =? 160)%nat.

Fixpoint trimStart (s : string) : string :=
  match s with
  | EmptyString => EmptyString
  | String c s' => if isWhiteSpace c then trimStart s' else s
  end.

Fixpoint trimEnd (s : string) : string :=
  match s with
  | EmptyString => EmptyString
  | String c s' =>
      match trimEnd s' with
      | EmptyString => if isWhiteSpace c then EmptyString else String c EmptyString
      | r => String c r
      end
  end.

Definition trim (s : string) : string := trimEnd (trimStart s).

(** [arr[i]] for a possibly negative or out-of-range integer index. *)
Definition at_index {A} (arr : list A) (i : Z) : option A :=
  if (i <? 0)%Z then None else arr !! Z.to_nat i.

(** [arr.findIndex(p)], [-1] when no element satisfies [p]. *)
Fixpoint findIndex {A} (p : A -> bool) (arr : list A) : Z :=
  match arr with
  | [] => (-1)%Z
  | x :: rest =>
      if p x then 0%Z
      else let r := findIndex p rest in
           if (r =? -1)%Z then (-1)%Z else (r + 1)%Z
  end.

(** [arr.splice(start, deleteCount)] for [0 <= start]: the array that
    remains.  A negative [deleteCount] is clamped to zero. *)
Definition splice {A} (arr : list A) (start deleteCount : Z) : list A :=
  let s := Z.to_nat start in
  take s arr ++ List.skipn (s + Z.to_nat deleteCount) arr.

(** [arr.map((x, index) => f x index)] *)
Fixpoint mapi_from {A B} (f : A -> Z -> B) (i : Z) (arr : list A) : list B :=
  match arr with
  | [] => []
  | x :: rest => f x i :: mapi_from f (i + 1)%Z rest
  end.

Definition mapi {A B} (f : A -> Z -> B) (arr : list A) : list B := mapi_from f 0%Z arr.

(** [arr.filter((x, index) => p x index)] *)
Fixpoint filteri_from {A} (p : A -> Z -> bool) (i : Z) (arr : list A) : list A :=
  match arr with
  | [] => []
  | x :: rest =>
      if p x i then x :: filteri_from p (i + 1)%Z rest
      else filteri_from p (i + 1)%Z rest
  end.

Definition filteri {A} (p : A -> Z -> bool) (arr : list A) : list A := filteri_from p 0%Z arr.

End JS.

(** ** The fragment of JavaScript regular expressions that [markupRegex] builds

    [new RegExp(pattern, "gm")] parses a pattern string.  The fragment
    covers literal characters, [.], groups, [|] and the greedy
    quantifiers [*], [+] and [?]; a pattern that is a syntax error or
    that uses any other construct has no model ([None]).  As in the
    web-compatible grammar, [{], [}] and the closing bracket stand for
    themselves when no braced quantifier is meant. *)
Module Regex.
Import JS.

Inductive regex :=
| Empty
| Char (c : ascii)
| Dot
| Seq (a b : regex)
| Alt (a b : regex)
| Star (a : regex)
| Plus (a : regex)
| Opt (a : regex)
| Group (a : regex).

Inductive mode := Disjunction | Alternative | Term.

Definition isDigit (c : ascii) : bool :=
  let n := nat_of_ascii c in (48 <=? n)%nat && (n <=? 57)%nat.

Definition one_of (c : ascii) (set : string) : bool :=
  existsb (Ascii.eqb c) (list_ascii_of_string set).

Definition braced_quantifier_ahead (s : string) : bool :=
  match s with
  | String "{" (String d _) => isDigit d
  | _ => false
  end.

(** After an atom: an optional greedy quantifier.  Lazy quantifiers and
    braced quantifiers are outside the fragment. *)
Definition quantified (a : regex) (rest : string) : option (regex * string) :=
  let greedy (rest' : string) (q : regex) :=
    match rest' with
    | String "?" _ => None
    | _ => Some (q, rest')
    end in
  match rest with
  | String "*" rest' => greedy rest' (Star a)
  | String "+" rest' => greedy rest' (Plus a)
  | String "?" rest' => greedy rest' (Opt a)
  | _ => if braced_quantifier_ahead rest then None else Some (a, rest)
  end.

Fixpoint parse (fuel : nat) (m : mode) (s : string) : option (regex * string) :=
  match fuel with
  | O => None
  | S f =>
      match m with
      | Disjunction =>
          match parse f Alternative s with
          | Some (a, String "|" rest) =>
              match parse f Disjunction rest with
              | Some (b, rest') => Some (Alt a b, rest')
              | None => None
              end
          | other => other
          end
      | Alternative =>
          match s with
          | EmptyString => Some (Empty, s)
          | String c _ =>
              if one_of c "|)" then Some (Empty, s)
              else match parse f Term s with
                   | Some (t, rest) =>
                       match parse f Alternative rest with
                       | Some (Empty, rest') => Some (t, rest')
                       | Some (r, rest') => Some (Seq t r, rest')
                       | None => None
                       end
                   | None => None
                   end
          end
      | Term =>
          match s with
          | EmptyString => None
          | String c rest =>
              if Ascii.eqb c "(" then
                match rest with
                | String "?" _ => None
                | _ =>
                    match parse f Disjunction rest with
                    | Some (r, String ")" rest') => quantified (Group r) rest'
                    | _ => None
                    end
                end
              else if Ascii.eqb c "." then quantified Dot rest
              else if one_of c "*+?)|\[^$" then None
              else if braced_quantifier_ahead s then None
              else quantified (Char c) rest
          end
      end
  end.

(** [new RegExp(pattern, flags)]: the compiled pattern, when it lies in the fragment. *)
Definition compile (pattern : string) : option regex :=
  match parse (4 * (String.length pattern + 1)) Disjunction pattern with
  | Some (r, EmptyString) => Some r
  | _ => None
  end.

Definition isLineTerminator (c : ascii) : bool :=
  let n := nat_of_ascii c in (n =? 10)%nat || (n =? 13)%nat.

(** Greedy repetition: an iteration that consumes nothing is rejected. *)
Fixpoint repeat_matcher (step : string -> (string -> option string) -> option string)
    (n : nat) (s : string) (k : string -> option string) : option string :=
  match n with
  | O => k s
  | S n' =>
      match step s (fun s' =>
              if (String.length s' <? String.length s)%nat
              then repeat_matcher step n' s' k else None) with
      | Some x => Some x
      | None => k s
      end
  end.

(** Backtracking matcher in continuation-passing style: [rmatch r s k]
    tries [r] at the start of [s], hands the unread rest to [k] and
    backtracks into [r] when [k] fails.  The result is the rest of the
    input after the whole match. *)
Fixpoint rmatch (r : regex) (s : string) (k : string -> option string) : option string :=
  match r with
  | Empty => k s
  | Char c =>
      match s with
      | String a s' => if Ascii.eqb a c then k s' else None
      | EmptyString => None
      end
  | Dot =>
      match s with
      | String a s' => if isLineTerminator a then None else k s'
      | EmptyString => None
      end
  | Seq a b => rmatch a s (fun s' => rmatch b s' k)
  | Alt a b =>
      match rmatch a s k with
      | Some x => Some x
      | None => rmatch b s k
      end
  | Star a => repeat_matcher (rmatch a) (String.length s) s k
  | Plus a => rmatch a s (fun s' => repeat_matcher (rmatch a) (String.length s') s' k)
  | Opt a => repeat_matcher (rmatch a) 1 s k
  | Group a => rmatch a s k
  end.

(** Length of the match of [r] that begins exactly at the start of [s]. *)
Definition match_here (r : regex) (s : string) : option nat :=
  match rmatch r s Some with
  | Some rest => Some (String.length s - String.length rest)
  | None => None
  end.

(** The search of [RegExpBuiltinExec] from index [i] on: the first
    index at or after [i] where a match begins, and the index where
    it ends.  [s] is the input from index [i]. *)
Fixpoint search (r : regex) (i : nat) (s : string) : option (nat * nat) :=
  match match_here r s with
  | Some len => Some (i, i + len)
  | None =>
      match s with
      | EmptyString => None
      | String _ s' => search r (S i) s'
      end
  end.

(** A regular expression object: the compiled pattern, its flags and
    the mutable [lastIndex]. *)
Record RegExp := {
  source : regex;
  global : bool;
  multiline : bool;
  lastIndex : nat
}.

Definition set_lastIndex (re : RegExp) (i : nat) : RegExp :=
  {| source := source re; global := global re; multiline := multiline re; lastIndex := i |}.

(** [new RegExp(pattern, flags)] for a flags string made of [g] and [m]. *)
Definition new_RegExp (pattern flags : string) : option RegExp :=
  match compile pattern with
  | Some r =>
      Some {| source := r;
              global := includes flags "g";
              multiline := includes flags "m";
              lastIndex := 0 |}
  | None => None
  end.

(** [regexp.exec(s)]: the match found (begin and end index) and the
    object afterwards.  With the [g] flag the search starts at
    [lastIndex], which is then moved to the end of the match, or reset
    to zero when nothing is found. *)
Definition exec (re : RegExp) (s : string) : option (nat * nat) * RegExp :=
  let start := if global re then lastIndex re else 0 in
  if (String.length s <? start)%nat
  then (None, if global re then set_lastIndex re 0 else re)
  else match search (source re) start (drop start s) with
       | Some (b, e) => (Some (b, e), if global re then set_lastIndex re e else re)
       | None => (None, if global re then set_lastIndex re 0 else re)
       end.

(** [regexp.test(s)] *)
Definition test (re : RegExp) (s : string) : bool * RegExp :=
  let '(m, re') := exec re s in
  (match m with Some _ => true | None => false end, re').

(** The matches that [s.replace(regexp, _)] collects with the [g]
    flag: [lastIndex] is reset, [exec] is repeated until it fails, and
    an empty match advances [lastIndex] by one. *)
Fixpoint collect (fuel : nat) (re : RegExp) (s : string) : list (nat * nat) * RegExp :=
  match fuel with
  | O => ([], re)
  | S f =>
      match exec re s with
      | (Some (b, e), re') =>
          let re'' := if (e =? b)%nat then set_lastIndex re' (S e) else re' in
          let '(ms, re_end) := collect f re'' s in ((b, e) :: ms, re_end)
      | (None, re') => ([], re')
      end
  end.

Fixpoint substitute (ms : list (nat * nat)) (next : nat) (s rep : string) : string :=
  match ms with
  | [] => drop next s
  | (b, e) :: rest =>
      if (next <=? b)%nat
      then substring next (b - next) s +:+ rep +:+ substitute rest e s rep
      else substitute rest next s rep
  end.

(** [s.replace(regexp, rep)] for a global [regexp] and a replacement
    text without dollar patterns. *)
Definition replace_regexp (re : RegExp) (rep s : string) : string * RegExp :=
  let '(ms, re') := collect (S (S (String.length s))) (set_lastIndex re 0) s in
  (substitute ms 0 s rep, re').

End Regex.

(** ** Marker comments ([src/tools/markup.ts]) *)
Module Markup.
Import JS.

Inductive MarkupComments :=
| RemoveCurrentLine
| RemoveNextLine
| RemoveBlockStart
| RemoveBlockEnd
| RemoveFile
| ReplaceNextLine.

Definition kind_text (k : MarkupComments) : string :=
  match k with
  | RemoveCurrentLine => "remove-current-line"
  | RemoveNextLine => "remove-next-line"
  | RemoveBlockStart => "remove-block-start"
  | RemoveBlockEnd => "remove-block-end"
  | RemoveFile => "remove-file"
  | ReplaceNextLine => "replace-next-line"
  end.

Definition all_kinds : list MarkupComments :=
  [RemoveCurrentLine; RemoveNextLine; RemoveBlockStart; RemoveBlockEnd; RemoveFile; ReplaceNextLine].

Definition markupComment (prefix : string) (commentType : MarkupComments) : string :=
  prefix +:+ " " +:+ kind_text commentType.

Definition removeCurrentLine (contents comment : string) : string :=
  let lines := split LF contents in
  let result := List.filter (fun line => negb (includes line comment)) lines in
  join LF result.

Definition removeNextLine (contents comment : string) : string :=
  let lines := split LF contents in
  let result :=
    filteri (fun line index =>
      let prevLine := at_index lines (index - 1) in
      let preserveCurrent := Bool.eqb (includes line comment) false in
      let preservePrevious :=
        match prevLine with
        | Some p => Bool.eqb (includes p comment) false
        | None => false
        end in
      if (index =? 0)%Z then preserveCurrent
      else preserveCurrent && preservePrevious) lines in
  join LF result.

Definition replaceNextLine (contents comment : string) : string :=
  let lines := split LF contents in
  let mapped :=
    mapi (fun line index =>
      match at_index lines (index - 1) with
      | Some prevLine =>
          if includes prevLine comment
          then trim (replace comment "" (replace "//" "" prevLine))
          else line
      | None => line
      end) lines in
  let result :=
    filteri (fun line index =>
      match at_index mapped index with
      | Some l => negb (includes l comment)
      | None => true
      end) mapped in
  join LF result.

(** [replaceNextLine] in the words of the specification: going down
    the lines with the line before at hand, a line after a marker line
    becomes the text taken from that marker line, and a line that
    holds the marker after this is left out. *)
Definition replacement_text (comment markerLine : string) : string :=
  trim (replace comment "" (replace "//" "" markerLine)).

Fixpoint replace_lines (comment : string) (prev : option string) (lines : list string)
    : list string :=
  match lines with
  | [] => []
  | line :: rest =>
      let new :=
        match prev with
        | Some p => if includes p comment then replacement_text comment p else line
        | None => line
        end in
      (if includes new comment then [] else [new]) ++ replace_lines comment (Some line) rest
  end.

(** Some line of the text that holds the marker [comment] hands a text
    that holds [t] to the line after it. *)
Definition replacement_holds (contents comment t : string) : bool :=
  existsb (fun line => includes line comment && includes (replacement_text comment line) t)
    (split LF contents).

Record BlockComment := { start : string; end_ : string }.

(** [removeBlocks] calls itself while a start and an end marker are
    both left; [fuel] bounds the depth of that recursion and [None]
    means the bound was reached. *)
Fixpoint removeBlocks_rec (fuel : nat) (contents : string) (comment : BlockComment)
    : option string :=
  match fuel with
  | O => None
  | S fuel' =>
      let lines := split LF contents in
      let findIdx (l : list string) (c : string) :=
        findIndex (fun line => includes line c) l in
      let NOT_FOUND := (-1)%Z in
      let blockStartIndex := findIdx lines (start comment) in
      let blockEndIndex := findIdx lines (end_ comment) in
      let blockExists :=
        negb (blockStartIndex =? NOT_FOUND)%Z && negb (blockEndIndex =? NOT_FOUND)%Z in
      let lines :=
        if blockExists
        then let blockLength := (blockEndIndex - blockStartIndex + 1)%Z in
             splice lines blockStartIndex blockLength
        else lines in
      let updateContents := join LF lines in
      let anotherBlockExists :=
        negb (findIdx lines (start comment) =? NOT_FOUND)%Z
        && negb (findIdx lines (end_ comment) =? NOT_FOUND)%Z in
      if anotherBlockExists then removeBlocks_rec fuel' updateContents comment
      else Some updateContents
  end.

(** The steps of one call of [removeBlocks], named for the proofs. *)
Definition findIdx (l : list string) (c : string) : Z :=
  findIndex (fun line => includes line c) l.

Definition both_found (l : list string) (comment : BlockComment) : bool :=
  negb (findIdx l (start comment) =? -1)%Z && negb (findIdx l (end_ comment) =? -1)%Z.

(** The lines after the [splice] of one call. *)
Definition block_removed (lines : list string) (comment : BlockComment) : list string :=
  if both_found lines comment
  then splice lines (findIdx lines (start comment))
         (findIdx lines (end_ comment) - findIdx lines (start comment) + 1)
  else lines.

(** The lines of [replaceNextLine] before the marker lines are left out. *)
Definition replaced_lines (lines : list string) (comment : string) : list string :=
  mapi (fun line index =>
          match at_index lines (index - 1) with
          | Some prevLine =>
              if includes prevLine comment
              then trim (replace comment "" (replace "//" "" prevLine))
              else line
          | None => line
          end) lines.

(** The test of the filter of [removeNextLine] over the lines [lines]. *)
Definition next_line_kept (lines : list string) (comment : string)
    (line : string) (index : Z) : bool :=
  let prevLine := at_index lines (index - 1) in
  let preserveCurrent := Bool.eqb (includes line comment) false in
  let preservePrevious :=
    match prevLine with
    | Some p => Bool.eqb (includes p comment) false
    | None => false
    end in
  if (index =? 0)%Z then preserveCurrent
  else preserveCurrent && preservePrevious.

(** Every call that makes progress removes a line, so a depth of one
    more than the number of lines is reached only by a recursion that
    never ends (see [removeBlocks_rec_stuck]). *)
Definition removeBlocks (contents : string) (comment : BlockComment) : option string :=
  removeBlocks_rec (S (length (split LF contents))) contents comment.

Definition updateFile (contents markupPrefix : string) : option string :=
  match removeBlocks contents
          {| start := markupComment markupPrefix RemoveBlockStart;
             end_ := markupComment markupPrefix RemoveBlockEnd |} with
  | None => None
  | Some result =>
      let result := removeCurrentLine result (markupComment markupPrefix RemoveCurrentLine) in
      let result := removeNextLine result (markupComment markupPrefix RemoveNextLine) in
      let result := replaceNextLine result (markupComment markupPrefix ReplaceNextLine) in
      Some result
  end.

(** The pattern text of [markupRegex].  In the template literal of the
    source the escapes [\/] and [\s] denote the characters [/] and [s]. *)
Definition markupRegex_pattern (prefix : string) : string :=
  "(//|#)s*" +:+ prefix +:+ ".*|{?/.*" +:+ prefix +:+ ".*/}?".

Definition markupRegex (prefix : string) : option Regex.RegExp :=
  Regex.new_RegExp (markupRegex_pattern prefix) "gm".

(** *** Files on disk

    The store maps a path to the text of the file there.
    [filesystem.read] yields the text or [undefined] and
    [filesystem.remove] deletes the entry. *)
Abbreviation FS := (gmap string string).

Definition read (fs : FS) (path : string) : option string := fs !! path.
Definition remove (path : string) (fs : FS) : FS := delete path fs.

Inductive outcome (A : Type) :=
| Returned (a : A)
| Thrown (e : string).
Arguments Returned {A} a.
Arguments Thrown {A} e.

(** *** The [patching] toolbox as this file uses it

    The object imported as [patching] is gluegun's patching toolbox,
    whose members are [exists], [update], [append], [prepend],
    [replace] and [patch].  It has no member [read] and no member
    [writeAsync]: [patching.read] and [patching.writeAsync] evaluate to
    [undefined], and calling them throws a [TypeError] whatever the
    arguments and the files are. *)
Definition patching_read (path : string) (fs : FS) : outcome (option string) :=
  Thrown "TypeError: patching.read is not a function".

Definition patching_writeAsync (path contents : string) (fs : FS) : outcome FS :=
  Thrown "TypeError: patching.writeAsync is not a function".

(** JavaScript default parameter [dryRun = true]. *)
Definition or_default (o : option bool) (d : bool) : bool :=
  match o with Some b => b | None => d end.

Record DeleteOptions := {
  del_filePaths : list string;
  del_comment : string;
  del_dryRun : option bool
}.

(** The [for] loop of [deleteFiles].  An exception of the awaited read
    rejects the promise of [deleteFiles]; the files removed before it
    stay removed. *)
Fixpoint deleteFiles_loop (paths : list string) (comment : string) (dryRun : bool)
    (fs : FS) (removedFiles : list string) : FS * outcome (list string) :=
  match paths with
  | [] => (fs, Returned removedFiles)
  | path :: rest =>
      match patching_read path fs with
      | Thrown e => (fs, Thrown e)
      | Returned contents =>
          match contents with
          | Some c =>
              if includes c comment
              then let removedFiles := removedFiles ++ [path] in
                   let fs := if negb dryRun then remove path fs else fs in
                   deleteFiles_loop rest comment dryRun fs removedFiles
              else deleteFiles_loop rest comment dryRun fs removedFiles
          | None => deleteFiles_loop rest comment dryRun fs removedFiles
          end
      end
  end.

Definition deleteFiles (o : DeleteOptions) (fs : FS) : FS * outcome (list string) :=
  let dryRun := or_default (del_dryRun o) true in
  deleteFiles_loop (del_filePaths o) (del_comment o) dryRun fs [].

Record UpdateOptions := {
  filePaths : list string;
  markupPrefix : string;
  dryRun : option bool;
  removeMarkupOnly : option bool
}.

Record UpdateResult := {
  updatedFiles : list string;
  skippedFiles : list string
}.

(** The body of the [for] loop over [filePaths].  The state carried
    from one file to the next is the store, the two result arrays and
    [searchRegex], one object for the whole loop.  An exception of an
    awaited call rejects the promise of [updateFiles]. *)
Fixpoint updateFiles_loop (paths : list string) (prefix : string) (dryRun removeMarkupOnly : bool)
    (fs : FS) (searchRegex : Regex.RegExp) (res : UpdateResult)
    : FS * outcome UpdateResult :=
  match paths with
  | [] => (fs, Returned res)
  | path :: rest =>
      let skip :=
        {| updatedFiles := updatedFiles res; skippedFiles := skippedFiles res ++ [path] |} in
      match patching_read path fs with
      | Thrown e => (fs, Thrown e)
      | Returned None =>
          updateFiles_loop rest prefix dryRun removeMarkupOnly fs searchRegex skip
      | Returned (Some EmptyString) =>
          updateFiles_loop rest prefix dryRun removeMarkupOnly fs searchRegex skip
      | Returned (Some contents) =>
          let '(hasMarkup, searchRegex) := Regex.test searchRegex contents in
          if negb hasMarkup
          then updateFiles_loop rest prefix dryRun removeMarkupOnly fs searchRegex skip
          else
            let res :=
              {| updatedFiles := updatedFiles res ++ [path]; skippedFiles := skippedFiles res |} in
            if negb dryRun then
              if removeMarkupOnly then
                let '(updatedContents, searchRegex) :=
                  Regex.replace_regexp searchRegex "" contents in
                match patching_writeAsync path updatedContents fs with
                | Returned fs =>
                    updateFiles_loop rest prefix dryRun removeMarkupOnly fs searchRegex res
                | Thrown e => (fs, Thrown e)
                end
              else
                match updateFile contents prefix with
                | Some updatedContents =>
                    match patching_writeAsync path updatedContents fs with
                    | Returned fs =>
                        updateFiles_loop rest prefix dryRun removeMarkupOnly fs searchRegex res
                    | Thrown e => (fs, Thrown e)
                    end
                | None => (fs, Thrown "RangeError: Maximum call stack size exceeded")
                end
            else updateFiles_loop rest prefix dryRun removeMarkupOnly fs searchRegex res
      end
  end.

(** [updateFiles] builds [searchRegex] before the loop.  The result is
    [None] for a prefix whose pattern lies outside the fragment of
    [Regex]: the model says nothing about such a call. *)
Definition updateFiles (o : UpdateOptions) (fs : FS) : option (FS * outcome UpdateResult) :=
  let dryRun := or_default (dryRun o) true in
  let removeMarkupOnly := or_default (removeMarkupOnly o) false in
  match markupRegex (markupPrefix o) with
  | None => None
  | Some searchRegex =>
      Some (updateFiles_loop (filePaths o) (markupPrefix o) dryRun removeMarkupOnly fs
              searchRegex {| updatedFiles := []; skippedFiles := [] |})
  end.

(** *** Directories ([removeEmptyDirs])

    A directory tree under [targetDir]: the directories and the files
    in it, each named by its path segments relative to [targetDir]
    (the path that [pathlib.join(targetDir, path)] renders as text).
    The order of [tree_dirs] is the order in which [find] reports. *)
Abbreviation segments := (list string).

Record Tree := {
  tree_dirs : list segments;
  tree_files : list segments
}.

Definition entries (t : Tree) : list segments := tree_dirs t ++ tree_files t.

Definition is_child (parent q : segments) : bool :=
  bool_decide (q <> [] /\ removelast q = parent).

Definition is_under (p q : segments) : bool :=
  bool_decide (take (length p) q = p).

(** [filesystem.list(path)]: the entries of a directory, [undefined] for anything else. *)
Definition fs_list (t : Tree) (p : segments) : option (list segments) :=
  if bool_decide (p ∈ tree_dirs t)
  then Some (List.filter (is_child p) (entries t))
  else None.

(** [filesystem.remove(path)] deletes the entry and everything below it. *)
Definition fs_remove (p : segments) (t : Tree) : Tree :=
  {| tree_dirs := List.filter (fun q => negb (is_under p q)) (tree_dirs t);
     tree_files := List.filter (fun q => negb (is_under p q)) (tree_files t) |}.

(** [find] with [directories: true, files: false]: the directories
    below the start directory that the globs let through. *)
Definition find_dirs (matching : segments -> bool) (t : Tree) : list segments :=
  List.filter (fun p => negb (bool_decide (p = [])) && matching p) (tree_dirs t).

Definition getEmptyDirPaths (matching : segments -> bool) (t : Tree) : list segments :=
  List.filter
    (fun p => match fs_list t p with
              | Some l => (length l =? 0)%nat
              | None => true
              end)
    (find_dirs matching t).

(** The [while] loop of [removeEmptyDirs]; [fuel] bounds the number of
    iterations and [None] means the bound was reached with the loop
    condition still true. *)
Fixpoint removeEmptyDirs_loop (fuel : nat) (dryRun : bool) (matching : segments -> bool)
    (t : Tree) (emptyDirPaths removedDirs : list segments) : option (Tree * list segments) :=
  match emptyDirPaths with
  | [] => Some (t, removedDirs)
  | _ :: _ =>
      match fuel with
      | O => None
      | S fuel' =>
          let t' := fold_left (fun t path => if negb dryRun then fs_remove path t else t)
                      emptyDirPaths t in
          let removedDirs := removedDirs ++ emptyDirPaths in
          removeEmptyDirs_loop fuel' dryRun matching t' (getEmptyDirPaths matching t') removedDirs
      end
  end.

Definition removeEmptyDirs (fuel : nat) (dryRun : bool) (matching : segments -> bool)
    (t : Tree) : option (Tree * list segments) :=
  removeEmptyDirs_loop fuel dryRun matching t (getEmptyDirPaths matching t) [].

End Markup.

(** ** Further JavaScript string methods: indices and slices *)
Module Text.
Import JS.

(** [s.endsWith(t)] *)
Definition endsWith (s t : string) : bool :=
  (String.length t <=? String.length s)%nat
  && String.eqb (drop (String.length s - String.length t) s) t.

(** [s.indexOf(t)]: the index of the first occurrence, [-1] without one. *)
Fixpoint indexOf_from (t : string) (i : Z) (s : string) : Z :=
  if startsWith t s then i
  else match s with
       | EmptyString => (-1)%Z
       | String _ s' => indexOf_from t (i + 1)%Z s'
       end.

Definition indexOf (s t : string) : Z := indexOf_from t 0%Z s.

(** [s.lastIndexOf(t)]: the index of the last occurrence, [-1] without one. *)
Fixpoint lastIndexOf_from (t : string) (i : Z) (s : string) : Z :=
  let later :=
    match s with
    | EmptyString => (-1)%Z
    | String _ s' => lastIndexOf_from t (i + 1)%Z s'
    end in
  if (later =? -1)%Z then (if startsWith t s then i else (-1)%Z) else later.

Definition lastIndexOf (s t : string) : Z := lastIndexOf_from t 0%Z s.

(** An index argument of [slice]: a negative one counts from the end,
    and the result is kept within the string. *)
Definition slice_index (len : nat) (i : Z) : nat :=
  if (i <? 0)%Z then Z.to_nat (Z.max (Z.of_nat len + i) 0)
  else Nat.min (Z.to_nat i) len.

(** [s.slice(from)] and [s.slice(from, to)] *)
Definition slice (s : string) (from : Z) (to : option Z) : string :=
  let len := String.length s in
  let a := slice_index len from in
  let b := match to with Some t => slice_index len t | None => len end in
  String.substring a (b - a) s.

(** An index argument of [substring]: negative ones count as zero. *)
Definition substring_index (len : nat) (i : Z) : nat := Nat.min (Z.to_nat i) len.

(** [s.substring(from)] and [s.substring(from, to)]: the arguments
    are swapped when the first is the greater. *)
Definition substring (s : string) (from : Z) (to : option Z) : string :=
  let len := String.length s in
  let a := substring_index len from in
  let b := match to with Some t => substring_index len t | None => len end in
  String.substring (Nat.min a b) (Nat.max a b - Nat.min a b) s.

End Text.

(** ** [filesystem.path] of the CLI toolkit

    [filesystem.path(...parts)] is fs-jetpack's [path]: Node's
    [path.resolve] of the working directory and the parts, so the
    result is an absolute path. *)
Module Path.
Import JS.

(** The segment stack of [normalizeString]: [.] and empty segments are
    skipped, [..] removes the segment before it when there is one. *)
Fixpoint normalize_segments (allowAboveRoot : bool) (segs : list string) (acc : list string)
    : list string :=
  match segs with
  | [] => rev acc
  | seg :: rest =>
      if String.eqb seg "" || String.eqb seg "." then normalize_segments allowAboveRoot rest acc
      else if String.eqb seg ".." then
        match acc with
        | top :: acc' =>
            if String.eqb top ".." then normalize_segments allowAboveRoot rest (seg :: acc)
            else normalize_segments allowAboveRoot rest acc'
        | [] =>
            if allowAboveRoot then normalize_segments allowAboveRoot rest [seg]
            else normalize_segments allowAboveRoot rest []
        end
      else normalize_segments allowAboveRoot rest (seg :: acc)
  end.

(** The loop of [path.resolve], from the last part to the first: an
    empty part is skipped, a part is put before what is gathered, and
    the loop ends at an absolute part or, after the parts, at the
    working directory. *)
Fixpoint gather (parts_from_last : list string) (cwd resolvedPath : string) : string :=
  match parts_from_last with
  | [] => cwd +:+ "/" +:+ resolvedPath
  | path :: rest =>
      if String.eqb path "" then gather rest cwd resolvedPath
      else if startsWith "/" path then path +:+ "/" +:+ resolvedPath
      else gather rest cwd (path +:+ "/" +:+ resolvedPath)
  end.

(** [path.resolve(...parts)] in the working directory [cwd], an
    absolute path. *)
Definition resolve (cwd : string) (parts : list string) : string :=
  "/" +:+ join "/" (normalize_segments false (split "/" (gather (rev parts) cwd "")) []).

End Path.

(** ** [strings.isBlank] of the CLI toolkit *)
Module Strings.
Import JS.

(** [strings.isBlank(value)]: not a string, or nothing but white space. *)
Definition isBlank (value : option string) : bool :=
  match value with
  | None => true
  | Some v => String.eqb (trim v) ""
  end.

End Strings.

(** ** Generators ([src/tools/generators.ts]) *)
Module Generators.
Import JS.
Export Markup(outcome, Returned, Thrown).

(** *** Front matter data *)

(** The options left of a patch directive once [path] and [skip] are
    taken out; [opt_rest] holds the keys of the generic patcher
    ([before], [after], [delete], [force]) as written. *)
Record PatchOptions := {
  opt_append : option string;
  opt_prepend : option string;
  opt_replace : option string;
  opt_insert : option string;
  opt_rest : list (string * string)
}.

Record Patch := {
  patch_path : option string;
  patch_skip : option bool;
  patch_opts : PatchOptions
}.

(** The value under the [path] key of a front matter: a string, or a
    value of another YAML type (a number, a sequence, a mapping). *)
Inductive PathValue :=
| PathString (s : string)
| PathOther.

Record FrontData := {
  fm_path : option PathValue;
  fm_patches : option (list Patch);
  fm_patch : option Patch
}.

Definition no_data : FrontData :=
  {| fm_path := None; fm_patches := None; fm_patch := None |}.

(** The calls made on the [patching] toolbox. *)
Inductive PatchCall :=
| CallAppend (path text : string)
| CallPrepend (path text : string)
| CallReplace (path oldContent : string) (newContent : option string)
| CallPatch (path : string) (opts : PatchOptions).

Inductive GeneratorCaseOptions := CaseAuto | CasePascal | CaseCamel | CaseKebab | CaseSnake | CaseNone.

Record GeneratorOptions := {
  name : string;
  originalName : string;
  skipIndexFile : option bool;
  subdirectory : string;
  overwrite : bool;
  dir : option string;
  case : option GeneratorCaseOptions
}.

Record Props := {
  camelCaseName : string;
  kebabCaseName : string;
  pascalCaseName : string;
  snakeCaseName : string;
  options : GeneratorOptions
}.

(** What the generator needs from outside the repository: the YAML
    and EJS libraries and, of the CLI toolkit, the file system toolbox
    ([path], [find], [write]; [find] looks at the files as they are
    when it is called), the case functions of [strings] and the four
    members of the patching toolbox that [handlePatches] calls.  An
    [outcome] of [Thrown] is a raised exception. *)
Class Collaborators := {
  eol : string;
  separator : string;
  fs_path : list string -> string;
  fs_find : Markup.FS -> string -> list string;
  fs_write : string -> string -> Markup.FS -> outcome Markup.FS;
  pascalCase : string -> string;
  kebabCase : string -> string;
  snakeCase : string -> string;
  camelCase : string -> string;
  YAML_parse : string -> outcome (option FrontData);
  ejs_render : string -> Props -> outcome string;
  patching : PatchCall -> Markup.FS -> outcome Markup.FS
}.

(** *** State and exceptions

    The state of a run: the files, the lines printed with
    [console.error], the three result arrays and the calls made on the
    patching toolbox so far, a call that throws included. *)
Record St := {
  files : Markup.FS;
  console : list string;
  written : list string;
  overwritten : list string;
  exists_ : list string;
  calls : list PatchCall
}.

Definition M (A : Type) : Type := St -> St * outcome A.

#[global] Instance M_ret : MRet M := fun A a st => (st, Returned a).

#[global] Instance M_bind : MBind M := fun A B f m st =>
  match m st with
  | (st', Returned a) => f a st'
  | (st', Thrown e) => (st', Thrown e)
  end.

Definition ret {A} (a : A) : M A := mret a.

Definition throw {A} (e : string) : M A := fun st => (st, Thrown e).

Definition try_catch (body : M unit) (handler : string -> M unit) : M unit :=
  fun st =>
    match body st with
    | (st', Thrown e) => handler e st'
    | r => r
    end.

Fixpoint for_of {A} (items : list A) (body : A -> M unit) : M unit :=
  match items with
  | [] => ret tt
  | x :: rest => body x ;; for_of rest body
  end.

Definition lift_outcome {A} (o : outcome A) : M A :=
  match o with
  | Returned a => ret a
  | Thrown e => throw e
  end.

Definition with_files (st : St) (fs : Markup.FS) : St :=
  {| files := fs; console := console st; written := written st;
     overwritten := overwritten st; exists_ := exists_ st; calls := calls st |}.

Definition with_call (st : St) (c : PatchCall) : St :=
  {| files := files st; console := console st; written := written st;
     overwritten := overwritten st; exists_ := exists_ st; calls := calls st ++ [c] |}.

Definition on_files (f : Markup.FS -> outcome Markup.FS) : M unit :=
  fun st =>
    match f (files st) with
    | Returned fs => (with_files st fs, Returned tt)
    | Thrown e => (st, Thrown e)
    end.

Definition console_error (line : string) : M unit :=
  fun st =>
    ({| files := files st; console := console st ++ [line]; written := written st;
        overwritten := overwritten st; exists_ := exists_ st; calls := calls st |}, Returned tt).

Definition push_written (p : string) : M unit :=
  fun st =>
    ({| files := files st; console := console st; written := written st ++ [p];
        overwritten := overwritten st; exists_ := exists_ st; calls := calls st |}, Returned tt).

Definition push_overwritten (p : string) : M unit :=
  fun st =>
    ({| files := files st; console := console st; written := written st;
        overwritten := overwritten st ++ [p]; exists_ := exists_ st; calls := calls st |},
     Returned tt).

Definition push_exists (p : string) : M unit :=
  fun st =>
    ({| files := files st; console := console st; written := written st;
        overwritten := overwritten st; exists_ := exists_ st ++ [p]; calls := calls st |},
     Returned tt).

(** [read(p)]: the text of the file, [undefined] when there is none. *)
Definition read_file (p : string) : M (option string) :=
  fun st => (st, Returned (Markup.read (files st) p)).

(** [fsExists(p) === "file"] *)
Definition is_file (p : string) : M bool :=
  fun st => (st, Returned (bool_decide (is_Some (files st !! p)))).

(** A string in a condition: [undefined] and the empty string are falsy. *)
Definition truthy (o : option string) : option string :=
  match o with
  | Some s => if String.eqb s "" then None else Some s
  | None => None
  end.

(** *** The members of [path]

    In [generateFromTemplate] the name [path] is bound to the [path]
    member of the file system toolbox, the function [fs_path] above.
    That function has no property [basename], [dirname] or [join]
    (those are functions of Node's [path] module, which this file does
    not import): each of the three evaluates to [undefined], and the
    call throws a [TypeError] whatever the argument is. *)
Definition path_basename (p : PathValue) : M string :=
  throw "TypeError: path.basename is not a function".

Definition path_dirname (p : PathValue) : M string :=
  throw "TypeError: path.dirname is not a function".

Definition path_join (parts : list string) : M string :=
  throw "TypeError: path.join is not a function".

Section WithCollaborators.
Context {C : Collaborators}.

(** *** [frontMatter]

    The result's [data] and [content] are both [undefined] when the
    text holds neither none nor exactly two separators. *)
Definition frontMatter (contents : string)
    : outcome (option (option FrontData) * option string) :=
  let parts := split ("---" +:+ eol) contents in
  if (length parts =? 1)%nat || (length parts =? 3)%nat then
    let content :=
      match parts !! 2%nat with
      | Some c => Some c
      | None => parts !! 0%nat
      end in
    match truthy (parts !! 1%nat) with
    | Some yaml =>
        match YAML_parse yaml with
        | Returned data => Returned (Some data, content)
        | Thrown e => Thrown e
        end
    | None => Returned (Some (Some no_data), content)
    end
  else Returned (None, None).

(** *** [handlePatches] *)
Definition all_patches (data : FrontData) : list Patch :=
  let patches := match fm_patches data with Some ps => ps | None => [] end in
  match fm_patch data with
  | Some p => patches ++ [p]
  | None => patches
  end.

(** One awaited call on the patching toolbox. *)
Definition call (c : PatchCall) : M unit :=
  fun st =>
    match patching c (files st) with
    | Returned fs => (with_files (with_call st c) fs, Returned tt)
    | Thrown e => (with_call st c, Thrown e)
    end.

Definition handlePatch (patch : Patch) : M unit :=
  let patchPath := patch_path patch in
  let skip := patch_skip patch in
  let patchOpts := patch_opts patch in
  match truthy patchPath with
  | Some patchPath =>
      if negb (Markup.or_default skip false) then
        (match truthy (opt_append patchOpts) with
         | Some text => call (CallAppend patchPath text)
         | None => ret tt
         end) ;;
        (match truthy (opt_prepend patchOpts) with
         | Some text => call (CallPrepend patchPath text)
         | None => ret tt
         end) ;;
        (match truthy (opt_replace patchOpts) with
         | Some old => call (CallReplace patchPath old (opt_insert patchOpts))
         | None => ret tt
         end) ;;
        call (CallPatch patchPath patchOpts)
      else ret tt
  | None => ret tt
  end.

Definition handlePatches (data : FrontData) : M unit :=
  for_of (all_patches data) handlePatch.

(** *** [generateFromTemplate] *)
Definition appDir : string := fs_path ["app"].
Definition templatesDir : string := fs_path ["ignite"; "templates"].

Definition apply_case (caseOption : GeneratorCaseOptions) (filename : string) : string :=
  match caseOption with
  | CasePascal => pascalCase filename
  | CaseKebab => kebabCase filename
  | CaseSnake => snakeCase filename
  | CaseCamel => camelCase filename
  | CaseAuto | CaseNone => filename
  end.

(** [data.path ?? path(options.subdirectory, ...)] *)
Definition relativePath_of (generator : string) (o : GeneratorOptions)
    (templateFilename : string) (data : FrontData) : PathValue :=
  let sourceGeneratorDir := fs_path [templatesDir; generator] in
  match fm_path data with
  | Some p => p
  | None =>
      PathString
        (fs_path [subdirectory o;
                  replace "NAME" (name o)
                    (replace ".ejs" ""
                       (replace (sourceGeneratorDir +:+ separator) "" templateFilename))])
  end.

Definition props_of (o : GeneratorOptions) : Props :=
  {| camelCaseName := camelCase (name o);
     kebabCaseName := kebabCase (name o);
     pascalCaseName := pascalCase (name o);
     snakeCaseName := snakeCase (name o);
     options := o |}.

(** The line that the [catch] block prints. *)
Definition error_line (targetPath e : string) : string :=
  "Error generating " +:+ targetPath +:+ ": " +:+ e.

(** The body of the loop over the template files.  Returning from it
    is the [continue] of the source; an exception raised outside of
    the [try] block leaves the loop and the function. *)
Definition generate_one (generator : string) (o : GeneratorOptions)
    (templateFilename : string) : M unit :=
  templateContent ← read_file templateFilename ;
  if Strings.isBlank templateContent then ret tt
  else
    fm ← lift_outcome (frontMatter (match templateContent with Some c => c | None => "" end)) ;
    match fm with
    | (Some (Some data), Some content) =>
        let relativePath := relativePath_of generator o templateFilename data in
        filename ← path_basename relativePath ;
        let caseOption := match case o with Some c => c | None => CaseAuto end in
        let formattedFilename := apply_case caseOption filename in
        dirname ← path_dirname relativePath ;
        targetPath ← path_join [match dir o with Some d => d | None => appDir end;
                                dirname;
                                formattedFilename] ;
        pathExists ← is_file targetPath ;
        if pathExists && negb (overwrite o) then push_exists targetPath
        else
          try_catch
            (generatedContent ← lift_outcome (ejs_render content (props_of o)) ;
             on_files (fs_write targetPath generatedContent) ;;
             (if pathExists then push_overwritten targetPath else push_written targetPath) ;;
             match fm_patches data, fm_patch data with
             | None, None => ret tt
             | _, _ => handlePatches data
             end)
            (fun e => console_error (error_line targetPath e))
    | (Some None, _) => throw "TypeError: Cannot read properties of null (reading 'path')"
    | _ => throw "TypeError: Cannot read properties of undefined (reading 'path')"
    end.

Record GenerateResult := {
  res_written : list string;
  res_overwritten : list string;
  res_exists : list string
}.

Definition initial (fs : Markup.FS) (log : list string) : St :=
  {| files := fs; console := log; written := []; overwritten := []; exists_ := [];
     calls := [] |}.

(** [find(sourceGeneratorDir, { matching: "*.ejs", recursive: true })] *)
Definition templateFiles_of (fs : Markup.FS) (generator : string) : list string :=
  fs_find fs (fs_path [templatesDir; generator]).

Definition generateFromTemplate (generator : string) (o : GeneratorOptions)
    (fs : Markup.FS) (log : list string) : St * outcome GenerateResult :=
  let templateFiles := templateFiles_of fs generator in
  match for_of templateFiles (generate_one generator o) (initial fs log) with
  | (st, Returned _) =>
      (st, Returned {| res_written := written st;
                       res_overwritten := overwritten st;
                       res_exists := exists_ st |})
  | (st, Thrown e) => (st, Thrown e)
  end.

(** *** The patch contract in the words of the specification

    These definitions follow the text of the contract and not the code
    of [handlePatches]; the theorems compare the two.

    The directives of a front matter in declaration order: the
    sequence under [patches], then the one under [patch]. *)
Definition directives (data : FrontData) : list Patch :=
  match fm_patches data with Some ps => ps | None => [] end
  ++ match fm_patch data with Some p => [p] | None => [] end.

(** A directive that is a no-op: [skip] is true, or there is no target path. *)
Definition is_skipped (patch : Patch) : bool :=
  match truthy (patch_path patch), patch_skip patch with
  | None, _ => true
  | Some _, Some true => true
  | Some _, _ => false
  end.

Definition target_of_directive (patch : Patch) : string :=
  match patch_path patch with Some p => p | None => "" end.

Definition when_present (o : option string) (f : string -> PatchCall) : list PatchCall :=
  match truthy o with
  | Some v => [f v]
  | None => []
  end.

(** The generic options of a directive: what is left when [append],
    [prepend], [replace] and its insertion point are taken out. *)
Definition generic_options (opts : PatchOptions) : PatchOptions :=
  {| opt_append := None; opt_prepend := None; opt_replace := None; opt_insert := None;
     opt_rest := opt_rest opts |}.

(** Exactly the operations present in a directive, in the fixed
    order: append, prepend, replace, and the generic patcher on the
    generic options when there are any. *)
Definition claimed_operations (patch : Patch) : list PatchCall :=
  if is_skipped patch then []
  else
    let target := target_of_directive patch in
    let opts := patch_opts patch in
    when_present (opt_append opts) (CallAppend target)
    ++ when_present (opt_prepend opts) (CallPrepend target)
    ++ when_present (opt_replace opts) (fun old => CallReplace target old (opt_insert opts))
    ++ match opt_rest opts with
       | [] => []
       | _ :: _ => [CallPatch target (generic_options opts)]
       end.

(** The contract as amended: the generic patcher is called for every
    directive that is not skipped, on all the options of the directive. *)
Definition amended_operations (patch : Patch) : list PatchCall :=
  if is_skipped patch then []
  else
    let target := target_of_directive patch in
    let opts := patch_opts patch in
    when_present (opt_append opts) (CallAppend target)
    ++ when_present (opt_prepend opts) (CallPrepend target)
    ++ when_present (opt_replace opts) (fun old => CallReplace target old (opt_insert opts))
    ++ [CallPatch target opts].

(** Operations executed one after the other until one throws: the
    files left, the operations begun and the exception, if any. *)
Fixpoint apply_operations (ops : list PatchCall) (fs : Markup.FS)
    : Markup.FS * list PatchCall * option string :=
  match ops with
  | [] => (fs, [], None)
  | c :: rest =>
      match patching c fs with
      | Returned fs' =>
          let '(fs'', begun, e) := apply_operations rest fs' in (fs'', c :: begun, e)
      | Thrown e => (fs, [c], Some e)
      end
  end.

(** The state and the outcome of [handlePatches] that go with a result
    of [apply_operations]. *)
Definition after_operations (st : St) (r : Markup.FS * list PatchCall * option string)
    : St * outcome unit :=
  let '(fs, begun, e) := r in
  ({| files := fs; console := console st; written := written st;
      overwritten := overwritten st; exists_ := exists_ st; calls := calls st ++ begun |},
   match e with Some e => Thrown e | None => Returned tt end).

End WithCollaborators.

End Generators.

(** ** Sample collaborators

    A small concrete instance of [Generators.Collaborators] on which
    runs can be computed.  The working directory is [/project]; the
    files of the store are named relative to it, as [find] reports
    them. *)
Module Sample.
Import JS Text Generators.

Definition cwd : string := "/project".

(** A YAML reader that understands a single [path:] entry with a plain
    scalar, reads a blank document as [null] and rejects every other
    text.  A scalar of digits is a number. *)
Definition plain_scalar (s : string) : bool :=
  negb (String.eqb s "")
  && forallb (fun c => negb (Regex.one_of c "[]{}:#&*!|>'%@`,")) (list_ascii_of_string s).

Definition number_scalar (s : string) : bool :=
  negb (String.eqb s "") && forallb Regex.isDigit (list_ascii_of_string s).

Definition sample_YAML_parse (yaml : string) : outcome (option FrontData) :=
  if String.eqb (trim yaml) "" then Returned None
  else if startsWith "path: " yaml then
    match split LF (drop 6 yaml) with
    | [p; EmptyString] =>
        if plain_scalar p
        then Returned (Some {| fm_path := Some (if number_scalar p then PathOther
                                                else PathString p);
                               fm_patches := None; fm_patch := None |})
        else Thrown "YAMLParseError"
    | _ => Thrown "YAMLParseError"
    end
  else Thrown "YAMLParseError".

(** A renderer for templates without tags; a tag stands for a reference
    that cannot be resolved. *)
Definition sample_render (content : string) (_ : Props) : outcome string :=
  if includes content "<%" then Thrown "ReferenceError" else Returned content.

(** A patcher that throws on a missing file, appends, prepends and
    replaces, and whose generic patcher changes nothing. *)
Definition sample_patching (c : PatchCall) (fs : Markup.FS) : outcome Markup.FS :=
  match c with
  | CallAppend p text =>
      match fs !! p with
      | Some old => Returned (<[p := old +:+ text]> fs)
      | None => Thrown ("file not found " +:+ p)
      end
  | CallPrepend p text =>
      match fs !! p with
      | Some old => Returned (<[p := text +:+ old]> fs)
      | None => Thrown ("file not found " +:+ p)
      end
  | CallReplace p oldContent newContent =>
      match fs !! p with
      | Some old =>
          Returned (<[p := replace oldContent
                             (match newContent with Some n => n | None => "undefined" end) old]> fs)
      | None => Thrown ("file not found " +:+ p)
      end
  | CallPatch p _ =>
      match fs !! p with
      | Some _ => Returned fs
      | None => Thrown ("file not found " +:+ p)
      end
  end.

(** The names in ascending order. *)
Fixpoint insert_sorted (x : string) (l : list string) : list string :=
  match l with
  | [] => [x]
  | y :: rest => if String.leb x y then x :: l else y :: insert_sorted x rest
  end.

Definition sorted (l : list string) : list string := fold_right insert_sorted [] l.

(** [find]: the [.ejs] files of the store below the directory. *)
Definition sample_find (fs : Markup.FS) (directory : string) : list string :=
  sorted
    (List.filter
       (fun file => startsWith (directory +:+ "/") (Path.resolve cwd [file])
                    && endsWith file ".ejs")
       (List.map fst (map_to_list fs))).

(** The collaborators of the examples.  The four case functions are
    stand-ins, the identity. *)
Definition sample : Collaborators :=
  {| eol := LF;
     separator := "/";
     fs_path := Path.resolve cwd;
     fs_find := sample_find;
     fs_write := fun p c fs => Returned (<[p := c]> fs);
     pascalCase := fun s => s;
     kebabCase := fun s => s;
     snakeCase := fun s => s;
     camelCase := fun s => s;
     YAML_parse := sample_YAML_parse;
     ejs_render := sample_render;
     patching := sample_patching |}.

Definition template (file text : string) : string * string :=
  ("ignite/templates/model/" +:+ file, text).

Definition front (yaml body : string) : string :=
  "---" +:+ LF +:+ yaml +:+ LF +:+ "---" +:+ LF +:+ body.

(** The store that holds the given files. *)
Definition store (files : list (string * string)) : Markup.FS := list_to_map files.

(** The first template has an unclosed flow sequence in its front matter. *)
Definition templates_malformed_first : list (string * string) :=
  [template "a.ts.ejs" (front "path: [" "export const a = 1");
   template "b.ts.ejs" "export const b = 1"].

(** The first template opens a front matter block and never closes it. *)
Definition templates_unclosed_first : list (string * string) :=
  [template "a.ts.ejs" ("---" +:+ LF +:+ "export const a = 1");
   template "b.ts.ejs" "export const b = 1"].

(** A blank template, one without front matter, and one whose front
    matter gives a number as the path. *)
Definition templates_plain : list (string * string) :=
  [template "0.ejs" "  ";
   template "NAME.ts.ejs" "export const model = 1";
   template "NAME.test.ts.ejs" (front "path: 123" "test()")].

(** A single template without front matter. *)
Definition templates_model : list (string * string) :=
  [template "NAME.ts.ejs" "export const model = 1"].

Definition sample_options (overwrite : bool) (case : option GeneratorCaseOptions) : GeneratorOptions :=
  {| name := "Episode"; originalName := "Episode"; skipIndexFile := None;
     subdirectory := "models"; overwrite := overwrite; dir := None; case := case |}.

End Sample.

(** ** Texts, stores and trees used in the examples *)
Module Examples.
Import JS Regex Markup Generators.

Definition demo_line (token : string) (k : MarkupComments) : string :=
  token +:+ markupComment "@demo" k.

Definition detects (re : RegExp) (text : string) : bool := fst (test re text).

Definition marked : string := "//@demo remove-current-line".

Definition two_files : FS := <["a.ts" := marked]> (<["b.ts" := "const b = 1"]> ∅).

Definition update_options (paths : list string) (dry : option bool) : UpdateOptions :=
  {| filePaths := paths; markupPrefix := "@demo"; dryRun := dry; removeMarkupOnly := None |}.

Definition nested_empty : Tree :=
  {| tree_dirs := [["src"]; ["src"; "demo"]]; tree_files := [] |}.

(** A text that uses a [remove-current-line] and a [replace-next-line] marker. *)
Definition replaced_screen : string :=
  "const a = 1 // @demo remove-current-line" +:+ LF +:+
  "// @demo replace-next-line X" +:+ LF +:+
  "old".

Definition no_options : PatchOptions :=
  {| opt_append := None; opt_prepend := None; opt_replace := None; opt_insert := None;
     opt_rest := [] |}.

Definition skipped_directive : Patch :=
  {| patch_path := Some "app/models/index.ts";
     patch_skip := Some true;
     patch_opts := {| opt_append := Some "export * from './Episode'";
                      opt_prepend := None; opt_replace := None; opt_insert := None;
                      opt_rest := [] |} |}.

(** A directive with a target path and nothing else. *)
Definition path_only_directive : Patch :=
  {| patch_path := Some "app/models/index.ts"; patch_skip := None; patch_opts := no_options |}.

(** A directive that replaces a text and has no generic option. *)
Definition replace_directive : Patch :=
  {| patch_path := Some "app/models/index.ts";
     patch_skip := None;
     patch_opts := {| opt_append := None; opt_prepend := None;
                      opt_replace := Some "old"; opt_insert := Some "new";
                      opt_rest := [] |} |}.

Definition index_file : FS := <["app/models/index.ts" := "old old"]> ∅.

End Examples.

(** ** Names of boilerplates ([extractBoilerplateName] of [src/tools/generators.ts]) *)
Module Boilerplate.
Import JS Text Generators.

Section WithCollaborators.
Context {C : Collaborators}.

(** [name.split(separator).slice(-1)[0]]: the last piece.  [split]
    yields no empty array, so the piece is always there. *)
Definition last_piece (pieces : list string) : string := List.last pieces "".

Definition extractBoilerplateName (boilerplateName : string) : string :=
  let name := boilerplateName in
  let name :=
    if startsWith "react-native-" name
    then slice name (Z.of_nat (String.length "react-native-")) None
    else name in
  let name :=
    if includes name separator
    then last_piece (split separator name)
    else name in
  let name :=
    if endsWith name ".git" then
      let name := slice name 0 (Some (-4)%Z) in
      let slashIndex := lastIndexOf name "/" in
      let colonIndex := lastIndexOf name ":" in
      slice name (Z.max slashIndex colonIndex + 1)%Z None
    else name in
  if negb (startsWith "ignite-" name) then "ignite-" +:+ name else name.

End WithCollaborators.

End Boilerplate.

(** ** Installing generators ([installGenerators] of [src/tools/generators.ts])

    The templates that ship with the CLI and the templates of the
    project are files of one store.  [find_all] is
    [filesystem.find(dir, { matching: "*" })], [sourceDir] the result
    of [sourceDirectory()] and [targetDir] the [ignite/templates]
    directory of the project. *)
Module Install.
Import JS Text Markup Generators Boilerplate.

Section WithCollaborators.
Context {C : Collaborators}.
Variable find_all : string -> list string.
Variables sourceDir targetDir : string.








End WithCollaborators.

End Install.

(** ** The [generate] command ([src/commands/generate.ts]) *)
Module GenerateCommand.
Import JS Text Generators.

Definition SUB_DIR_DELIMITER : string := "/".

(** The subdirectory and the name that the command takes from its
    second parameter. *)
Definition split_name (name : string) : string * string :=
  if (indexOf name SUB_DIR_DELIMITER >? -1)%Z then
    let lastSlashIndex := lastIndexOf name SUB_DIR_DELIMITER in
    let subdirectory := substring name 0 (Some (lastSlashIndex + 1)%Z) in
    let name := substring name (lastSlashIndex + 1)%Z None in
    (subdirectory, name)
  else ("", name).

(** The name without the name of the generator at its end; both
    arguments are in Pascal case. *)
Definition strip_generator (pascalGenerator pascalName : string) : string :=
  if endsWith pascalName pascalGenerator
  then slice pascalName 0 (Some (-1 * Z.of_nat (String.length pascalGenerator))%Z)
  else pascalName.

End GenerateCommand.

(** ** Directory trees as a disk holds them *)
Module Checks.
Import JS Markup.

(** Every directory between the root and an entry is a directory of
    the tree, and no path names both a directory and a file. *)
Definition well_formed (t : Tree) : bool :=
  forallb (fun q =>
             forallb (fun k => bool_decide (take k q ∈ tree_dirs t))
               (seq 1 (length q - 1)))
    (entries t)
  && forallb (fun p => negb (bool_decide (p ∈ tree_files t))) (tree_dirs t).

End Checks.

(** * Properties *)

(** ** Strings, lines and occurrences *)
Module JSFacts.
Import JS.

Lemma app_cons (x : ascii) (a b : string) : String x a +:+ b = String x (a +:+ b).
Proof. reflexivity. Qed.

Lemma app_empty_l (a : string) : "" +:+ a = a.
Proof. reflexivity. Qed.

Lemma app_assoc_s (a b c : string) : (a +:+ b) +:+ c = a +:+ (b +:+ c).
Proof. induction a as [|x a IH]; [reflexivity|]. rewrite !app_cons, IH. reflexivity. Qed.

Lemma app_empty_r (a : string) : a +:+ "" = a.
Proof. induction a as [|x a IH]; [reflexivity|]. rewrite app_cons, IH. reflexivity. Qed.

Lemma has_char_app (c : ascii) (a b : string) :
  has_char c (a +:+ b) = has_char c a || has_char c b.
Proof.
  induction a as [|x a IH]; [reflexivity|].
  rewrite app_cons. cbn [has_char]. rewrite IH. apply orb_assoc.
Qed.

Lemma startsWith_app_l (p r : string) : startsWith p (p +:+ r) = true.
Proof.
  induction p as [|x p IH]; [reflexivity|].
  rewrite app_cons. cbn [startsWith]. rewrite Ascii.eqb_refl. exact IH.
Qed.

Lemma startsWith_app_weaken (t a b : string) :
  startsWith t a = true -> startsWith t (a +:+ b) = true.
Proof.
  revert a. induction t as [|x t IH]; intros a; [reflexivity|].
  destruct a as [|y a]; [discriminate|]. rewrite app_cons. cbn [startsWith].
  destruct (Ascii.eqb x y); [apply IH|discriminate].
Qed.

Lemma drop_app_length (p r : string) : drop (String.length p) (p +:+ r) = r.
Proof.
  induction p as [|x p IH]; [destruct r; reflexivity|].
  rewrite app_cons. cbn [String.length drop]. exact IH.
Qed.

(** An occurrence that begins before a line feed and is free of line
    feeds ends before it. *)
Lemma startsWith_before_LF (t u v : string) :
  no_LF t -> startsWith t (u +:+ LF +:+ v) = true -> startsWith t u = true.
Proof.
  unfold no_LF. revert u. induction t as [|x t IH]; intros u Ht H; [reflexivity|].
  cbn [has_char] in Ht. apply orb_false_iff in Ht as [Hx Ht].
  destruct u as [|y u].
  - rewrite app_empty_l in H. cbn [LF append startsWith] in H.
    rewrite Ascii.eqb_sym in Hx. unfold LF in H. rewrite app_cons in H.
    cbn [startsWith] in H. rewrite Ascii.eqb_sym, Hx in H. discriminate.
  - rewrite app_cons in H. cbn [startsWith] in H |- *.
    destruct (Ascii.eqb x y); [apply IH; assumption|discriminate].
Qed.

Lemma includes_app_r (a b t : string) :
  includes b t = true -> includes (a +:+ b) t = true.
Proof.
  intros H. induction a as [|x a IH]; [exact H|].
  rewrite app_cons. cbn [includes]. rewrite IH. apply orb_true_r.
Qed.

Lemma includes_app_l (a b t : string) :
  includes a t = true -> includes (a +:+ b) t = true.
Proof.
  induction a as [|x a IH]; intros H.
  - cbn in H. rewrite orb_false_r in H. destruct t; [|discriminate].
    destruct b; reflexivity.
  - cbn [includes] in H. apply orb_true_iff in H as [H|H].
    + change (String x a +:+ b) with (String x (a +:+ b)). cbn [includes].
      change (String x (a +:+ b)) with (String x a +:+ b).
      rewrite (startsWith_app_weaken _ _ _ H). reflexivity.
    + change (String x a +:+ b) with (String x (a +:+ b)). cbn [includes].
      rewrite (IH H). apply orb_true_r.
Qed.

Lemma includes_startsWith (s t : string) : startsWith t s = true -> includes s t = true.
Proof. intros H. destruct s; cbn [includes]; rewrite H; reflexivity. Qed.

Lemma includes_middle (a t b : string) : includes (a +:+ t +:+ b) t = true.
Proof. apply includes_app_r, includes_startsWith, startsWith_app_l. Qed.

Lemma includes_across_LF (a b t : string) :
  no_LF t -> t <> "" ->
  includes (a +:+ LF +:+ b) t = true -> includes a t = true \/ includes b t = true.
Proof.
  intros Ht Hne. induction a as [|x a IH]; intros H.
  - right. change ("" +:+ LF +:+ b) with (String "010" b) in H. cbn [includes] in H.
    apply orb_true_iff in H as [H|H]; [|exact H].
    destruct t as [|y t]; [congruence|]. cbn in H. unfold no_LF in Ht. cbn in Ht.
    apply orb_false_iff in Ht as [Hy _]. rewrite Hy in H. discriminate.
  - change (String x a +:+ LF +:+ b) with (String x (a +:+ LF +:+ b)) in H.
    cbn [includes] in H. apply orb_true_iff in H as [H|H].
    + left. cbn [includes].
      change (String x (a +:+ LF +:+ b)) with (String x a +:+ LF +:+ b) in H.
      rewrite (startsWith_before_LF _ _ _ Ht H). reflexivity.
    + destruct (IH H) as [H'|H']; [left|right; exact H'].
      cbn [includes]. rewrite H'. apply orb_true_r.
Qed.

Lemma includes_empty_text (t : string) : t <> "" -> includes "" t = false.
Proof. destruct t; [congruence|reflexivity]. Qed.

(** A text without line feeds occurs in the joined lines exactly when it occurs in one of them. *)
Lemma includes_join (t : string) (ls : list string) :
  no_LF t -> t <> "" ->
  (includes (join LF ls) t = true <-> Exists (fun l => includes l t = true) ls).
Proof.
  intros Ht Hne. induction ls as [|l ls IH].
  - cbn [join]. rewrite includes_empty_text by exact Hne. split; [discriminate|].
    intros H. inversion H.
  - destruct ls as [|l' ls].
    + cbn [join]. split; [intros H; left; exact H|].
      intros H. inversion H as [? ? H'|? ? H']; [exact H'|inversion H'].
    + change (join LF (l :: l' :: ls)) with (l +:+ LF +:+ join LF (l' :: ls)). split.
      * intros H. destruct (includes_across_LF _ _ _ Ht Hne H) as [H'|H'].
        -- left. exact H'.
        -- right. apply IH. exact H'.
      * intros H. inversion H as [? ? H'|? ? H']; subst.
        -- apply includes_app_l. exact H'.
        -- apply includes_app_r, includes_app_r. apply IH. exact H'.
Qed.

Lemma includes_join_false (t : string) (ls : list string) :
  no_LF t -> t <> "" ->
  (includes (join LF ls) t = false <-> Forall (fun l => includes l t = false) ls).
Proof.
  intros Ht Hne. pose proof (includes_join t ls Ht Hne) as H. split.
  - intros Hf. apply Forall_forall. intros l Hin.
    apply not_true_iff_false. intros E.
    assert (Hex : Exists (fun l => includes l t = true) ls).
    { apply Exists_exists. exists l. split; assumption. }
    apply H in Hex. congruence.
  - intros Hall. apply not_true_iff_false. intros E.
    apply H in E. apply Exists_exists in E as (l & Hin & Hl).
    rewrite Forall_forall in Hall. rewrite (Hall l Hin) in Hl. discriminate.
Qed.

(** *** [split] on line feeds *)
Lemma split_LF_cons (a : ascii) (s : string) :
  split LF (String a s) =
  if Ascii.eqb "010" a then "" :: split LF s
  else match split LF s with
       | h :: t => String a h :: t
       | [] => [String a ""]
       end.
Proof.
  unfold split. cbn [split_from startsWith LF]. destruct (Ascii.eqb "010" a); reflexivity.
Qed.

Lemma split_LF_nonempty (s : string) : split LF s <> [].
Proof.
  induction s as [|a s IH]; [discriminate|]. rewrite split_LF_cons.
  destruct (Ascii.eqb "010" a); [discriminate|]. destruct (split LF s); [congruence|discriminate].
Qed.

Lemma join_split (s : string) : join LF (split LF s) = s.
Proof.
  induction s as [|a s IH]; [reflexivity|]. rewrite split_LF_cons.
  destruct (Ascii.eqb "010" a) eqn:E.
  - apply Ascii.eqb_eq in E as <-.
    destruct (split LF s) as [|h t] eqn:Hs; [destruct (split_LF_nonempty s Hs)|].
    change (join LF ("" :: h :: t)) with ("" +:+ LF +:+ join LF (h :: t)).
    rewrite IH. reflexivity.
  - destruct (split LF s) as [|h t] eqn:Hs; [destruct (split_LF_nonempty s Hs)|].
    destruct t as [|h' t].
    + cbn [join] in *. rewrite IH. reflexivity.
    + change (join LF (String a h :: h' :: t)) with (String a (h +:+ LF +:+ join LF (h' :: t))).
      change (join LF (h :: h' :: t)) with (h +:+ LF +:+ join LF (h' :: t)) in IH.
      rewrite IH. reflexivity.
Qed.

Lemma split_lines_no_LF (s : string) : Forall no_LF (split LF s).
Proof.
  induction s as [|a s IH]; [repeat constructor|]. rewrite split_LF_cons.
  destruct (Ascii.eqb "010" a) eqn:E; [constructor; [reflexivity|exact IH]|].
  destruct (split LF s) as [|h t]; [repeat constructor|].
  - unfold no_LF. cbn. rewrite Ascii.eqb_sym, E. reflexivity.
  - inversion IH as [|? ? Hh Ht]; subst. constructor; [|exact Ht].
    unfold no_LF in *. cbn. rewrite Ascii.eqb_sym, E. exact Hh.
Qed.

Lemma split_no_LF (s : string) : no_LF s -> split LF s = [s].
Proof.
  unfold no_LF. induction s as [|a s IH]; intros H; [reflexivity|].
  cbn in H. apply orb_false_iff in H as [Ha Hs].
  rewrite split_LF_cons, Ascii.eqb_sym, Ha, (IH Hs). reflexivity.
Qed.

Lemma split_app_LF (a b : string) :
  no_LF a -> split LF (a +:+ LF +:+ b) = a :: split LF b.
Proof.
  unfold no_LF. induction a as [|x a IH]; intros H.
  - change ("" +:+ LF +:+ b) with (String "010" b). rewrite split_LF_cons. reflexivity.
  - cbn in H. apply orb_false_iff in H as [Hx Ha].
    change (String x a +:+ LF +:+ b) with (String x (a +:+ LF +:+ b)).
    rewrite split_LF_cons, Ascii.eqb_sym, Hx, (IH Ha). reflexivity.
Qed.

Lemma split_join (ls : list string) :
  ls <> [] -> Forall no_LF ls -> split LF (join LF ls) = ls.
Proof.
  induction ls as [|l ls IH]; intros Hne Hall; [congruence|].
  inversion Hall as [|? ? Hl Hls]; subst.
  destruct ls as [|l' ls].
  - cbn [join]. apply split_no_LF. exact Hl.
  - change (join LF (l :: l' :: ls)) with (l +:+ LF +:+ join LF (l' :: ls)).
    rewrite split_app_LF by exact Hl. rewrite IH; [reflexivity|discriminate|exact Hls].
Qed.

(** A text without line feeds occurs in a text exactly when it occurs in one of its lines. *)
Lemma includes_lines_false (t s : string) :
  no_LF t -> t <> "" ->
  (includes s t = false <-> Forall (fun l => includes l t = false) (split LF s)).
Proof.
  intros Ht Hne. rewrite <- (join_split s) at 1. apply includes_join_false; assumption.
Qed.

End JSFacts.

(** ** The line and block transforms *)
Module MarkupFacts.
Import JS JSFacts Markup.

Lemma kind_text_no_LF (k : MarkupComments) : no_LF (kind_text k).
Proof. destruct k; reflexivity. Qed.

Lemma markupComment_no_LF (prefix : string) (k : MarkupComments) :
  no_LF prefix -> no_LF (markupComment prefix k).
Proof.
  unfold no_LF, markupComment. intros H.
  rewrite !has_char_app, H, (kind_text_no_LF k). reflexivity.
Qed.

Lemma markupComment_nonempty (prefix : string) (k : MarkupComments) :
  markupComment prefix k <> "".
Proof.
  unfold markupComment. intros H.
  assert (E : has_char " " (prefix +:+ " " +:+ kind_text k) = true).
  { rewrite !has_char_app. cbn. apply orb_true_r. }
  rewrite H in E. discriminate.
Qed.

(** *** Arrays *)
Lemma Forall_filteri_from {A} (P : A -> Prop) (p : A -> Z -> bool) (l : list A) :
  Forall P l -> forall i, Forall P (filteri_from p i l).
Proof.
  induction 1 as [|x l Hx _ IH]; intros i; cbn; [constructor|].
  destruct (p x i); [constructor; [exact Hx|apply IH]|apply IH].
Qed.

Lemma Forall_filteri_from_kept {A} (p : A -> Z -> bool) (l : list A) (i : Z) :
  Forall (fun x => exists j, p x j = true) (filteri_from p i l).
Proof.
  revert i. induction l as [|x l IH]; intros i; cbn; [constructor|].
  destruct (p x i) eqn:E; [constructor; [eauto|apply IH]|apply IH].
Qed.

Lemma Forall_filter_list {A} (P : A -> Prop) (p : A -> bool) (l : list A) :
  Forall P l -> Forall P (List.filter p l).
Proof.
  induction 1 as [|x l Hx _ IH]; cbn; [constructor|].
  destruct (p x); [constructor; assumption|assumption].
Qed.

Lemma Forall_filter_kept {A} (p : A -> bool) (l : list A) :
  Forall (fun x => p x = true) (List.filter p l).
Proof.
  induction l as [|x l IH]; cbn; [constructor|].
  destruct (p x) eqn:E; [constructor; assumption|assumption].
Qed.

Lemma filter_all_kept {A} (p : A -> bool) (l : list A) :
  Forall (fun x => p x = true) l -> List.filter p l = l.
Proof.
  induction 1 as [|x l Hx _ IH]; cbn; [reflexivity|]. rewrite Hx, IH. reflexivity.
Qed.

Lemma Forall_splice {A} (P : A -> Prop) (l : list A) (s d : Z) :
  Forall P l -> Forall P (splice l s d).
Proof.
  intros H. unfold splice. apply Forall_app. split.
  - apply Forall_take. exact H.
  - apply Forall_drop. exact H.
Qed.

Lemma at_index_length {A} (pre : list A) (x : A) (rest : list A) :
  at_index (pre ++ x :: rest) (Z.of_nat (length pre)) = Some x.
Proof.
  unfold at_index. destruct (Z.ltb_spec (Z.of_nat (length pre)) 0); [lia|].
  rewrite Nat2Z.id. apply list_lookup_middle. reflexivity.
Qed.

Lemma at_index_before_first {A} (l : list A) : at_index l (0 - 1) = None.
Proof. reflexivity. Qed.

(** The array that [filter] walks, looked up at the index it is at, gives the element itself. *)
Lemma filteri_from_self {A} (g : option A -> bool) (pre rest : list A) :
  filteri_from (fun _ index => g (at_index (pre ++ rest) index)) (Z.of_nat (length pre)) rest
  = List.filter (fun x => g (Some x)) rest.
Proof.
  revert pre. induction rest as [|x rest IH]; intros pre; [reflexivity|].
  cbn [filteri_from List.filter]. rewrite at_index_length.
  replace (Z.of_nat (length pre) + 1)%Z with (Z.of_nat (length (pre ++ [x])))
    by (rewrite length_app; cbn; lia).
  replace (pre ++ x :: rest) with ((pre ++ [x]) ++ rest) by (rewrite <- app_assoc; reflexivity).
  rewrite IH. reflexivity.
Qed.

(** *** Line transforms *)
Section Absent.
Variable t : string.
Hypothesis Ht : no_LF t.
Hypothesis Hne : t <> "".

(** The line transforms that only drop lines bring no text in. *)
Lemma removeCurrentLine_keeps_absent (contents comment : string) :
  includes contents t = false -> includes (removeCurrentLine contents comment) t = false.
Proof.
  intros H. unfold removeCurrentLine. apply includes_join_false; [assumption..|].
  apply Forall_filter_list. apply includes_lines_false; assumption.
Qed.

Lemma removeNextLine_keeps_absent (contents comment : string) :
  includes contents t = false -> includes (removeNextLine contents comment) t = false.
Proof.
  intros H. unfold removeNextLine, filteri. apply includes_join_false; [assumption..|].
  apply Forall_filteri_from. apply includes_lines_false; assumption.
Qed.

End Absent.

Lemma removeCurrentLine_clears (contents comment : string) :
  no_LF comment -> comment <> "" ->
  includes (removeCurrentLine contents comment) comment = false.
Proof.
  intros Hc Hne. unfold removeCurrentLine. apply includes_join_false; [assumption..|].
  eapply Forall_impl; [apply Forall_filter_kept|]. cbn. intros l H.
  apply negb_true_iff in H. exact H.
Qed.

Lemma removeNextLine_clears (contents comment : string) :
  no_LF comment -> comment <> "" ->
  includes (removeNextLine contents comment) comment = false.
Proof.
  intros Hc Hne. unfold removeNextLine, filteri. apply includes_join_false; [assumption..|].
  eapply Forall_impl; [apply Forall_filteri_from_kept|]. cbn. intros l [j H].
  destruct (includes l comment); [|reflexivity].
  destruct (j =? 0)%Z; cbn in H; discriminate.
Qed.

Lemma replaceNextLine_filter (contents comment : string) :
  replaceNextLine contents comment
  = join LF (List.filter (fun l => negb (includes l comment))
               (replaced_lines (split LF contents) comment)).
Proof.
  unfold replaceNextLine. fold (replaced_lines (split LF contents) comment).
  unfold filteri. f_equal.
  apply (filteri_from_self
           (fun o => match o with Some l => negb (includes l comment) | None => true end) []).
Qed.

Lemma replaceNextLine_clears (contents comment : string) :
  no_LF comment -> comment <> "" ->
  includes (replaceNextLine contents comment) comment = false.
Proof.
  intros Hc Hne. rewrite replaceNextLine_filter. apply includes_join_false; [assumption..|].
  eapply Forall_impl; [apply Forall_filter_kept|]. cbn. intros l H.
  apply negb_true_iff in H. exact H.
Qed.

Lemma at_index_In {A} (l : list A) (i : Z) (x : A) : at_index l i = Some x -> In x l.
Proof.
  unfold at_index. destruct (i <? 0)%Z; [discriminate|]. intros H.
  apply list_elem_of_In. eapply list_elem_of_lookup_2. exact H.
Qed.

Lemma replaced_lines_unmarked (lines : list string) (comment : string) :
  Forall (fun l => includes l comment = false) lines ->
  replaced_lines lines comment = lines.
Proof.
  intros Hall. unfold replaced_lines, mapi. generalize 0%Z.
  generalize lines at 2 3 as rest.
  induction rest as [|x rest IH]; intros i; [reflexivity|].
  cbn [mapi_from]. rewrite IH. f_equal.
  destruct (at_index lines (i - 1)) as [prev|] eqn:E; [|reflexivity].
  apply at_index_In in E. rewrite Forall_forall in Hall.
  rewrite (Hall prev) by (apply list_elem_of_In; exact E). reflexivity.
Qed.

(** Without its marker in the text, [replaceNextLine] changes nothing. *)
Lemma replaceNextLine_unmarked (contents comment : string) :
  no_LF comment -> comment <> "" ->
  includes contents comment = false -> replaceNextLine contents comment = contents.
Proof.
  intros Hc Hne H. apply includes_lines_false in H; [|assumption..].
  rewrite replaceNextLine_filter, (replaced_lines_unmarked _ _ H).
  rewrite filter_all_kept; [apply join_split|].
  eapply Forall_impl; [exact H|]. cbn. intros l Hl. rewrite Hl. reflexivity.
Qed.

Lemma at_index_last {A} (pre rest : list A) :
  at_index (pre ++ rest) (Z.of_nat (length pre) - 1) = last pre.
Proof.
  destruct (last pre) as [p|] eqn:E.
  - apply last_Some in E as [pre' ->]. rewrite length_app. cbn [length].
    replace (Z.of_nat (length pre' + 1) - 1)%Z with (Z.of_nat (length pre')) by lia.
    rewrite <- app_assoc. apply at_index_length.
  - apply last_None in E as ->. reflexivity.
Qed.

Lemma replaced_lines_from (comment : string) (pre rest : list string) :
  List.filter (fun l => negb (includes l comment))
    (mapi_from (fun line index =>
                  match at_index (pre ++ rest) (index - 1) with
                  | Some prevLine =>
                      if includes prevLine comment
                      then trim (replace comment "" (replace "//" "" prevLine))
                      else line
                  | None => line
                  end) (Z.of_nat (length pre)) rest)
  = replace_lines comment (last pre) rest.
Proof.
  revert pre. induction rest as [|x rest IH]; intros pre; [reflexivity|].
  cbn [mapi_from replace_lines List.filter]. rewrite at_index_last.
  replace (Z.of_nat (length pre) + 1)%Z with (Z.of_nat (length (pre ++ [x])))
    by (rewrite length_app; cbn; lia).
  replace (pre ++ x :: rest) with ((pre ++ [x]) ++ rest) by (rewrite <- app_assoc; reflexivity).
  rewrite IH, last_snoc. unfold replacement_text.
  destruct (last pre) as [p|]; [destruct (includes p comment)|];
    match goal with |- context [negb (includes ?l comment)] =>
      destruct (includes l comment) end; reflexivity.
Qed.

(** [replaceNextLine] does what the specification says line by line. *)
Lemma replaceNextLine_replace_lines (contents comment : string) :
  replaceNextLine contents comment
  = join LF (replace_lines comment None (split LF contents)).
Proof.
  rewrite replaceNextLine_filter. f_equal.
  apply (replaced_lines_from comment [] (split LF contents)).
Qed.

(** *** Block removal *)
Lemma removeBlocks_rec_S (fuel : nat) (contents : string) (comment : BlockComment) :
  removeBlocks_rec (S fuel) contents comment =
  if both_found (block_removed (split LF contents) comment) comment
  then removeBlocks_rec fuel (join LF (block_removed (split LF contents) comment)) comment
  else Some (join LF (block_removed (split LF contents) comment)).
Proof. reflexivity. Qed.

Lemma findIndex_range {A} (p : A -> bool) (l : list A) :
  findIndex p l = (-1)%Z \/ (0 <= findIndex p l < Z.of_nat (length l))%Z.
Proof.
  induction l as [|x l IH]; [left; reflexivity|]. cbn [findIndex length].
  destruct (p x); [right; lia|].
  destruct (Z.eqb_spec (findIndex p l) (-1)); [left; reflexivity|right; lia].
Qed.

Lemma findIndex_none {A} (p : A -> bool) (l : list A) :
  findIndex p l = (-1)%Z <-> Forall (fun x => p x = false) l.
Proof.
  induction l as [|x l IH]; [split; [constructor|reflexivity]|]. cbn [findIndex].
  destruct (p x) eqn:E.
  - split; [discriminate|]. intros H. inversion H; congruence.
  - destruct (Z.eqb_spec (findIndex p l) (-1)) as [Hr|Hr].
    + split; [|reflexivity]. intros _. constructor; [exact E|apply IH; exact Hr].
    + pose proof (findIndex_range p l) as Hrange. split; [lia|].
      intros Hall. inversion Hall; subst. destruct Hr. apply IH. assumption.
Qed.

Lemma both_found_false (l : list string) (comment : BlockComment) :
  both_found l comment = false ->
  Forall (fun x => includes x (start comment) = false) l \/
  Forall (fun x => includes x (end_ comment) = false) l.
Proof.
  unfold both_found, findIdx. intros H. apply andb_false_iff in H as [H|H];
    apply negb_false_iff, Z.eqb_eq, findIndex_none in H; [left|right]; exact H.
Qed.

Lemma both_found_absent (l : list string) (comment : BlockComment) :
  Forall (fun x => includes x (start comment) = false) l \/
  Forall (fun x => includes x (end_ comment) = false) l ->
  both_found l comment = false.
Proof.
  unfold both_found, findIdx. intros [H|H]; apply findIndex_none in H; rewrite H; cbn;
    [reflexivity|apply andb_false_r].
Qed.

Lemma Forall_block_removed (P : string -> Prop) (lines : list string) (comment : BlockComment) :
  Forall P lines -> Forall P (block_removed lines comment).
Proof.
  intros H. unfold block_removed. destruct (both_found lines comment); [|exact H].
  apply Forall_splice. exact H.
Qed.

Lemma removeBlocks_rec_keeps_absent (t : string) (comment : BlockComment) :
  no_LF t -> t <> "" ->
  forall fuel contents result,
    includes contents t = false ->
    removeBlocks_rec fuel contents comment = Some result ->
    includes result t = false.
Proof.
  intros Ht Hne. induction fuel as [|fuel IH]; intros contents result Habs; [discriminate|].
  rewrite removeBlocks_rec_S.
  assert (H : includes (join LF (block_removed (split LF contents) comment)) t = false).
  { apply includes_join_false; [assumption..|]. apply Forall_block_removed.
    apply includes_lines_false; assumption. }
  destruct (both_found _ comment); [apply IH; exact H|].
  intros [= <-]. exact H.
Qed.

(** What [removeBlocks] returns does not hold both a start and an end marker. *)
Lemma removeBlocks_rec_not_both (comment : BlockComment) :
  no_LF (start comment) -> start comment <> "" ->
  no_LF (end_ comment) -> end_ comment <> "" ->
  forall fuel contents result,
    removeBlocks_rec fuel contents comment = Some result ->
    includes result (start comment) = false \/ includes result (end_ comment) = false.
Proof.
  intros Hs Hsne He Hene. induction fuel as [|fuel IH]; intros contents result; [discriminate|].
  rewrite removeBlocks_rec_S.
  destruct (both_found _ comment) eqn:E; [apply IH|].
  intros [= <-]. destruct (both_found_false _ _ E) as [H|H]; [left|right];
    apply includes_join_false; assumption.
Qed.

(** With one of the two markers missing the text is returned as it is. *)
Lemma removeBlocks_without_pair (contents : string) (comment : BlockComment) :
  no_LF (start comment) -> start comment <> "" ->
  no_LF (end_ comment) -> end_ comment <> "" ->
  includes contents (start comment) = false \/ includes contents (end_ comment) = false ->
  removeBlocks contents comment = Some contents.
Proof.
  intros Hs Hsne He Hene H. unfold removeBlocks. rewrite removeBlocks_rec_S.
  assert (E : both_found (split LF contents) comment = false).
  { apply both_found_absent. destruct H as [H|H]; [left|right];
      apply includes_lines_false; assumption. }
  unfold block_removed. rewrite E, E, join_split. reflexivity.
Qed.

(** *** The depth of the recursion of [removeBlocks] *)
Lemma both_found_indices (lines : list string) (comment : BlockComment) :
  both_found lines comment = true ->
  (0 <= findIdx lines (start comment) < Z.of_nat (length lines))%Z /\
  (0 <= findIdx lines (end_ comment) < Z.of_nat (length lines))%Z.
Proof.
  unfold both_found, findIdx. intros H. apply andb_true_iff in H as [H1 H2].
  apply negb_true_iff, Z.eqb_neq in H1, H2.
  pose proof (findIndex_range (fun line => includes line (start comment)) lines).
  pose proof (findIndex_range (fun line => includes line (end_ comment)) lines). lia.
Qed.

(** An end marker above the start marker: [splice] gets a count below
    one and removes nothing. *)
Lemma block_removed_end_first (lines : list string) (comment : BlockComment) :
  both_found lines comment = true ->
  (findIdx lines (end_ comment) < findIdx lines (start comment))%Z ->
  block_removed lines comment = lines.
Proof.
  intros Hb Hlt. unfold block_removed, splice. rewrite Hb.
  replace (Z.to_nat (findIdx lines (end_ comment) - findIdx lines (start comment) + 1))
    with 0 by lia.
  rewrite Nat.add_0_r. apply take_drop.
Qed.

Lemma block_removed_shorter (lines : list string) (comment : BlockComment) :
  both_found lines comment = true ->
  (findIdx lines (start comment) <= findIdx lines (end_ comment))%Z ->
  length (block_removed lines comment) < length lines.
Proof.
  intros Hb Hle. destruct (both_found_indices _ _ Hb) as [Hs He].
  unfold block_removed, splice. rewrite Hb, length_app, length_take, length_drop. lia.
Qed.

Lemma both_found_nonempty (lines : list string) (comment : BlockComment) :
  both_found lines comment = true -> lines <> [].
Proof. intros H ->. discriminate. Qed.

Lemma removeBlocks_rec_end_first (contents : string) (comment : BlockComment) :
  both_found (split LF contents) comment = true ->
  (findIdx (split LF contents) (end_ comment)
   < findIdx (split LF contents) (start comment))%Z ->
  forall fuel, removeBlocks_rec fuel contents comment = None.
Proof.
  intros Hb Hlt. induction fuel as [|fuel IH]; [reflexivity|].
  rewrite removeBlocks_rec_S, (block_removed_end_first _ _ Hb Hlt), Hb, join_split. exact IH.
Qed.

(** Either every depth from the number of lines plus one on gives the
    same result, or no depth gives a result. *)
Lemma removeBlocks_rec_settles (comment : BlockComment) :
  forall n contents,
    length (split LF contents) <= n ->
    (exists result, forall fuel,
        length (split LF contents) < fuel ->
        removeBlocks_rec fuel contents comment = Some result) \/
    (forall fuel, removeBlocks_rec fuel contents comment = None).
Proof.
  induction n as [|n IH]; intros contents Hn.
  { pose proof (split_LF_nonempty contents). destruct (split LF contents); [congruence|].
    cbn in Hn. lia. }
  set (lines := split LF contents) in *.
  destruct (both_found lines comment) eqn:Hb.
  - destruct (Z.lt_ge_cases (findIdx lines (end_ comment)) (findIdx lines (start comment)))
      as [Hlt|Hge].
    + right. apply removeBlocks_rec_end_first; assumption.
    + pose proof (block_removed_shorter _ _ Hb Hge) as Hshort.
      destruct (both_found (block_removed lines comment) comment) eqn:Hb'.
      * assert (Hsplit : split LF (join LF (block_removed lines comment))
                         = block_removed lines comment).
        { apply split_join; [eapply both_found_nonempty; exact Hb'|].
          apply Forall_block_removed, split_lines_no_LF. }
        destruct (IH (join LF (block_removed lines comment))) as [[result Hres]|Hnone].
        { rewrite Hsplit. lia. }
        -- left. exists result. intros [|fuel] Hf; [lia|].
           rewrite removeBlocks_rec_S. fold lines. rewrite Hb'. apply Hres.
           rewrite Hsplit. lia.
        -- right. intros [|fuel]; [reflexivity|].
           rewrite removeBlocks_rec_S. fold lines. rewrite Hb'. apply Hnone.
      * left. eexists. intros [|fuel] Hf; [lia|].
        rewrite removeBlocks_rec_S. fold lines. rewrite Hb'. reflexivity.
  - left. eexists. intros [|fuel] Hf; [lia|].
    rewrite removeBlocks_rec_S. fold lines. unfold block_removed. rewrite Hb, Hb. reflexivity.
Qed.

(** [removeBlocks] gives no result only when the recursion of the
    source never ends, and its result is that of every greater depth. *)
Lemma removeBlocks_rec_stuck (contents : string) (comment : BlockComment) :
  removeBlocks contents comment = None ->
  forall fuel, removeBlocks_rec fuel contents comment = None.
Proof.
  unfold removeBlocks. intros H.
  destruct (removeBlocks_rec_settles comment _ contents (Nat.le_refl _)) as [[r Hr]|Hnone];
    [|exact Hnone].
  rewrite Hr in H by lia. discriminate.
Qed.

Lemma removeBlocks_rec_enough (contents : string) (comment : BlockComment) (result : string) :
  removeBlocks contents comment = Some result ->
  forall fuel, length (split LF contents) < fuel ->
               removeBlocks_rec fuel contents comment = Some result.
Proof.
  unfold removeBlocks. intros H fuel Hf.
  destruct (removeBlocks_rec_settles comment _ contents (Nat.le_refl _)) as [[r Hr]|Hnone].
  - rewrite Hr in H by lia. injection H as <-. apply Hr. exact Hf.
  - rewrite Hnone in H. discriminate.
Qed.

(** *** The text that a marker line hands to the next line *)
Lemma all_eq_app (c : ascii) (a b : string) : all_eq c (a +:+ b) = all_eq c a && all_eq c b.
Proof.
  induction a as [|x a IH]; [reflexivity|].
  rewrite app_cons. cbn [all_eq]. rewrite IH. apply andb_assoc.
Qed.

(** A text that occurs one place before itself is one character repeated. *)
Lemma startsWith_shifted (m r : string) :
  forall c, startsWith m (String c (m +:+ r)) = true -> all_eq c m = true.
Proof.
  induction m as [|x m IH]; intros c H; [reflexivity|].
  rewrite app_cons in H. cbn [startsWith all_eq] in *.
  destruct (Ascii.eqb x c) eqn:E; [|discriminate].
  apply Ascii.eqb_eq in E as ->. cbn. apply IH. exact H.
Qed.

Lemma replace_at_start (pat rep s : string) :
  startsWith pat s = true -> replace pat rep s = rep +:+ drop (String.length pat) s.
Proof. intros H. destruct s; cbn [replace]; rewrite H; reflexivity. Qed.

Lemma replace_after_first (pat rep : string) (c : ascii) (s : string) :
  startsWith pat (String c s) = false ->
  replace pat rep (String c s) = String c (replace pat rep s).
Proof. intros H. cbn [replace]. rewrite H. reflexivity. Qed.

Lemma replacement_text_slashes (prefix payload : string) :
  replacement_text (markupComment prefix ReplaceNextLine)
    ("// " +:+ markupComment prefix ReplaceNextLine +:+ " " +:+ payload)
  = trim payload.
Proof.
  set (comment := markupComment prefix ReplaceNextLine).
  unfold replacement_text.
  change (replace "//" "" ("// " +:+ comment +:+ " " +:+ payload))
    with (String " " (comment +:+ " " +:+ payload)).
  rewrite replace_after_first.
  - rewrite replace_at_start by apply startsWith_app_l.
    rewrite drop_app_length. reflexivity.
  - apply not_true_iff_false. intros H. apply startsWith_shifted in H.
    unfold comment, markupComment in H. rewrite !all_eq_app in H.
    cbn in H. rewrite !andb_false_r in H. discriminate.
Qed.

End MarkupFacts.

(** ** What [updateFile] and [replaceNextLine] leave behind *)
Module UpdateFileFacts.
Import JS JSFacts Markup MarkupFacts Examples.

(** Lines with a property stay lines with the property under the
    passes that only drop lines. *)
Section Lines.
Variable P : string -> Prop.
Hypothesis P_empty : P "".

Lemma lines_join (ls : list string) :
  Forall no_LF ls -> Forall P ls -> Forall P (split LF (join LF ls)).
Proof.
  destruct ls as [|l ls]; intros Hn HP.
  - cbn. constructor; [exact P_empty|constructor].
  - rewrite split_join; [exact HP|discriminate|exact Hn].
Qed.

Lemma removeCurrentLine_keeps_lines (contents comment : string) :
  Forall P (split LF contents) -> Forall P (split LF (removeCurrentLine contents comment)).
Proof.
  intros H. unfold removeCurrentLine.
  apply lines_join; apply Forall_filter_list; [apply split_lines_no_LF|exact H].
Qed.

Lemma removeNextLine_keeps_lines (contents comment : string) :
  Forall P (split LF contents) -> Forall P (split LF (removeNextLine contents comment)).
Proof.
  intros H. unfold removeNextLine, filteri.
  apply lines_join; apply Forall_filteri_from; [apply split_lines_no_LF|exact H].
Qed.

Lemma removeBlocks_rec_keeps_lines (comment : BlockComment) :
  forall fuel contents result,
    Forall P (split LF contents) ->
    removeBlocks_rec fuel contents comment = Some result ->
    Forall P (split LF result).
Proof.
  induction fuel as [|fuel IH]; intros contents result HP; [discriminate|].
  rewrite removeBlocks_rec_S.
  assert (H : Forall P (split LF (join LF (block_removed (split LF contents) comment)))).
  { apply lines_join; apply Forall_block_removed; [apply split_lines_no_LF|exact HP]. }
  destruct (both_found _ comment); [apply IH; exact H|].
  intros [= <-]. exact H.
Qed.

End Lines.

Lemma existsb_false_Forall {A} (f : A -> bool) (l : list A) :
  existsb f l = false <-> Forall (fun x => f x = false) l.
Proof.
  induction l as [|x l IH]; cbn [existsb].
  - split; [constructor|reflexivity].
  - rewrite orb_false_iff, IH. split.
    + intros [H1 H2]. constructor; assumption.
    + intros H. inversion H; subst. split; assumption.
Qed.

(** The lines that [replaceNextLine] gives are lines of the text or
    texts handed over by a marker line. *)
Lemma replace_lines_Forall (comment : string) (Q : string -> Prop) (lines : list string) :
  Forall Q lines ->
  Forall (fun p => includes p comment = true -> Q (replacement_text comment p)) lines ->
  forall prev,
    match prev with
    | Some p => includes p comment = true -> Q (replacement_text comment p)
    | None => True
    end ->
    Forall Q (replace_lines comment prev lines).
Proof.
  induction lines as [|line rest IH]; intros HQ HR prev Hprev; [constructor|].
  inversion HQ as [|? ? Hq HQ']; subst. inversion HR as [|? ? Hr HR']; subst.
  cbn [replace_lines]. apply Forall_app. split; [|apply IH; assumption].
  destruct prev as [p|].
  - destruct (includes p comment) eqn:Hp.
    + destruct (includes (replacement_text comment p) comment); constructor; auto.
    + destruct (includes line comment); constructor; auto.
  - destruct (includes line comment); constructor; auto.
Qed.

Lemma replaceNextLine_keeps_absent_unless (t contents comment : string) :
  no_LF t -> t <> "" ->
  includes contents t = false ->
  replacement_holds contents comment t = false ->
  includes (replaceNextLine contents comment) t = false.
Proof.
  intros Ht Hne Habs Hrep. rewrite replaceNextLine_replace_lines.
  apply includes_join_false; [assumption..|].
  apply replace_lines_Forall with (Q := fun l => includes l t = false).
  - apply includes_lines_false; assumption.
  - apply existsb_false_Forall in Hrep.
    eapply Forall_impl; [exact Hrep|]. cbn. intros l Hl Hinc. rewrite Hinc in Hl. exact Hl.
  - exact I.
Qed.

(** What the passes before [replaceNextLine] leave of the marker lines
    hands over nothing that the text did not hand over. *)
Lemma replacement_holds_after_passes (contents r1 comment t : string)
    (block : BlockComment) (c1 c2 : string) :
  comment <> "" ->
  removeBlocks contents block = Some r1 ->
  replacement_holds contents comment t = false ->
  replacement_holds (removeNextLine (removeCurrentLine r1 c1) c2) comment t = false.
Proof.
  intros Hne Hb Hrep. apply existsb_false_Forall. apply existsb_false_Forall in Hrep.
  apply removeNextLine_keeps_lines, removeCurrentLine_keeps_lines;
    try (cbn beta; rewrite includes_empty_text by exact Hne; reflexivity).
  eapply removeBlocks_rec_keeps_lines; [|exact Hrep|exact Hb].
  cbn beta. rewrite includes_empty_text by exact Hne. reflexivity.
Qed.

(** C4.  For a prefix without line feeds and a text on which the block
    pass returns: the result of [updateFile] holds no replace-next-line
    marker; it holds no remove-current-line marker and no
    remove-next-line marker, unless a replace-next-line marker line of
    the text hands such a marker to the line after it; and it does not
    hold both a remove-block-start and a remove-block-end marker,
    unless a replace-next-line marker line hands over a block marker. *)
Theorem updateFile_markers_left (contents prefix result : string) :
  no_LF prefix ->
  updateFile contents prefix = Some result ->
  includes result (markupComment prefix ReplaceNextLine) = false /\
  (replacement_holds contents (markupComment prefix ReplaceNextLine)
     (markupComment prefix RemoveCurrentLine) = false ->
   includes result (markupComment prefix RemoveCurrentLine) = false) /\
  (replacement_holds contents (markupComment prefix ReplaceNextLine)
     (markupComment prefix RemoveNextLine) = false ->
   includes result (markupComment prefix RemoveNextLine) = false) /\
  (replacement_holds contents (markupComment prefix ReplaceNextLine)
     (markupComment prefix RemoveBlockStart) = false ->
   replacement_holds contents (markupComment prefix ReplaceNextLine)
     (markupComment prefix RemoveBlockEnd) = false ->
   includes result (markupComment prefix RemoveBlockStart) = false \/
   includes result (markupComment prefix RemoveBlockEnd) = false).
Proof.
  intros Hp Hu. unfold updateFile in Hu.
  destruct (removeBlocks contents _) as [r1|] eqn:Hb; [|discriminate].
  injection Hu as <-.
  pose proof (fun k => markupComment_no_LF prefix k Hp) as Hno.
  pose proof (markupComment_nonempty prefix) as Hne.
  assert (Hafter : forall k,
             replacement_holds contents (markupComment prefix ReplaceNextLine)
               (markupComment prefix k) = false ->
             includes (removeNextLine
                         (removeCurrentLine r1 (markupComment prefix RemoveCurrentLine))
                         (markupComment prefix RemoveNextLine)) (markupComment prefix k) = false ->
             includes (replaceNextLine
                         (removeNextLine
                            (removeCurrentLine r1 (markupComment prefix RemoveCurrentLine))
                            (markupComment prefix RemoveNextLine))
                         (markupComment prefix ReplaceNextLine)) (markupComment prefix k) = false).
  { intros k Hrep Habs. apply replaceNextLine_keeps_absent_unless; auto.
    eapply replacement_holds_after_passes; [apply Hne|exact Hb|exact Hrep]. }
  split; [apply replaceNextLine_clears; auto|]. split; [|split].
  - intros Hrep. apply Hafter; [exact Hrep|].
    apply removeNextLine_keeps_absent; auto. apply removeCurrentLine_clears; auto.
  - intros Hrep. apply Hafter; [exact Hrep|]. apply removeNextLine_clears; auto.
  - intros Hstart Hend.
    destruct (removeBlocks_rec_not_both
                {| start := markupComment prefix RemoveBlockStart;
                   end_ := markupComment prefix RemoveBlockEnd |}
                (Hno RemoveBlockStart) (Hne RemoveBlockStart)
                (Hno RemoveBlockEnd) (Hne RemoveBlockEnd) _ _ _ Hb) as [H|H];
      [left|right]; (apply Hafter; [assumption|]);
      apply removeNextLine_keeps_absent, removeCurrentLine_keeps_absent; auto.
Qed.

Lemma updateFile_markers_left_witness :
  no_LF "@demo" /\
  updateFile replaced_screen "@demo" = Some "X" /\
  replacement_holds replaced_screen (markupComment "@demo" ReplaceNextLine)
    (markupComment "@demo" RemoveCurrentLine) = false /\
  includes "X" (markupComment "@demo" ReplaceNextLine) = false /\
  includes "X" (markupComment "@demo" RemoveCurrentLine) = false.
Proof.
  assert (H1 : no_LF "@demo") by reflexivity.
  assert (H2 : updateFile replaced_screen "@demo" = Some "X") by (vm_compute; reflexivity).
  assert (H3 : replacement_holds replaced_screen (markupComment "@demo" ReplaceNextLine)
                 (markupComment "@demo" RemoveCurrentLine) = false)
    by (vm_compute; reflexivity).
  split; [exact H1|]. split; [exact H2|]. split; [exact H3|].
  destruct (updateFile_markers_left replaced_screen "@demo" "X" H1 H2) as (Ha & Hb & _).
  split; [exact Ha|exact (Hb H3)].
Defined.

(** Three texts that keep a marker or give no result.  A start marker without an
    end marker stays.  A marker line of the replace-next-line kind can
    hand a remove-current-line marker to the next line, after the pass
    that would remove it.  With the end marker above the start marker
    the block pass does not return. *)
Lemma updateFile_leaves_markers :
  updateFile "// @demo remove-block-start" "@demo" = Some "// @demo remove-block-start" /\
  includes "// @demo remove-block-start" (markupComment "@demo" RemoveBlockStart) = true /\
  updateFile ("# @demo replace-next-line @demo remove-cur//rent-line" +:+ LF +:+ "old") "@demo"
  = Some "#  @demo remove-current-line" /\
  includes "#  @demo remove-current-line" (markupComment "@demo" RemoveCurrentLine) = true /\
  updateFile ("// @demo remove-block-end" +:+ LF +:+ "// @demo remove-block-start") "@demo"
  = None.
Proof. repeat split; vm_compute; reflexivity. Qed.

(** C8.  For every text, [replaceNextLine] gives the lines that the
    specification describes: a line after a line with the marker
    becomes the text of that line without its first [//] and its first
    marker, trimmed, and lines that hold the marker are left out.  On
    a line [// <marker> payload] followed by one more line, with a
    payload that does not itself hold the marker, the result is the
    trimmed payload alone. *)
Theorem replaceNextLine_replaces_following_line :
  (forall contents comment,
      replaceNextLine contents comment
      = join LF (replace_lines comment None (split LF contents))) /\
  (forall prefix payload old,
      no_LF prefix -> no_LF payload -> no_LF old ->
      includes (trim payload) (markupComment prefix ReplaceNextLine) = false ->
      replaceNextLine
        ("// " +:+ markupComment prefix ReplaceNextLine +:+ " " +:+ payload +:+ LF +:+ old)
        (markupComment prefix ReplaceNextLine)
      = trim payload).
Proof.
  split; [apply replaceNextLine_replace_lines|].
  intros prefix payload old Hp Hpay Hold Hclean.
  set (comment := markupComment prefix ReplaceNextLine) in *.
  set (line := "// " +:+ comment +:+ " " +:+ payload).
  assert (Hline : no_LF line).
  { pose proof (markupComment_no_LF prefix ReplaceNextLine Hp) as Hc. fold comment in Hc.
    unfold line, no_LF in *. rewrite !has_char_app, Hc, Hpay. reflexivity. }
  replace ("// " +:+ comment +:+ " " +:+ payload +:+ LF +:+ old) with (line +:+ LF +:+ old)
    by (unfold line; rewrite !app_assoc_s; reflexivity).
  rewrite replaceNextLine_replace_lines, split_app_LF, split_no_LF by assumption.
  cbn [replace_lines].
  assert (Hinc : includes line comment = true) by apply includes_middle.
  assert (Hrt : replacement_text comment line = trim payload)
    by apply replacement_text_slashes.
  rewrite Hinc, Hrt, Hclean. reflexivity.
Qed.

Lemma replaceNextLine_slashes_witness :
  no_LF "@demo" /\ no_LF "REPLACED" /\ no_LF "old" /\
  includes (trim "REPLACED") (markupComment "@demo" ReplaceNextLine) = false /\
  replaceNextLine ("// @demo replace-next-line REPLACED" +:+ LF +:+ "old")
    (markupComment "@demo" ReplaceNextLine)
  = "REPLACED".
Proof.
  repeat (split; [reflexivity|]).
  apply (proj2 replaceNextLine_replaces_following_line "@demo" "REPLACED" "old");
    reflexivity.
Defined.

(** With a [#] comment the comment token stays in the replacement. *)
Lemma replaceNextLine_keeps_hash :
  replaceNextLine ("# @demo replace-next-line REPLACED" +:+ LF +:+ "old")
    (markupComment "@demo" ReplaceNextLine)
  = "#  REPLACED".
Proof. vm_compute. reflexivity. Qed.

End UpdateFileFacts.

(** ** The marker detector *)
Module DetectorFacts.
Import JS Regex Markup Examples.

(** C5.  The pattern text that [markupRegex] hands to [RegExp] reads
    [s*] where white space was meant: the regular expression carries
    the flags [g] and [m], finds a comment whose prefix follows the
    comment token directly (or after letters [s]), and finds no match
    in a line [// <prefix> <kind>] or [# <prefix> <kind>] with a blank
    before the prefix, for any of the six kinds. *)
Theorem markupRegex_misses_blank_before_prefix :
  markupRegex_pattern "@demo" = "(//|#)s*@demo.*|{?/.*@demo.*/}?" /\
  exists re,
    markupRegex "@demo" = Some re /\
    global re = true /\ multiline re = true /\
    forallb (fun k => detects re (demo_line "//" k)) all_kinds = true /\
    forallb (fun k => detects re (demo_line "#ss" k)) all_kinds = true /\
    forallb (fun k => negb (detects re (demo_line "// " k))) all_kinds = true /\
    forallb (fun k => negb (detects re (demo_line "# " k))) all_kinds = true.
Proof.
  split; [reflexivity|].
  destruct (markupRegex "@demo") as [re|] eqn:E; [|discriminate E].
  exists re. split; [reflexivity|].
  vm_compute in E. injection E as <-.
  repeat split; vm_compute; reflexivity.
Qed.

End DetectorFacts.

(** ** The bulk file transformer *)
Module TransformerFacts.
Import JS Regex Markup Examples.

(** The loop stops at the read of the first path. *)
Lemma updateFiles_loop_first_read (path : string) (rest : list string) (prefix : string)
    (dry markupOnly : bool) (fs : FS) (re : RegExp) (res : UpdateResult) :
  updateFiles_loop (path :: rest) prefix dry markupOnly fs re res
  = (fs, Thrown "TypeError: patching.read is not a function").
Proof. reflexivity. Qed.

(** C1.  Whatever the files hold, the prefix and the options are, a
    call of [updateFiles] on a list with at least one path ends with
    the [TypeError] of [patching.read] at the first path: no report is
    returned, so no path is recorded as skipped or as updated, and the
    files are as before. *)
Theorem updateFiles_rejects_at_the_first_path (fs : FS) (path : string) (rest : list string)
    (prefix : string) (dry markupOnly : option bool) (r : FS * outcome UpdateResult) :
  updateFiles {| filePaths := path :: rest; markupPrefix := prefix;
                 dryRun := dry; removeMarkupOnly := markupOnly |} fs = Some r ->
  r = (fs, Thrown "TypeError: patching.read is not a function").
Proof.
  unfold updateFiles. cbn [markupPrefix filePaths dryRun removeMarkupOnly].
  destruct (markupRegex prefix) as [re|]; [|discriminate].
  rewrite updateFiles_loop_first_read. intros [= <-]. reflexivity.
Qed.

Lemma updateFiles_rejects_witness :
  two_files !! "b.ts" = Some "const b = 1" /\
  exists r,
    updateFiles (update_options ["b.ts"] (Some true)) two_files = Some r /\
    r = (two_files, Thrown "TypeError: patching.read is not a function").
Proof.
  split; [reflexivity|]. eexists. split; [vm_compute; reflexivity|].
  apply (updateFiles_rejects_at_the_first_path two_files "b.ts" [] "@demo" (Some true) None).
  vm_compute. reflexivity.
Defined.

End TransformerFacts.

(** ** The empty-directory reaper *)
Module ReaperFacts.
Import JS Markup Examples.

Lemma fold_left_dry_run (paths : list segments) (t : Tree) :
  fold_left (fun t path => if negb true then fs_remove path t else t) paths t = t.
Proof. induction paths as [|p ps IH]; simpl; auto. Qed.

(** In a dry run nothing is removed, so a scan that found an empty
    directory finds it again, whatever the bound on the iterations. *)
Lemma dry_run_loop_stuck (matching : segments -> bool) (t : Tree) :
  getEmptyDirPaths matching t <> [] ->
  forall fuel removedDirs,
    removeEmptyDirs_loop fuel true matching t (getEmptyDirPaths matching t) removedDirs = None.
Proof.
  intros Hne fuel. induction fuel as [|fuel IH]; intros removedDirs.
  - simpl. destruct (getEmptyDirPaths matching t); [congruence|reflexivity].
  - simpl. destruct (getEmptyDirPaths matching t) as [|p ps] eqn:E; [congruence|].
    rewrite fold_left_dry_run. rewrite E. apply IH.
Qed.

Lemma fs_remove_dirs_length (p : segments) (t : Tree) :
  length (tree_dirs (fs_remove p t)) <= length (tree_dirs t).
Proof. simpl. apply List.filter_length_le. Qed.

Lemma is_under_refl (p : segments) : is_under p p = true.
Proof. unfold is_under. apply bool_decide_eq_true. apply firstn_all. Qed.

Lemma fs_remove_dirs_shorter (p : segments) (t : Tree) :
  In p (tree_dirs t) -> length (tree_dirs (fs_remove p t)) < length (tree_dirs t).
Proof.
  simpl. induction (tree_dirs t) as [|q qs IH]; simpl; [tauto|].
  intros [->|Hin].
  - rewrite is_under_refl. simpl.
    pose proof (List.filter_length_le (fun q => negb (is_under p q)) qs). lia.
  - destruct (negb (is_under p q)); simpl.
    + specialize (IH Hin). lia.
    + pose proof (List.filter_length_le (fun q => negb (is_under p q)) qs). lia.
Qed.

Lemma fold_remove_dirs_length (paths : list segments) (t : Tree) :
  length (tree_dirs (fold_left (fun t path => if negb false then fs_remove path t else t) paths t))
  <= length (tree_dirs t).
Proof.
  revert t. induction paths as [|p ps IH]; intros t; simpl; [lia|].
  etransitivity; [apply IH|]. apply fs_remove_dirs_length.
Qed.

Lemma getEmptyDirPaths_in_dirs (matching : segments -> bool) (t : Tree) (p : segments) :
  In p (getEmptyDirPaths matching t) -> In p (tree_dirs t).
Proof.
  unfold getEmptyDirPaths, find_dirs. intros H.
  apply List.filter_In in H as [H _]. apply List.filter_In in H as [H _]. exact H.
Qed.

(** In a real run every iteration removes a directory, so the loop
    ends within as many iterations as there are directories. *)
Lemma real_run_loop_terminates (matching : segments -> bool) :
  forall fuel t removedDirs,
    length (tree_dirs t) < fuel ->
    exists r, removeEmptyDirs_loop fuel false matching t (getEmptyDirPaths matching t) removedDirs
              = Some r.
Proof.
  induction fuel as [|fuel IH]; intros t removedDirs Hlen; [lia|].
  destruct (getEmptyDirPaths matching t) as [|p ps] eqn:E.
  - simpl. eauto.
  - cbn [removeEmptyDirs_loop]. apply IH.
    assert (Hin : In p (tree_dirs t)).
    { apply (getEmptyDirPaths_in_dirs matching). rewrite E. left. reflexivity. }
    cbn [fold_left negb].
    pose proof (fold_remove_dirs_length ps (fs_remove p t)) as H1.
    pose proof (fs_remove_dirs_shorter p t Hin) as H2.
    cbn [negb] in H1. lia.
Qed.

Lemma removeEmptyDirs_real_run_terminates (matching : segments -> bool) (t : Tree) :
  exists r, removeEmptyDirs (S (length (tree_dirs t))) false matching t = Some r.
Proof. apply real_run_loop_terminates. lia. Qed.

(** C2.  On a tree with an empty directory inside another directory a
    real run returns after two scans with both directories, the child
    first; a dry run does not return within any number of iterations:
    its loop condition never becomes false. *)
Theorem removeEmptyDirs_dry_run_never_returns :
  removeEmptyDirs 3 false (fun _ => true) nested_empty
    = Some ({| tree_dirs := []; tree_files := [] |}, [["src"; "demo"]; ["src"]]) /\
  forall fuel, removeEmptyDirs fuel true (fun _ => true) nested_empty = None.
Proof.
  split; [vm_compute; reflexivity|].
  intros fuel. unfold removeEmptyDirs. apply dry_run_loop_stuck.
  vm_compute. discriminate.
Qed.

End ReaperFacts.

(** ** Dry run by default *)
Module DryRunFacts.
Import JS Regex Markup Examples.

(** C10.  Called without [dryRun], [updateFiles] and [deleteFiles]
    change no file.  They return a report for the empty list only, and
    that report is empty: on a list with at least one path both end
    with the [TypeError] of [patching.read] at the first path. *)
Theorem dry_run_by_default_returns_no_report (fs : FS) (paths : list string)
    (prefix comment : string) (markupOnly : option bool) (r : FS * outcome UpdateResult) :
  updateFiles {| filePaths := paths; markupPrefix := prefix;
                 dryRun := None; removeMarkupOnly := markupOnly |} fs = Some r ->
  r = (fs, match paths with
           | [] => Returned {| updatedFiles := []; skippedFiles := [] |}
           | _ :: _ => Thrown "TypeError: patching.read is not a function"
           end) /\
  deleteFiles {| del_filePaths := paths; del_comment := comment; del_dryRun := None |} fs
  = (fs, match paths with
         | [] => Returned []
         | _ :: _ => Thrown "TypeError: patching.read is not a function"
         end).
Proof.
  unfold updateFiles, deleteFiles.
  cbn [markupPrefix filePaths dryRun removeMarkupOnly del_filePaths del_comment del_dryRun].
  destruct (markupRegex prefix) as [re|]; [|discriminate].
  intros [= <-]. destruct paths as [|path rest]; split; reflexivity.
Qed.

Lemma dry_run_by_default_witness :
  let o := {| filePaths := ["a.ts"]; markupPrefix := "@demo";
              dryRun := None; removeMarkupOnly := None |} in
  updateFiles o two_files
  = Some (two_files, Thrown "TypeError: patching.read is not a function") /\
  two_files !! "a.ts" = Some marked /\
  deleteFiles {| del_filePaths := ["a.ts"]; del_comment := "@demo remove-file";
                 del_dryRun := None |} two_files
  = (two_files, Thrown "TypeError: patching.read is not a function").
Proof.
  intros o.
  assert (H : updateFiles o two_files
              = Some (two_files, Thrown "TypeError: patching.read is not a function"))
    by (vm_compute; reflexivity).
  destruct (dry_run_by_default_returns_no_report two_files ["a.ts"] "@demo"
              "@demo remove-file" None _ H) as [_ Hd].
  split; [exact H|]. split; [reflexivity|exact Hd].
Defined.

End DryRunFacts.

(** ** Generators *)
Module GeneratorFacts.
Import JS Generators Examples.

Section WithCollaborators.
Context {C : Collaborators}.

Lemma bind_unfold {A B} (m : M A) (f : A -> M B) (st : St) :
  (m ≫= f) st =
  match m st with
  | (st', Returned a) => f a st'
  | (st', Thrown e) => (st', Thrown e)
  end.
Proof. reflexivity. Qed.

Lemma for_of_app {A} (l1 l2 : list A) (body : A -> M unit) (st : St) :
  for_of (l1 ++ l2) body st = (for_of l1 body ;; for_of l2 body) st.
Proof.
  revert st. induction l1 as [|x l1 IH]; intros st.
  - reflexivity.
  - cbn [app for_of]. rewrite !bind_unfold.
    destruct (body x st) as [st' [[]|e]]; [|reflexivity].
    rewrite IH. reflexivity.
Qed.

(** *** The calls of [handlePatches] *)
Lemma for_of_when_present (o : option string) (f : string -> PatchCall) (k : M unit) (st : St) :
  ((match truthy o with Some v => call (f v) | None => ret tt end) ;; k) st
  = (for_of (when_present o f) call ;; k) st.
Proof.
  unfold when_present. destruct (truthy o) as [v|]; [|reflexivity].
  cbn [for_of]. rewrite !bind_unfold.
  destruct (call (f v) st) as [st' [[]|e]]; reflexivity.
Qed.

Lemma truthy_Some (o : option string) (v : string) : truthy o = Some v -> o = Some v.
Proof.
  destruct o as [s|]; [|discriminate]. cbn. destruct (String.eqb s ""); [discriminate|].
  intros H. exact H.
Qed.

Lemma handlePatch_operations (patch : Patch) (st : St) :
  handlePatch patch st = for_of (amended_operations patch) call st.
Proof.
  unfold handlePatch, amended_operations, is_skipped, target_of_directive.
  destruct (truthy (patch_path patch)) as [target|] eqn:Ht; [|reflexivity].
  rewrite (truthy_Some _ _ Ht).
  destruct (patch_skip patch) as [[|]|]; cbn [Markup.or_default negb]; try reflexivity.
  all: rewrite for_of_when_present, for_of_app, !bind_unfold;
    destruct (for_of (when_present (opt_append (patch_opts patch)) (CallAppend target)) call st)
      as [st1 [[]|e]]; [|reflexivity];
    rewrite for_of_when_present, for_of_app, !bind_unfold;
    destruct (for_of (when_present (opt_prepend (patch_opts patch)) (CallPrepend target))
                call st1) as [st2 [[]|e]]; [|reflexivity];
    rewrite for_of_when_present, for_of_app, !bind_unfold;
    destruct (for_of (when_present (opt_replace (patch_opts patch)) _) call st2)
      as [st3 [[]|e]]; [|reflexivity];
    cbn [for_of]; rewrite !bind_unfold;
    destruct (call (CallPatch target (patch_opts patch)) st3) as [st4 [[]|e]]; reflexivity.
Qed.

Lemma all_patches_directives (data : FrontData) : all_patches data = directives data.
Proof.
  unfold all_patches, directives. destruct (fm_patch data); [reflexivity|].
  rewrite app_nil_r. reflexivity.
Qed.

Lemma handlePatches_as_calls (data : FrontData) (st : St) :
  handlePatches data st = for_of (flat_map amended_operations (directives data)) call st.
Proof.
  unfold handlePatches. rewrite all_patches_directives.
  generalize (directives data) as ps. intros ps. revert st.
  induction ps as [|p ps IH]; intros st; [reflexivity|].
  cbn [for_of flat_map]. rewrite for_of_app, !bind_unfold.
  rewrite handlePatch_operations.
  destruct (for_of (amended_operations p) call st) as [st' [[]|e]]; [apply IH|reflexivity].
Qed.

Lemma calls_as_operations (ops : list PatchCall) :
  forall st, for_of ops call st = after_operations st (apply_operations ops (files st)).
Proof.
  induction ops as [|c ops IH]; intros st.
  - destruct st. cbn. rewrite app_nil_r. reflexivity.
  - cbn [for_of apply_operations]. rewrite bind_unfold. unfold call at 1.
    destruct (patching c (files st)) as [fs'|e].
    + rewrite IH. cbn [with_files with_call files].
      destruct (apply_operations ops fs') as [[fs'' begun] e].
      cbn. rewrite <- app_assoc. reflexivity.
    + reflexivity.
Qed.

Lemma handlePatches_operations (data : FrontData) (st : St) :
  handlePatches data st
  = after_operations st
      (apply_operations (flat_map amended_operations (directives data)) (files st)).
Proof. rewrite handlePatches_as_calls. apply calls_as_operations. Qed.

(** *** The loop over the template files *)

(** A blank template is passed over. *)
Lemma generate_one_blank (generator : string) (o : GeneratorOptions) (t : string) (st : St) :
  Strings.isBlank (Markup.read (files st) t) = true ->
  generate_one generator o t st = (st, Returned tt).
Proof.
  intros H. unfold generate_one. rewrite bind_unfold. unfold read_file. cbv beta iota.
  rewrite H. reflexivity.
Qed.

(** Every other template ends the loop with an exception: that of the
    YAML parser, that of reading [data.path], or that of
    [path.basename]. *)
Lemma generate_one_not_blank (generator : string) (o : GeneratorOptions) (t contents : string)
    (st : St) :
  Markup.read (files st) t = Some contents ->
  Strings.isBlank (Some contents) = false ->
  generate_one generator o t st
  = (st, Thrown
           match frontMatter contents with
           | Thrown e => e
           | Returned (Some (Some _), Some _) => "TypeError: path.basename is not a function"
           | Returned (Some None, _) => "TypeError: Cannot read properties of null (reading 'path')"
           | Returned _ => "TypeError: Cannot read properties of undefined (reading 'path')"
           end).
Proof.
  intros Hread Hblank. unfold generate_one. rewrite bind_unfold. unfold read_file.
  cbv beta iota. rewrite Hread, Hblank, bind_unfold.
  destruct (frontMatter contents) as [[[[data|]|] [content|]]|e]; reflexivity.
Qed.

Lemma generate_one_cases (generator : string) (o : GeneratorOptions) (t : string) (st : St) :
  (Strings.isBlank (Markup.read (files st) t) = true /\
   generate_one generator o t st = (st, Returned tt)) \/
  (Strings.isBlank (Markup.read (files st) t) = false /\
   exists e, generate_one generator o t st = (st, Thrown e)).
Proof.
  destruct (Strings.isBlank (Markup.read (files st) t)) eqn:Hb.
  - left. split; [reflexivity|]. apply generate_one_blank. exact Hb.
  - right. split; [reflexivity|].
    destruct (Markup.read (files st) t) as [contents|] eqn:Hread; [|discriminate].
    eexists. exact (generate_one_not_blank generator o t contents st Hread Hb).
Qed.

Lemma for_of_blank (generator : string) (o : GeneratorOptions) (ts : list string) (st : St) :
  Forall (fun t => Strings.isBlank (Markup.read (files st) t) = true) ts ->
  for_of ts (generate_one generator o) st = (st, Returned tt).
Proof.
  induction 1 as [|t ts Hb _ IH]; [reflexivity|].
  cbn [for_of]. rewrite bind_unfold, generate_one_blank by exact Hb. exact IH.
Qed.

Lemma for_of_first_not_blank (generator : string) (o : GeneratorOptions)
    (pre : list string) (t : string) (post : list string) (st : St) (e : string) :
  Forall (fun t => Strings.isBlank (Markup.read (files st) t) = true) pre ->
  generate_one generator o t st = (st, Thrown e) ->
  for_of (pre ++ t :: post) (generate_one generator o) st = (st, Thrown e).
Proof.
  intros Hpre Ht. rewrite for_of_app, bind_unfold, for_of_blank by exact Hpre.
  cbn [for_of]. rewrite bind_unfold, Ht. reflexivity.
Qed.

(** The loop leaves the state as it is, and it returns for blank
    templates only. *)
Lemma for_of_cases (generator : string) (o : GeneratorOptions) (ts : list string) (st : St) :
  (Forall (fun t => Strings.isBlank (Markup.read (files st) t) = true) ts /\
   for_of ts (generate_one generator o) st = (st, Returned tt)) \/
  (Exists (fun t => Strings.isBlank (Markup.read (files st) t) = false) ts /\
   exists e, for_of ts (generate_one generator o) st = (st, Thrown e)).
Proof.
  induction ts as [|t ts IH].
  - left. split; [constructor|reflexivity].
  - cbn [for_of]. rewrite bind_unfold.
    destruct (generate_one_cases generator o t st) as [[Hb ->]|[Hb [e ->]]].
    + destruct IH as [[Hall ->]|[Hex [e ->]]].
      * left. split; [constructor; assumption|reflexivity].
      * right. split; [apply Exists_cons_tl; exact Hex|eauto].
    + right. split; [apply Exists_cons_hd; exact Hb|eauto].
Qed.

(** A run stops at the first template that is not blank. *)
Lemma run_stops_at_first_template (generator : string) (o : GeneratorOptions)
    (fs : Markup.FS) (log : list string) (pre : list string) (f : string)
    (post : list string) (contents : string) :
  templateFiles_of fs generator = pre ++ f :: post ->
  Forall (fun t => Strings.isBlank (Markup.read fs t) = true) pre ->
  Markup.read fs f = Some contents ->
  Strings.isBlank (Some contents) = false ->
  generateFromTemplate generator o fs log
  = (initial fs log,
     Thrown
       match frontMatter contents with
       | Thrown e => e
       | Returned (Some (Some _), Some _) => "TypeError: path.basename is not a function"
       | Returned (Some None, _) => "TypeError: Cannot read properties of null (reading 'path')"
       | Returned _ => "TypeError: Cannot read properties of undefined (reading 'path')"
       end).
Proof.
  intros Hts Hpre Hread Hblank. unfold generateFromTemplate. rewrite Hts.
  rewrite (for_of_first_not_blank generator o pre f post (initial fs log) _ Hpre
             (generate_one_not_blank generator o f contents (initial fs log) Hread Hblank)).
  reflexivity.
Qed.

End WithCollaborators.

(** C3.  The exception of the YAML parser on the front matter of a
    template is not caught.  When the templates before it are blank,
    it leaves [generateFromTemplate] at that template: no report is
    returned, nothing is printed, no file is written or changed, and
    the templates after it are not looked at. *)
Theorem front_matter_error_leaves_generateFromTemplate (C : Collaborators)
    (generator : string) (o : GeneratorOptions) (fs : Markup.FS) (log : list string)
    (pre : list string) (f : string) (post : list string) (contents e : string) :
  templateFiles_of fs generator = pre ++ f :: post ->
  Forall (fun t => Strings.isBlank (Markup.read fs t) = true) pre ->
  Markup.read fs f = Some contents ->
  Strings.isBlank (Some contents) = false ->
  frontMatter contents = Thrown e ->
  generateFromTemplate generator o fs log = (initial fs log, Thrown e).
Proof.
  intros Hts Hpre Hread Hblank Hfm.
  rewrite (run_stops_at_first_template generator o fs log pre f post contents
             Hts Hpre Hread Hblank), Hfm.
  reflexivity.
Qed.

(** A run on two templates, the first with malformed YAML in its
    front matter: the exception of the parser is the outcome of the
    run, the console and the files are as before, and no report is
    returned.  The same with a front matter block that is never
    closed. *)
Lemma malformed_front_matter_aborts_run :
  let C := Sample.sample in
  let o := Sample.sample_options false None in
  templateFiles_of (Sample.store Sample.templates_malformed_first) "model"
  = ["ignite/templates/model/a.ts.ejs"; "ignite/templates/model/b.ts.ejs"] /\
  generateFromTemplate "model" o (Sample.store Sample.templates_malformed_first) []
  = (initial (Sample.store Sample.templates_malformed_first) [], Thrown "YAMLParseError") /\
  generateFromTemplate "model" o (Sample.store Sample.templates_unclosed_first) []
  = (initial (Sample.store Sample.templates_unclosed_first) [],
     Thrown "TypeError: Cannot read properties of undefined (reading 'path')").
Proof. repeat split; vm_compute; reflexivity. Qed.

Lemma front_matter_error_witness :
  let C := Sample.sample in
  let o := Sample.sample_options false None in
  let fs := Sample.store Sample.templates_malformed_first in
  let f := "ignite/templates/model/a.ts.ejs" in
  let contents := Sample.front "path: [" "export const a = 1" in
  templateFiles_of fs "model" = [] ++ f :: ["ignite/templates/model/b.ts.ejs"] /\
  Markup.read fs f = Some contents /\
  Strings.isBlank (Some contents) = false /\
  frontMatter contents = Thrown "YAMLParseError" /\
  generateFromTemplate "model" o fs [] = (initial fs [], Thrown "YAMLParseError").
Proof.
  intros C o fs f contents.
  assert (H1 : templateFiles_of fs "model" = [] ++ f :: ["ignite/templates/model/b.ts.ejs"])
    by (vm_compute; reflexivity).
  assert (H2 : Markup.read fs f = Some contents) by (vm_compute; reflexivity).
  assert (H3 : Strings.isBlank (Some contents) = false) by (vm_compute; reflexivity).
  assert (H4 : frontMatter contents = Thrown "YAMLParseError") by (vm_compute; reflexivity).
  split; [exact H1|]. split; [exact H2|]. split; [exact H3|]. split; [exact H4|].
  exact (front_matter_error_leaves_generateFromTemplate C "model" o fs [] [] f _ contents _
           H1 (List.Forall_nil _) H2 H3 H4).
Defined.

(** C6.  Whatever the case option is, a template that is not blank
    and whose front matter gives data ends the run at
    [path.basename], before a file name is formed: when the templates
    before it are blank, the [TypeError] of that call is the outcome
    of the run, no report is returned and no file is written. *)
Theorem case_option_is_never_applied (C : Collaborators)
    (generator : string) (o : GeneratorOptions) (fs : Markup.FS) (log : list string)
    (pre : list string) (f : string) (post : list string) (contents : string)
    (data : FrontData) (content : string) :
  templateFiles_of fs generator = pre ++ f :: post ->
  Forall (fun t => Strings.isBlank (Markup.read fs t) = true) pre ->
  Markup.read fs f = Some contents ->
  Strings.isBlank (Some contents) = false ->
  frontMatter contents = Returned (Some (Some data), Some content) ->
  generateFromTemplate generator o fs log
  = (initial fs log, Thrown "TypeError: path.basename is not a function").
Proof.
  intros Hts Hpre Hread Hblank Hfm.
  rewrite (run_stops_at_first_template generator o fs log pre f post contents
             Hts Hpre Hread Hblank), Hfm.
  reflexivity.
Qed.

Lemma case_option_witness :
  let C := Sample.sample in
  let o := Sample.sample_options false (Some CaseKebab) in
  let fs := Sample.store Sample.templates_plain in
  let f := "ignite/templates/model/NAME.test.ts.ejs" in
  let contents := Sample.front "path: 123" "test()" in
  let data := {| fm_path := Some PathOther; fm_patches := None; fm_patch := None |} in
  templateFiles_of fs "model"
  = ["ignite/templates/model/0.ejs"] ++ f :: ["ignite/templates/model/NAME.ts.ejs"] /\
  Forall (fun t => Strings.isBlank (Markup.read fs t) = true) ["ignite/templates/model/0.ejs"] /\
  Markup.read fs f = Some contents /\
  Strings.isBlank (Some contents) = false /\
  frontMatter contents = Returned (Some (Some data), Some "test()") /\
  generateFromTemplate "model" o fs []
  = (initial fs [], Thrown "TypeError: path.basename is not a function").
Proof.
  intros C o fs f contents data.
  assert (H1 : templateFiles_of fs "model"
               = ["ignite/templates/model/0.ejs"] ++ f :: ["ignite/templates/model/NAME.ts.ejs"])
    by (vm_compute; reflexivity).
  assert (H0 : Forall (fun t => Strings.isBlank (Markup.read fs t) = true)
                 ["ignite/templates/model/0.ejs"])
    by (constructor; [vm_compute; reflexivity|constructor]).
  assert (H2 : Markup.read fs f = Some contents) by (vm_compute; reflexivity).
  assert (H3 : Strings.isBlank (Some contents) = false) by (vm_compute; reflexivity).
  assert (H4 : frontMatter contents = Returned (Some (Some data), Some "test()"))
    by (vm_compute; reflexivity).
  split; [exact H1|]. split; [exact H0|]. split; [exact H2|]. split; [exact H3|].
  split; [exact H4|].
  exact (case_option_is_never_applied C "model" o fs [] _ f _ contents data _
           H1 H0 H2 H3 H4).
Defined.

(** C7.  Two runs in a row, without [overwrite], on templates of
    which the first that is not blank gives data: the first run ends
    with the [TypeError] of [path.basename] and writes nothing, and
    the second run, on the files and the console that the first one
    left, ends in the same way.  Neither returns a report. *)
Theorem two_runs_both_end_at_path_basename (C : Collaborators)
    (generator : string) (o : GeneratorOptions) (fs : Markup.FS) (log : list string)
    (pre : list string) (f : string) (post : list string) (contents : string)
    (data : FrontData) (content : string) :
  overwrite o = false ->
  templateFiles_of fs generator = pre ++ f :: post ->
  Forall (fun t => Strings.isBlank (Markup.read fs t) = true) pre ->
  Markup.read fs f = Some contents ->
  Strings.isBlank (Some contents) = false ->
  frontMatter contents = Returned (Some (Some data), Some content) ->
  exists st1,
    generateFromTemplate generator o fs log
    = (st1, Thrown "TypeError: path.basename is not a function") /\
    files st1 = fs /\ written st1 = [] /\ exists_ st1 = [] /\
    generateFromTemplate generator o (files st1) (console st1)
    = (st1, Thrown "TypeError: path.basename is not a function").
Proof.
  intros _ Hts Hpre Hread Hblank Hfm.
  assert (H : generateFromTemplate generator o fs log
              = (initial fs log, Thrown "TypeError: path.basename is not a function")).
  { rewrite (run_stops_at_first_template generator o fs log pre f post contents
               Hts Hpre Hread Hblank), Hfm. reflexivity. }
  exists (initial fs log). cbn [files written exists_ console initial].
  repeat split; exact H.
Qed.

Lemma two_runs_witness :
  let C := Sample.sample in
  let o := Sample.sample_options false None in
  let fs := Sample.store Sample.templates_model in
  let f := "ignite/templates/model/NAME.ts.ejs" in
  overwrite o = false /\
  templateFiles_of fs "model" = [] ++ f :: [] /\
  Markup.read fs f = Some "export const model = 1" /\
  Strings.isBlank (Some "export const model = 1") = false /\
  frontMatter "export const model = 1"
  = Returned (Some (Some no_data), Some "export const model = 1") /\
  exists st1,
    generateFromTemplate "model" o fs []
    = (st1, Thrown "TypeError: path.basename is not a function") /\
    files st1 = fs /\ written st1 = [] /\ exists_ st1 = [] /\
    generateFromTemplate "model" o (files st1) (console st1)
    = (st1, Thrown "TypeError: path.basename is not a function").
Proof.
  intros C o fs f.
  assert (H0 : overwrite o = false) by reflexivity.
  assert (H1 : templateFiles_of fs "model" = [] ++ f :: []) by (vm_compute; reflexivity).
  assert (H2 : Markup.read fs f = Some "export const model = 1") by (vm_compute; reflexivity).
  assert (H3 : Strings.isBlank (Some "export const model = 1") = false)
    by (vm_compute; reflexivity).
  assert (H4 : frontMatter "export const model = 1"
               = Returned (Some (Some no_data), Some "export const model = 1"))
    by (vm_compute; reflexivity).
  split; [exact H0|]. split; [exact H1|]. split; [exact H2|]. split; [exact H3|].
  split; [exact H4|].
  exact (two_runs_both_end_at_path_basename C "model" o fs [] [] f [] _ no_data _
           H0 H1 (List.Forall_nil _) H2 H3 H4).
Defined.

(** A directive that names a text to replace and no generic option,
    and a directive with a target path alone: [handlePatches] calls
    the generic patcher for both, for the first on the [replace] and
    [insert] options that the replace operation has used already.
    The operations present in the directives do not hold these calls. *)
Lemma handlePatches_calls_the_generic_patcher :
  let C := Sample.sample in
  let data := {| fm_path := None;
                 fm_patches := Some [replace_directive; path_only_directive];
                 fm_patch := None |} in
  calls (fst (handlePatches data (initial index_file [])))
  = [CallReplace "app/models/index.ts" "old" (Some "new");
     CallPatch "app/models/index.ts" (patch_opts replace_directive);
     CallPatch "app/models/index.ts" no_options] /\
  flat_map claimed_operations (directives data)
  = [CallReplace "app/models/index.ts" "old" (Some "new")].
Proof. repeat split; vm_compute; reflexivity. Qed.

(** C9.  [handlePatches] goes through the directives in the order of
    the front matter, the sequence under [patches] before the one
    under [patch].  For a directive with a target path that is not
    skipped it calls append, prepend and replace, each when it is
    set, and then the generic patcher on all the options of the
    directive; the first call that throws ends the run with that
    exception, and nothing after it is called.  A directive that is
    skipped or has no target path makes no call and changes no file:
    the run is the one without that directive. *)
Theorem handlePatches_runs_the_operations_in_order (C : Collaborators) :
  (forall data st,
      handlePatches data st
      = after_operations st
          (apply_operations (flat_map amended_operations (directives data)) (files st))) /\
  (forall patch before after single st,
      is_skipped patch = true ->
      handlePatches {| fm_path := None; fm_patches := Some (before ++ patch :: after);
                       fm_patch := single |} st
      = handlePatches {| fm_path := None; fm_patches := Some (before ++ after);
                         fm_patch := single |} st) /\
  (forall patch st,
      is_skipped patch = true ->
      handlePatches {| fm_path := None; fm_patches := None; fm_patch := Some patch |} st
      = (st, Returned tt)).
Proof.
  split; [apply handlePatches_operations|]. split.
  - intros patch before after single st Hskip. rewrite !handlePatches_operations.
    unfold directives. cbn [fm_patches fm_patch].
    rewrite !flat_map_app. cbn [flat_map]. unfold amended_operations at 2.
    rewrite Hskip. reflexivity.
  - intros patch st Hskip. rewrite handlePatches_operations.
    unfold directives. cbn [fm_patches fm_patch app flat_map]. unfold amended_operations.
    rewrite Hskip. destruct st. cbn. rewrite app_nil_r. reflexivity.
Qed.

Lemma handlePatches_skip_witness :
  let C := Sample.sample in
  let st := initial index_file [] in
  is_skipped skipped_directive = true /\
  handlePatches {| fm_path := None;
                   fm_patches := Some ([replace_directive] ++ skipped_directive :: []);
                   fm_patch := None |} st
  = handlePatches {| fm_path := None; fm_patches := Some ([replace_directive] ++ []);
                     fm_patch := None |} st /\
  handlePatches {| fm_path := None; fm_patches := None; fm_patch := Some skipped_directive |} st
  = (st, Returned tt).
Proof.
  intros C st.
  assert (H : is_skipped skipped_directive = true) by reflexivity.
  destruct (handlePatches_runs_the_operations_in_order C) as (_ & H2 & H3).
  split; [exact H|]. split; [apply H2; exact H|apply H3; exact H].
Defined.

End GeneratorFacts.

(** * Further properties of the transforms *)

(** ** Texts without markers *)
Module UnmarkedFacts.
Import JS Markup JSFacts MarkupFacts.

Lemma includes_line_join (t : string) (ls : list string) (l : string) :
  In l ls -> includes l t = true -> includes (join LF ls) t = true.
Proof.
  induction ls as [|a rest IH]; intros Hin Hl; [destruct Hin|].
  destruct rest as [|b rest'].
  - destruct Hin as [->|[]]. exact Hl.
  - change (join LF (a :: b :: rest')) with (a +:+ LF +:+ join LF (b :: rest')).
    destruct Hin as [->|Hin].
    + apply includes_app_l. exact Hl.
    + apply includes_app_r. apply includes_app_r. apply IH; assumption.
Qed.

(** A text that occurs in a line occurs in the whole text. *)
Lemma absent_lines (t s : string) :
  includes s t = false -> Forall (fun l => includes l t = false) (split LF s).
Proof.
  intros H. apply List.Forall_forall. intros l Hin.
  apply not_true_iff_false. intros Hl. apply not_true_iff_false in H. apply H.
  rewrite <- (join_split s). eapply includes_line_join; eassumption.
Qed.

Lemma filteri_from_all {A} (p : A -> Z -> bool) (l : list A) :
  (forall x j, In x l -> p x j = true) -> forall i, filteri_from p i l = l.
Proof.
  induction l as [|x rest IH]; intros H i; [reflexivity|].
  cbn [filteri_from]. rewrite (H x i) by (left; reflexivity).
  f_equal. apply IH. intros y j Hy. apply H. right. exact Hy.
Qed.

Lemma removeNextLine_filter (contents comment : string) :
  removeNextLine contents comment
  = join LF (filteri (next_line_kept (split LF contents) comment) (split LF contents)).
Proof. reflexivity. Qed.

Lemma next_line_kept_unmarked (lines : list string) (comment line : string) (index : Z) :
  Forall (fun l => includes l comment = false) lines ->
  In line lines -> (0 <= index)%Z ->
  (index = 0%Z \/ exists p, at_index lines (index - 1) = Some p) ->
  next_line_kept lines comment line index = true.
Proof.
  intros Hall Hin Hidx Hprev. unfold next_line_kept.
  rewrite List.Forall_forall in Hall. rewrite (Hall _ Hin). cbn [Bool.eqb].
  destruct (index =? 0)%Z eqn:E; [reflexivity|].
  destruct Hprev as [->|[p Hp]]; [discriminate E|].
  rewrite Hp. rewrite (Hall p (at_index_In _ _ _ Hp)). reflexivity.
Qed.

Lemma removeCurrentLine_absent (contents comment : string) :
  includes contents comment = false -> removeCurrentLine contents comment = contents.
Proof.
  intros H. unfold removeCurrentLine. rewrite filter_all_kept; [apply join_split|].
  eapply List.Forall_impl; [|apply absent_lines; exact H].
  cbn. intros l ->. reflexivity.
Qed.

Lemma filteri_from_kept_all {A} (p : A -> Z -> bool) (l : list A) :
  forall i,
    (forall k x, l !! k = Some x -> p x (i + Z.of_nat k)%Z = true) ->
    filteri_from p i l = l.
Proof.
  induction l as [|x rest IH]; intros i H; [reflexivity|].
  cbn [filteri_from].
  assert (Hx : p x i = true).
  { specialize (H 0%nat x eq_refl). rewrite Z.add_0_r in H. exact H. }
  rewrite Hx. f_equal. apply IH. intros k y Hy.
  specialize (H (S k) y Hy). rewrite Nat2Z.inj_succ in H.
  replace (i + 1 + Z.of_nat k)%Z with (i + Z.succ (Z.of_nat k))%Z by lia. exact H.
Qed.

Lemma at_index_nat {A} (l : list A) (k : nat) : at_index l (Z.of_nat k) = l !! k.
Proof.
  unfold at_index. destruct (Z.of_nat k <? 0)%Z eqn:E; [apply Z.ltb_lt in E; lia|].
  rewrite Nat2Z.id. reflexivity.
Qed.

Lemma at_index_pred {A} (l : list A) (k : nat) (x : A) :
  l !! S k = Some x -> exists p, at_index l (Z.of_nat (S k) - 1) = Some p /\ l !! k = Some p.
Proof.
  intros H. assert (Hlt : k < length l).
  { apply lookup_lt_Some in H. lia. }
  destruct (lookup_lt_is_Some_2 l k Hlt) as [p Hp]. exists p. split; [|exact Hp].
  replace (Z.of_nat (S k) - 1)%Z with (Z.of_nat k) by lia.
  rewrite at_index_nat. exact Hp.
Qed.

Lemma removeNextLine_absent (contents comment : string) :
  includes contents comment = false -> removeNextLine contents comment = contents.
Proof.
  intros H. rewrite removeNextLine_filter. unfold filteri.
  rewrite filteri_from_kept_all; [apply join_split|].
  intros k x Hx. rewrite Z.add_0_l.
  apply next_line_kept_unmarked.
  - apply absent_lines. exact H.
  - apply list_elem_of_In. eapply list_elem_of_lookup_2. exact Hx.
  - lia.
  - destruct k as [|k]; [left; reflexivity|right].
    destruct (at_index_pred _ _ _ Hx) as (p & Hp & _). exists p. exact Hp.
Qed.

Lemma replaceNextLine_absent (contents comment : string) :
  includes contents comment = false -> replaceNextLine contents comment = contents.
Proof.
  intros H. rewrite replaceNextLine_filter.
  rewrite replaced_lines_unmarked by (apply absent_lines; exact H).
  rewrite filter_all_kept; [apply join_split|].
  eapply List.Forall_impl; [|apply absent_lines; exact H].
  cbn. intros l ->. reflexivity.
Qed.

Lemma removeBlocks_absent (contents : string) (comment : BlockComment) :
  includes contents (start comment) = false \/ includes contents (end_ comment) = false ->
  removeBlocks contents comment = Some contents.
Proof.
  intros H. unfold removeBlocks. rewrite removeBlocks_rec_S.
  assert (Hb : both_found (split LF contents) comment = false).
  { apply both_found_absent. destruct H as [H|H]; [left|right]; apply absent_lines; exact H. }
  unfold block_removed. rewrite Hb, Hb. rewrite join_split. reflexivity.
Qed.

(** X1.  A text in which none of the three line markers occurs, and
    in which the start marker or the end marker of a block is missing,
    is returned by [updateFile] as it is. *)
Theorem updateFile_unmarked_text (contents prefix : string) :
  includes contents (markupComment prefix RemoveBlockStart) = false \/
  includes contents (markupComment prefix RemoveBlockEnd) = false ->
  includes contents (markupComment prefix RemoveCurrentLine) = false ->
  includes contents (markupComment prefix RemoveNextLine) = false ->
  includes contents (markupComment prefix ReplaceNextLine) = false ->
  updateFile contents prefix = Some contents.
Proof.
  intros Hblock Hcur Hnext Hrep. unfold updateFile.
  rewrite removeBlocks_absent by exact Hblock.
  rewrite removeCurrentLine_absent by exact Hcur.
  rewrite removeNextLine_absent by exact Hnext.
  rewrite replaceNextLine_absent by exact Hrep.
  reflexivity.
Qed.

Lemma updateFile_unmarked_text_witness :
  (includes "const a = 1" (markupComment "@demo" RemoveBlockStart) = false \/
   includes "const a = 1" (markupComment "@demo" RemoveBlockEnd) = false) /\
  includes "const a = 1" (markupComment "@demo" RemoveCurrentLine) = false /\
  includes "const a = 1" (markupComment "@demo" RemoveNextLine) = false /\
  includes "const a = 1" (markupComment "@demo" ReplaceNextLine) = false /\
  updateFile "const a = 1" "@demo" = Some "const a = 1".
Proof.
  split; [left; reflexivity|]. do 3 (split; [reflexivity|]).
  apply updateFile_unmarked_text; [left| | |]; reflexivity.
Defined.

End UnmarkedFacts.

(** ** The line transforms on marked texts *)
Module LineFacts.
Import JS Markup JSFacts MarkupFacts UnmarkedFacts.

(** X2.  Each of the three line transforms clears its marker for
    good: a second pass with the same single-line marker changes
    nothing. *)
Theorem line_transforms_idempotent (contents comment : string) :
  no_LF comment -> comment <> "" ->
  removeCurrentLine (removeCurrentLine contents comment) comment
    = removeCurrentLine contents comment /\
  removeNextLine (removeNextLine contents comment) comment
    = removeNextLine contents comment /\
  replaceNextLine (replaceNextLine contents comment) comment
    = replaceNextLine contents comment.
Proof.
  intros Hlf Hne. repeat split.
  - apply removeCurrentLine_absent. apply removeCurrentLine_clears; assumption.
  - apply removeNextLine_absent. apply removeNextLine_clears; assumption.
  - apply replaceNextLine_absent. apply replaceNextLine_clears; assumption.
Qed.

Lemma filteri_from_app {A} (p : A -> Z -> bool) (a b : list A) :
  forall i,
    filteri_from p i (a ++ b)
    = filteri_from p i a ++ filteri_from p (i + Z.of_nat (length a))%Z b.
Proof.
  induction a as [|x a IH]; intros i.
  - cbn. rewrite Z.add_0_r. reflexivity.
  - cbn [app filteri_from length]. rewrite IH.
    replace (i + 1 + Z.of_nat (length a))%Z with (i + Z.of_nat (S (length a)))%Z by lia.
    destruct (p x i); reflexivity.
Qed.

Lemma next_line_kept_first (lines : list string) (comment line : string) :
  next_line_kept lines comment line 0 = negb (includes line comment).
Proof. unfold next_line_kept. cbn. destruct (includes line comment); reflexivity. Qed.

Lemma next_line_kept_later (lines : list string) (comment line : string) (k : nat) (p : string) :
  lines !! k = Some p ->
  next_line_kept lines comment line (Z.of_nat (S k))
  = negb (includes line comment) && negb (includes p comment).
Proof.
  intros Hp. unfold next_line_kept.
  replace (Z.of_nat (S k) - 1)%Z with (Z.of_nat k) by lia.
  rewrite at_index_nat, Hp.
  destruct (Z.of_nat (S k) =? 0)%Z eqn:E; [apply Z.eqb_eq in E; lia|].
  destruct (includes line comment), (includes p comment); reflexivity.
Qed.

(** A run of unmarked lines that follows an unmarked line is kept. *)
Lemma next_line_kept_run (comment : string) (seg : list string) :
  forall (a : list string) (x : string) (b : list string),
    Forall (fun l => includes l comment = false) (x :: seg) ->
    filteri_from (next_line_kept (a ++ x :: seg ++ b) comment)
      (Z.of_nat (S (length a))) seg = seg.
Proof.
  induction seg as [|y seg IH]; intros a x b Hall; [reflexivity|].
  cbn [filteri_from].
  apply List.Forall_cons_iff in Hall as [Hx Hall].
  pose proof Hall as Hall'. apply List.Forall_cons_iff in Hall' as [Hy _].
  rewrite (next_line_kept_later _ _ _ _ x).
  2:{ rewrite lookup_app_r by lia. rewrite Nat.sub_diag. reflexivity. }
  rewrite Hx, Hy. cbn [negb andb]. f_equal.
  specialize (IH (a ++ [x]) y b Hall).
  rewrite <- app_assoc in IH. cbn [app] in IH.
  rewrite length_app in IH. cbn [length] in IH.
  replace (Z.of_nat (S (length a)) + 1)%Z with (Z.of_nat (S (length a + 1))) by lia.
  exact IH.
Qed.

Lemma next_line_kept_marked (lines : list string) (comment line : string) (index : Z) :
  includes line comment = true -> next_line_kept lines comment line index = false.
Proof.
  intros H. unfold next_line_kept. rewrite H. cbn.
  destruct (index =? 0)%Z; reflexivity.
Qed.

Lemma next_lines_after_marker (comment : string) (pre : list string) (ml : string)
    (rest : list string) :
  Forall (fun l => includes l comment = false) (pre ++ rest) ->
  includes ml comment = true ->
  filteri (next_line_kept (pre ++ ml :: rest) comment) (pre ++ ml :: rest)
  = pre ++ tail rest.
Proof.
  intros Hall Hml. apply Forall_app in Hall as [Hpre Hrest].
  unfold filteri. rewrite filteri_from_app. rewrite Z.add_0_l. f_equal.
  - destruct pre as [|x seg]; [reflexivity|].
    cbn [filteri_from]. rewrite next_line_kept_first.
    pose proof Hpre as Hx. apply List.Forall_cons_iff in Hx as [Hx _]. rewrite Hx.
    cbn [negb]. f_equal.
    exact (next_line_kept_run comment seg [] x (ml :: rest) Hpre).
  - cbn [filteri_from]. rewrite next_line_kept_marked by exact Hml.
    destruct rest as [|y post]; [reflexivity|].
    cbn [filteri_from tail].
    replace (Z.of_nat (length pre) + 1)%Z with (Z.of_nat (S (length pre))) by lia.
    rewrite (next_line_kept_later _ _ _ _ ml).
    2:{ rewrite lookup_app_r by lia. rewrite Nat.sub_diag. reflexivity. }
    rewrite Hml. rewrite andb_false_r.
    pose proof (next_line_kept_run comment post (pre ++ [ml]) y [] Hrest) as H.
    rewrite <- app_assoc in H. cbn [app] in H. rewrite app_nil_r in H.
    rewrite length_app in H. cbn [length] in H.
    replace (Z.of_nat (S (length pre)) + 1)%Z with (Z.of_nat (S (length pre + 1))) by lia.
    exact H.
Qed.

(** X3.  [removeNextLine] on a text with one marker line: the marker
    line and the line after it are left out, every other line stays
    in place; a marker on the last line takes only itself away. *)
Theorem removeNextLine_drops_marker_and_next (comment : string) (pre : list string)
    (markerLine : string) (rest : list string) :
  Forall no_LF (pre ++ markerLine :: rest) ->
  Forall (fun l => includes l comment = false) (pre ++ rest) ->
  includes markerLine comment = true ->
  removeNextLine (join LF (pre ++ markerLine :: rest)) comment
  = join LF (pre ++ tail rest).
Proof.
  intros Hlf Hall Hml. rewrite removeNextLine_filter.
  rewrite split_join; [|destruct pre; discriminate|exact Hlf].
  rewrite next_lines_after_marker by assumption. reflexivity.
Qed.

Lemma removeNextLine_drops_marker_and_next_witness :
  Forall no_LF (["x"] ++ "// @demo remove-next-line" :: ["y"; "z"]) /\
  Forall (fun l => includes l "@demo remove-next-line" = false) (["x"] ++ ["y"; "z"]) /\
  includes "// @demo remove-next-line" "@demo remove-next-line" = true /\
  removeNextLine (join LF (["x"] ++ "// @demo remove-next-line" :: ["y"; "z"]))
    "@demo remove-next-line"
  = join LF (["x"] ++ tail ["y"; "z"]).
Proof.
  assert (H1 : Forall no_LF (["x"] ++ "// @demo remove-next-line" :: ["y"; "z"])).
  { repeat (apply List.Forall_cons; [reflexivity|]). apply List.Forall_nil. }
  assert (H2 : Forall (fun l => includes l "@demo remove-next-line" = false)
                 (["x"] ++ ["y"; "z"])).
  { repeat (apply List.Forall_cons; [reflexivity|]). apply List.Forall_nil. }
  split; [exact H1|]. split; [exact H2|]. split; [reflexivity|].
  apply removeNextLine_drops_marker_and_next; [exact H1|exact H2|reflexivity].
Defined.

Lemma line_transforms_idempotent_witness :
  no_LF "@demo remove-current-line" /\ "@demo remove-current-line" <> "" /\
  removeCurrentLine
    (removeCurrentLine ("a // @demo remove-current-line" +:+ LF +:+ "b")
       "@demo remove-current-line") "@demo remove-current-line"
    = removeCurrentLine ("a // @demo remove-current-line" +:+ LF +:+ "b")
        "@demo remove-current-line" /\
  removeNextLine
    (removeNextLine ("a // @demo remove-current-line" +:+ LF +:+ "b")
       "@demo remove-current-line") "@demo remove-current-line"
    = removeNextLine ("a // @demo remove-current-line" +:+ LF +:+ "b")
        "@demo remove-current-line" /\
  replaceNextLine
    (replaceNextLine ("a // @demo remove-current-line" +:+ LF +:+ "b")
       "@demo remove-current-line") "@demo remove-current-line"
    = replaceNextLine ("a // @demo remove-current-line" +:+ LF +:+ "b")
        "@demo remove-current-line".
Proof.
  split; [reflexivity|]. split; [discriminate|].
  apply line_transforms_idempotent; [reflexivity|discriminate].
Defined.

End LineFacts.

(** ** Block removal on marked texts *)
Module BlockFacts.
Import JS Markup JSFacts MarkupFacts UnmarkedFacts.

Lemma findIndex_first {A} (p : A -> bool) (a : list A) (y : A) (b : list A) :
  Forall (fun x => p x = false) a -> p y = true ->
  findIndex p (a ++ y :: b) = Z.of_nat (length a).
Proof.
  intros Ha Hy. induction Ha as [|x a Hx Ha IH]; cbn [app findIndex length].
  - rewrite Hy. reflexivity.
  - rewrite Hx, IH.
    destruct (Z.of_nat (length a) =? -1)%Z eqn:E; [apply Z.eqb_eq in E; lia|lia].
Qed.

Lemma skipn_past {A} (a : list A) (x : A) (b : list A) :
  skipn (S (length a)) (a ++ x :: b) = b.
Proof. induction a as [|y a IH]; [reflexivity|exact IH]. Qed.

Section OneBlock.
Variable comment : BlockComment.
Variables pre body post : list string.
Variables startLine endLine : string.
Hypothesis Hpre_start : Forall (fun l => includes l (start comment) = false) pre.
Hypothesis Hpre_end : Forall (fun l => includes l (end_ comment) = false) pre.
Hypothesis Hstart : includes startLine (start comment) = true.
Hypothesis Hstart_end : includes startLine (end_ comment) = false.
Hypothesis Hbody : Forall (fun l => includes l (end_ comment) = false) body.
Hypothesis Hend : includes endLine (end_ comment) = true.

Lemma block_start_index :
  findIdx (pre ++ startLine :: body ++ endLine :: post) (start comment)
  = Z.of_nat (length pre).
Proof. unfold findIdx. apply findIndex_first; assumption. Qed.

Lemma block_end_index :
  findIdx (pre ++ startLine :: body ++ endLine :: post) (end_ comment)
  = Z.of_nat (length pre + S (length body)).
Proof.
  unfold findIdx.
  replace (pre ++ startLine :: body ++ endLine :: post)
    with ((pre ++ startLine :: body) ++ endLine :: post)
    by (rewrite <- app_assoc; reflexivity).
  rewrite (findIndex_first (fun line => includes line (end_ comment))).
  - rewrite length_app. reflexivity.
  - apply Forall_app. split; [exact Hpre_end|].
    apply List.Forall_cons; assumption.
  - exact Hend.
Qed.

Lemma block_found :
  both_found (pre ++ startLine :: body ++ endLine :: post) comment = true.
Proof.
  unfold both_found. rewrite block_start_index, block_end_index.
  apply andb_true_iff. split; apply negb_true_iff, Z.eqb_neq; lia.
Qed.

Lemma first_block_removed :
  block_removed (pre ++ startLine :: body ++ endLine :: post) comment = pre ++ post.
Proof.
  unfold block_removed. rewrite block_found, block_start_index, block_end_index.
  unfold splice. rewrite Nat2Z.id.
  replace (Z.to_nat (Z.of_nat (length pre + S (length body)) - Z.of_nat (length pre) + 1))
    with (S (S (length body))) by lia.
  rewrite take_app_length. f_equal.
  rewrite skipn_app.
  rewrite (skipn_all2 pre) by lia.
  replace (length pre + S (S (length body)) - length pre) with (S (S (length body))) by lia.
  change (skipn (S (S (length body))) (startLine :: body ++ endLine :: post))
    with (skipn (S (length body)) (body ++ endLine :: post)).
  apply skipn_past.
Qed.

Hypothesis Hlf : Forall no_LF (pre ++ startLine :: body ++ endLine :: post).

Lemma rest_no_LF : Forall no_LF (pre ++ post).
Proof.
  apply Forall_app in Hlf as [H1 H2]. apply Forall_app. split; [exact H1|].
  apply List.Forall_cons_iff in H2 as [_ H2].
  apply Forall_app in H2 as [_ H2]. apply List.Forall_cons_iff in H2 as [_ H2]. exact H2.
Qed.

Lemma end_marker_nonempty : end_ comment <> "".
Proof. intros E. rewrite E in Hstart_end. destruct startLine; discriminate. Qed.

Lemma removeBlocks_rest_settled :
  both_found (pre ++ post) comment = false ->
  removeBlocks (join LF (pre ++ post)) comment = Some (join LF (pre ++ post)).
Proof.
  intros Hb. unfold removeBlocks. rewrite removeBlocks_rec_S.
  destruct (pre ++ post) as [|l ls] eqn:E.
  - cbn [join].
    assert (Hb' : both_found (split LF "") comment = false).
    { apply both_found_absent. right. apply List.Forall_cons; [|apply List.Forall_nil].
      apply includes_empty_text, end_marker_nonempty. }
    unfold block_removed. rewrite Hb', Hb'. reflexivity.
  - rewrite split_join; [|discriminate|rewrite <- E; apply rest_no_LF].
    unfold block_removed. rewrite Hb, Hb. reflexivity.
Qed.

Lemma removeBlocks_block_step :
  removeBlocks (join LF (pre ++ startLine :: body ++ endLine :: post)) comment
  = removeBlocks (join LF (pre ++ post)) comment.
Proof.
  unfold removeBlocks at 1. rewrite removeBlocks_rec_S.
  rewrite split_join; [|destruct pre; discriminate|exact Hlf].
  rewrite first_block_removed.
  destruct (both_found (pre ++ post) comment) eqn:Hb.
  - assert (Hsplit : split LF (join LF (pre ++ post)) = pre ++ post).
    { apply split_join; [eapply both_found_nonempty; exact Hb|apply rest_no_LF]. }
    assert (Hlen : length (pre ++ post) < length (pre ++ startLine :: body ++ endLine :: post)).
    { rewrite !length_app. cbn [length]. rewrite length_app. cbn [length]. lia. }
    unfold removeBlocks.
    destruct (removeBlocks_rec_settles comment (length (pre ++ post)) (join LF (pre ++ post)))
      as [[r Hr]|Hnone].
    + rewrite Hsplit. lia.
    + rewrite !Hr by (rewrite Hsplit; lia). reflexivity.
    + rewrite !Hnone. reflexivity.
  - symmetry. apply removeBlocks_rest_settled. exact Hb.
Qed.

(** X4.  The lines from the first start marker line to the first end
    marker line below it are taken out first: the result of
    [removeBlocks] is its result on the text without these lines, so
    blocks are removed one after the other. *)
Theorem removeBlocks_takes_first_block_out :
  removeBlocks (join LF (pre ++ startLine :: body ++ endLine :: post)) comment
  = removeBlocks (join LF (pre ++ post)) comment.
Proof. exact removeBlocks_block_step. Qed.

(** X5.  A text with one block: [removeBlocks] returns the lines
    before the start marker line followed by the lines after the end
    marker line; the marker lines and the lines between them are gone. *)
Theorem removeBlocks_removes_block_with_markers :
  Forall (fun l => includes l (start comment) = false) post ->
  removeBlocks (join LF (pre ++ startLine :: body ++ endLine :: post)) comment
  = Some (join LF (pre ++ post)).
Proof.
  intros Hpost. rewrite removeBlocks_block_step.
  apply removeBlocks_rest_settled. apply both_found_absent. left.
  apply Forall_app. split; assumption.
Qed.

End OneBlock.

Lemma removeBlocks_takes_first_block_out_witness :
  let comment := {| start := "@demo remove-block-start"; end_ := "@demo remove-block-end" |} in
  let post := ["b"; "// @demo remove-block-start"; "y"; "// @demo remove-block-end"; "c"] in
  Forall (fun l => includes l (start comment) = false) ["a"] /\
  Forall (fun l => includes l (end_ comment) = false) ["a"] /\
  includes "// @demo remove-block-start" (start comment) = true /\
  includes "// @demo remove-block-start" (end_ comment) = false /\
  Forall (fun l => includes l (end_ comment) = false) ["x"] /\
  includes "// @demo remove-block-end" (end_ comment) = true /\
  Forall no_LF (["a"] ++ "// @demo remove-block-start" :: ["x"]
                  ++ "// @demo remove-block-end" :: post) /\
  removeBlocks (join LF (["a"] ++ "// @demo remove-block-start" :: ["x"]
                           ++ "// @demo remove-block-end" :: post)) comment
  = removeBlocks (join LF (["a"] ++ post)) comment.
Proof.
  intros comment post.
  assert (H1 : Forall (fun l => includes l (start comment) = false) ["a"]).
  { apply List.Forall_cons; [reflexivity|apply List.Forall_nil]. }
  assert (H2 : Forall (fun l => includes l (end_ comment) = false) ["a"]).
  { apply List.Forall_cons; [reflexivity|apply List.Forall_nil]. }
  assert (H3 : Forall (fun l => includes l (end_ comment) = false) ["x"]).
  { apply List.Forall_cons; [reflexivity|apply List.Forall_nil]. }
  assert (H4 : Forall no_LF (["a"] ++ "// @demo remove-block-start" :: ["x"]
                               ++ "// @demo remove-block-end" :: post)).
  { repeat (apply List.Forall_cons; [reflexivity|]). apply List.Forall_nil. }
  split; [exact H1|]. split; [exact H2|]. split; [reflexivity|]. split; [reflexivity|].
  split; [exact H3|]. split; [reflexivity|]. split; [exact H4|].
  apply removeBlocks_takes_first_block_out;
    [exact H1|exact H2|reflexivity|reflexivity|exact H3|reflexivity|exact H4].
Defined.

Lemma removeBlocks_removes_block_with_markers_witness :
  let comment := {| start := "@demo remove-block-start"; end_ := "@demo remove-block-end" |} in
  Forall (fun l => includes l (start comment) = false) ["a"] /\
  Forall (fun l => includes l (end_ comment) = false) ["a"] /\
  includes "// @demo remove-block-start" (start comment) = true /\
  includes "// @demo remove-block-start" (end_ comment) = false /\
  Forall (fun l => includes l (end_ comment) = false) ["x"; "y"] /\
  includes "// @demo remove-block-end" (end_ comment) = true /\
  Forall no_LF (["a"] ++ "// @demo remove-block-start" :: ["x"; "y"]
                  ++ "// @demo remove-block-end" :: ["b"]) /\
  Forall (fun l => includes l (start comment) = false) ["b"] /\
  removeBlocks (join LF (["a"] ++ "// @demo remove-block-start" :: ["x"; "y"]
                           ++ "// @demo remove-block-end" :: ["b"])) comment
  = Some (join LF (["a"] ++ ["b"])).
Proof.
  intros comment.
  assert (H1 : Forall (fun l => includes l (start comment) = false) ["a"]).
  { apply List.Forall_cons; [reflexivity|apply List.Forall_nil]. }
  assert (H2 : Forall (fun l => includes l (end_ comment) = false) ["a"]).
  { apply List.Forall_cons; [reflexivity|apply List.Forall_nil]. }
  assert (H3 : Forall (fun l => includes l (end_ comment) = false) ["x"; "y"]).
  { repeat (apply List.Forall_cons; [reflexivity|]). apply List.Forall_nil. }
  assert (H4 : Forall no_LF (["a"] ++ "// @demo remove-block-start" :: ["x"; "y"]
                               ++ "// @demo remove-block-end" :: ["b"])).
  { repeat (apply List.Forall_cons; [reflexivity|]). apply List.Forall_nil. }
  assert (H5 : Forall (fun l => includes l (start comment) = false) ["b"]).
  { apply List.Forall_cons; [reflexivity|apply List.Forall_nil]. }
  split; [exact H1|]. split; [exact H2|]. split; [reflexivity|]. split; [reflexivity|].
  split; [exact H3|]. split; [reflexivity|]. split; [exact H4|]. split; [exact H5|].
  apply removeBlocks_removes_block_with_markers;
    [exact H1|exact H2|reflexivity|reflexivity|exact H3|reflexivity|exact H4|exact H5].
Defined.

Section EndFirst.
Variable comment : BlockComment.
Variables pre mid post : list string.
Variables startLine endLine : string.
Hypothesis Hpre_start : Forall (fun l => includes l (start comment) = false) pre.
Hypothesis Hpre_end : Forall (fun l => includes l (end_ comment) = false) pre.
Hypothesis Hend : includes endLine (end_ comment) = true.
Hypothesis Hend_start : includes endLine (start comment) = false.
Hypothesis Hmid : Forall (fun l => includes l (start comment) = false) mid.
Hypothesis Hstart : includes startLine (start comment) = true.
Hypothesis Hlf : Forall no_LF (pre ++ endLine :: mid ++ startLine :: post).

(** X6.  An end marker line above the first start marker line:
    [removeBlocks] removes nothing and calls itself on the same text,
    so no depth of the recursion gives a result. *)
Theorem removeBlocks_end_marker_first_never_returns :
  forall fuel,
    removeBlocks_rec fuel (join LF (pre ++ endLine :: mid ++ startLine :: post)) comment = None.
Proof.
  assert (He : findIdx (pre ++ endLine :: mid ++ startLine :: post) (end_ comment)
               = Z.of_nat (length pre)).
  { unfold findIdx. apply findIndex_first; assumption. }
  assert (Hs : findIdx (pre ++ endLine :: mid ++ startLine :: post) (start comment)
               = Z.of_nat (length pre + S (length mid))).
  { unfold findIdx.
    replace (pre ++ endLine :: mid ++ startLine :: post)
      with ((pre ++ endLine :: mid) ++ startLine :: post)
      by (rewrite <- app_assoc; reflexivity).
    rewrite (findIndex_first (fun line => includes line (start comment))).
    - rewrite length_app. reflexivity.
    - apply Forall_app. split; [exact Hpre_start|]. apply List.Forall_cons; assumption.
    - exact Hstart. }
  apply removeBlocks_rec_end_first;
    (rewrite split_join; [|destruct pre; discriminate|exact Hlf]).
  - unfold both_found. rewrite He, Hs.
    apply andb_true_iff. split; apply negb_true_iff, Z.eqb_neq; lia.
  - rewrite He, Hs. lia.
Qed.

End EndFirst.

Lemma removeBlocks_end_marker_first_witness :
  let comment := {| start := "@demo remove-block-start"; end_ := "@demo remove-block-end" |} in
  Forall (fun l => includes l (start comment) = false) ["a"] /\
  Forall (fun l => includes l (end_ comment) = false) ["a"] /\
  includes "// @demo remove-block-end" (end_ comment) = true /\
  includes "// @demo remove-block-end" (start comment) = false /\
  Forall (fun l => includes l (start comment) = false) ["x"] /\
  includes "// @demo remove-block-start" (start comment) = true /\
  Forall no_LF (["a"] ++ "// @demo remove-block-end" :: ["x"]
                  ++ "// @demo remove-block-start" :: ["b"]) /\
  forall fuel,
    removeBlocks_rec fuel
      (join LF (["a"] ++ "// @demo remove-block-end" :: ["x"]
                  ++ "// @demo remove-block-start" :: ["b"])) comment = None.
Proof.
  intros comment.
  assert (H1 : Forall (fun l => includes l (start comment) = false) ["a"]).
  { apply List.Forall_cons; [reflexivity|apply List.Forall_nil]. }
  assert (H2 : Forall (fun l => includes l (end_ comment) = false) ["a"]).
  { apply List.Forall_cons; [reflexivity|apply List.Forall_nil]. }
  assert (H3 : Forall (fun l => includes l (start comment) = false) ["x"]).
  { apply List.Forall_cons; [reflexivity|apply List.Forall_nil]. }
  assert (H4 : Forall no_LF (["a"] ++ "// @demo remove-block-end" :: ["x"]
                               ++ "// @demo remove-block-start" :: ["b"])).
  { repeat (apply List.Forall_cons; [reflexivity|]). apply List.Forall_nil. }
  split; [exact H1|]. split; [exact H2|]. split; [reflexivity|]. split; [reflexivity|].
  split; [exact H3|]. split; [reflexivity|]. split; [exact H4|].
  apply removeBlocks_end_marker_first_never_returns;
    [exact H1|exact H2|reflexivity|reflexivity|exact H3|reflexivity|exact H4].
Defined.

End BlockFacts.

(** ** The reaper outside of a dry run *)
Module RealReaperFacts.
Import JS Markup Checks ReaperFacts.

Abbreviation remove_all :=
  (fold_left (fun t path => if negb false then fs_remove path t else t)).

Lemma remove_all_dirs (ps : list segments) :
  forall t q,
    In q (tree_dirs (remove_all ps t)) <->
    In q (tree_dirs t) /\ Forall (fun p => is_under p q = false) ps.
Proof.
  induction ps as [|p ps IH]; intros t q; cbn [fold_left negb].
  - split; [intros H; split; [exact H|constructor]|tauto].
  - rewrite IH. cbn [fs_remove tree_dirs]. rewrite List.filter_In, List.Forall_cons_iff.
    rewrite negb_true_iff. tauto.
Qed.

Lemma remove_all_files (ps : list segments) :
  forall t q,
    In q (tree_files (remove_all ps t)) <->
    In q (tree_files t) /\ Forall (fun p => is_under p q = false) ps.
Proof.
  induction ps as [|p ps IH]; intros t q; cbn [fold_left negb].
  - split; [intros H; split; [exact H|constructor]|tauto].
  - rewrite IH. cbn [fs_remove tree_files]. rewrite List.filter_In, List.Forall_cons_iff.
    rewrite negb_true_iff. tauto.
Qed.

Lemma removed_dir_gone (ps : list segments) (t : Tree) (p : segments) :
  In p ps -> ~ In p (tree_dirs (remove_all ps t)).
Proof.
  intros Hin H. apply (proj1 (remove_all_dirs ps t p)) in H as [_ H].
  rewrite List.Forall_forall in H. specialize (H p Hin).
  rewrite is_under_refl in H. discriminate.
Qed.

Lemma real_run_loop_post (matching : segments -> bool) :
  forall fuel t removedDirs,
    length (tree_dirs t) < fuel ->
    exists t' new,
      removeEmptyDirs_loop fuel false matching t (getEmptyDirPaths matching t) removedDirs
        = Some (t', removedDirs ++ new) /\
      getEmptyDirPaths matching t' = [] /\
      Forall (fun p => In p (tree_dirs t) /\ ~ In p (tree_dirs t')) new /\
      (forall q, In q (tree_dirs t') -> In q (tree_dirs t)) /\
      (forall q, In q (tree_files t') -> In q (tree_files t)).
Proof.
  induction fuel as [|fuel IH]; intros t removedDirs Hlen; [lia|].
  destruct (getEmptyDirPaths matching t) as [|p ps] eqn:E.
  - exists t, []. cbn. rewrite app_nil_r. repeat split; auto.
  - cbn [removeEmptyDirs_loop].
    assert (Hin : forall q, In q (p :: ps) -> In q (tree_dirs t)).
    { intros q Hq. apply (getEmptyDirPaths_in_dirs matching). rewrite E. exact Hq. }
    assert (Hshort : length (tree_dirs (remove_all (p :: ps) t)) < fuel).
    { cbn [fold_left negb].
      pose proof (fold_remove_dirs_length ps (fs_remove p t)) as H1.
      pose proof (fs_remove_dirs_shorter p t (Hin p (or_introl eq_refl))) as H2.
      cbn [negb] in H1. lia. }
    destruct (IH (remove_all (p :: ps) t) (removedDirs ++ p :: ps) Hshort)
      as (t' & new & Hrun & Hnone & Hnew & Hdirs & Hfiles).
    exists t', ((p :: ps) ++ new). rewrite app_assoc. split; [exact Hrun|].
    split; [exact Hnone|]. split; [|split].
    + apply Forall_app. split.
      * apply List.Forall_forall. intros q Hq. split; [apply Hin; exact Hq|].
        intros Hq'. apply (removed_dir_gone (p :: ps) t q Hq). apply Hdirs. exact Hq'.
      * eapply List.Forall_impl; [|exact Hnew]. cbn. intros q [H1 H2]. split; [|exact H2].
        apply (proj1 (remove_all_dirs (p :: ps) t q)) in H1. apply H1.
    + intros q Hq. apply Hdirs in Hq.
      apply (proj1 (remove_all_dirs (p :: ps) t q)) in Hq. apply Hq.
    + intros q Hq. apply Hfiles in Hq.
      apply (proj1 (remove_all_files (p :: ps) t q)) in Hq. apply Hq.
Qed.

(** X11.  Outside of a dry run [removeEmptyDirs] returns on every
    tree, within one scan more than there are directories.  The tree
    it leaves has no empty directory that the globs let through; every
    path it reports was a directory of the tree and is one no longer;
    no directory and no file is added. *)
Theorem removeEmptyDirs_real_run_leaves_no_empty_directory (matching : segments -> bool)
    (t : Tree) :
  exists t' removedDirs,
    removeEmptyDirs (S (length (tree_dirs t))) false matching t = Some (t', removedDirs) /\
    getEmptyDirPaths matching t' = [] /\
    Forall (fun p => In p (tree_dirs t) /\ ~ In p (tree_dirs t')) removedDirs /\
    (forall q, In q (tree_dirs t') -> In q (tree_dirs t)) /\
    (forall q, In q (tree_files t') -> In q (tree_files t)).
Proof.
  unfold removeEmptyDirs.
  destruct (real_run_loop_post matching (S (length (tree_dirs t))) t [] (Nat.lt_succ_diag_r _))
    as (t' & new & H). exists t', new. exact H.
Qed.

Lemma well_formed_ancestor (t : Tree) (q : segments) (k : nat) :
  well_formed t = true -> In q (entries t) -> 0 < k < length q ->
  In (take k q) (tree_dirs t).
Proof.
  unfold well_formed. intros H Hq Hk. apply andb_true_iff in H as [H _].
  rewrite forallb_forall in H. specialize (H q Hq).
  rewrite forallb_forall in H. specialize (H k).
  apply list_elem_of_In. eapply bool_decide_eq_true_1. apply H.
  apply in_seq. lia.
Qed.

Lemma well_formed_disjoint (t : Tree) (p : segments) :
  well_formed t = true -> In p (tree_dirs t) -> ~ In p (tree_files t).
Proof.
  unfold well_formed. intros H Hp Hf. apply andb_true_iff in H as [_ H].
  rewrite forallb_forall in H. specialize (H p Hp).
  apply negb_true_iff, bool_decide_eq_false_1 in H. apply H, list_elem_of_In, Hf.
Qed.

Lemma removelast_take {A} (l : list A) :
  forall n, n < length l -> removelast (take (S n) l) = take n l.
Proof.
  induction l as [|x l IH]; intros n Hn; cbn [length] in Hn; [lia|].
  destruct n as [|n].
  - destruct l; reflexivity.
  - cbn [take]. specialize (IH n ltac:(lia)).
    destruct l as [|y l]; [cbn [length] in Hn; lia|].
    change (take (S (S n)) (x :: y :: l)) with (x :: take (S n) (y :: l)).
    change (take (S n) (y :: l)) with (y :: take n l) at 1.
    change (removelast (x :: y :: take n l)) with (x :: removelast (y :: take n l)).
    change (y :: take n l) with (take (S n) (y :: l)). rewrite IH. reflexivity.
Qed.

(** On a well-formed tree no file lies below an empty directory. *)
Lemma empty_dir_has_no_file (matching : segments -> bool) (t : Tree) (p f : segments) :
  well_formed t = true ->
  In p (getEmptyDirPaths matching t) -> In f (tree_files t) -> is_under p f = false.
Proof.
  intros Hwf Hp Hf. apply not_true_iff_false. intros Hunder.
  apply bool_decide_eq_true_1 in Hunder.
  pose proof (getEmptyDirPaths_in_dirs _ _ _ Hp) as Hdir.
  unfold getEmptyDirPaths in Hp. apply List.filter_In in Hp as [_ Hempty].
  unfold fs_list in Hempty.
  rewrite (bool_decide_eq_true_2 (p ∈ tree_dirs t)) in Hempty
    by (apply list_elem_of_In; exact Hdir).
  apply Nat.eqb_eq in Hempty.
  assert (Hle : length p <= length f).
  { rewrite <- Hunder at 1. rewrite length_take. lia. }
  destruct (decide (length p = length f)) as [Heq|Hne].
  - rewrite Heq, firstn_all in Hunder. subst f.
    exact (well_formed_disjoint t p Hwf Hdir Hf).
  - assert (Hchild : In (take (S (length p)) f) (List.filter (is_child p) (entries t))).
    { apply List.filter_In. split.
      - destruct (decide (S (length p) = length f)) as [Hlast|Hmid].
        + rewrite Hlast, firstn_all. unfold entries. apply in_or_app. right. exact Hf.
        + unfold entries. apply in_or_app. left.
          apply well_formed_ancestor; [exact Hwf| |lia].
          unfold entries. apply in_or_app. right. exact Hf.
      - apply bool_decide_eq_true_2. split.
        + intros E. apply (f_equal (@length string)) in E.
          rewrite length_take in E. cbn [length] in E. lia.
        + rewrite removelast_take by lia. exact Hunder. }
    destruct (List.filter (is_child p) (entries t)); [destruct Hchild|discriminate Hempty].
Qed.

Lemma remove_all_files_same (ps : list segments) :
  forall t,
    (forall p f, In p ps -> In f (tree_files t) -> is_under p f = false) ->
    tree_files (remove_all ps t) = tree_files t.
Proof.
  induction ps as [|p ps IH]; intros t H; [reflexivity|].
  cbn [fold_left negb].
  assert (Hp : tree_files (fs_remove p t) = tree_files t).
  { cbn [fs_remove tree_files]. apply MarkupFacts.filter_all_kept.
    apply List.Forall_forall. intros f Hf.
    rewrite (H p f (or_introl eq_refl) Hf). reflexivity. }
  rewrite IH; [exact Hp|].
  intros q f Hq Hf. rewrite Hp in Hf. apply H; [right; exact Hq|exact Hf].
Qed.

Lemma well_formed_intro (t : Tree) :
  (forall q k, In q (entries t) -> 0 < k < length q -> In (take k q) (tree_dirs t)) ->
  (forall p, In p (tree_dirs t) -> ~ In p (tree_files t)) ->
  well_formed t = true.
Proof.
  intros H1 H2. unfold well_formed. apply andb_true_iff. split.
  - apply forallb_forall. intros q Hq. apply forallb_forall. intros k Hk.
    apply in_seq in Hk. apply bool_decide_eq_true_2, list_elem_of_In, H1; [exact Hq|lia].
  - apply forallb_forall. intros p Hp. apply negb_true_iff, bool_decide_eq_false_2.
    intros Hf. apply (H2 p Hp), list_elem_of_In, Hf.
Qed.

Lemma under_ancestor (p q : segments) (k : nat) :
  k < length q -> is_under p (take k q) = true -> is_under p q = true.
Proof.
  intros Hk H. apply bool_decide_eq_true_1 in H. apply bool_decide_eq_true_2.
  destruct (le_lt_dec (length p) k) as [Hle|Hgt].
  - rewrite take_take in H. rewrite Nat.min_l in H by exact Hle. exact H.
  - rewrite take_take in H. rewrite Nat.min_r in H by lia.
    apply (f_equal (@length string)) in H. rewrite length_take in H. lia.
Qed.

Lemma remove_all_well_formed (ps : list segments) (t : Tree) :
  well_formed t = true -> well_formed (remove_all ps t) = true.
Proof.
  intros Hwf. apply well_formed_intro.
  - intros q k Hq Hk.
    assert (Hq' : In q (entries t) /\ Forall (fun p => is_under p q = false) ps).
    { unfold entries in *. apply in_app_or in Hq as [Hq|Hq].
      - apply (proj1 (remove_all_dirs ps t q)) in Hq as [H1 H2].
        split; [apply in_or_app; left; exact H1|exact H2].
      - apply (proj1 (remove_all_files ps t q)) in Hq as [H1 H2].
        split; [apply in_or_app; right; exact H1|exact H2]. }
    destruct Hq' as [Hin Hnot].
    apply (proj2 (remove_all_dirs ps t (take k q))). split.
    + apply well_formed_ancestor; assumption.
    + eapply List.Forall_impl; [|exact Hnot]. cbn. intros p Hp.
      apply not_true_iff_false. intros Hu.
      rewrite (under_ancestor p q k) in Hp by (lia || exact Hu). discriminate.
  - intros p Hp Hf.
    apply (proj1 (remove_all_dirs ps t p)) in Hp as [Hp _].
    apply (proj1 (remove_all_files ps t p)) in Hf as [Hf _].
    exact (well_formed_disjoint t p Hwf Hp Hf).
Qed.

Lemma real_run_loop_files (matching : segments -> bool) :
  forall fuel t removedDirs r,
    well_formed t = true ->
    removeEmptyDirs_loop fuel false matching t (getEmptyDirPaths matching t) removedDirs
      = Some r ->
    tree_files (fst r) = tree_files t.
Proof.
  induction fuel as [|fuel IH]; intros t removedDirs r Hwf H.
  - destruct (getEmptyDirPaths matching t); [|discriminate H].
    injection H as <-. reflexivity.
  - destruct (getEmptyDirPaths matching t) as [|p ps] eqn:E.
    + injection H as <-. reflexivity.
    + cbn [removeEmptyDirs_loop] in H.
      assert (Hsame : tree_files (remove_all (p :: ps) t) = tree_files t).
      { apply remove_all_files_same. intros q f Hq Hf.
        apply (empty_dir_has_no_file matching t); [exact Hwf|rewrite E; exact Hq|exact Hf]. }
      apply IH in H; [|apply remove_all_well_formed; exact Hwf].
      rewrite H. exact Hsame.
Qed.

(** X12.  On a well-formed tree [removeEmptyDirs] removes no file:
    the run outside of a dry run returns a tree that holds the files
    it held before. *)
Theorem removeEmptyDirs_removes_no_file (matching : segments -> bool) (t : Tree) :
  well_formed t = true ->
  exists t' removedDirs,
    removeEmptyDirs (S (length (tree_dirs t))) false matching t = Some (t', removedDirs) /\
    tree_files t' = tree_files t.
Proof.
  intros Hwf.
  destruct (removeEmptyDirs_real_run_terminates matching t) as [[t' removedDirs] H].
  exists t', removedDirs. split; [exact H|].
  exact (real_run_loop_files matching _ t [] (t', removedDirs) Hwf H).
Qed.

Lemma removeEmptyDirs_removes_no_file_witness :
  let t := {| tree_dirs := [["src"]; ["src"; "demo"]; ["src"; "app"]; ["docs"]];
              tree_files := [["src"; "app"; "a.ts"]] |} in
  well_formed t = true /\
  exists t' removedDirs,
    removeEmptyDirs (S (length (tree_dirs t))) false (fun _ => true) t
      = Some (t', removedDirs) /\
    tree_files t' = tree_files t.
Proof.
  intros t. split; [reflexivity|].
  apply removeEmptyDirs_removes_no_file. reflexivity.
Defined.

End RealReaperFacts.

(** ** [split] on a separator of several code units *)
Module SplitFacts.
Import JS Text JSFacts.

Lemma length_append (a b : string) :
  String.length (a +:+ b) = String.length a + String.length b.
Proof.
  induction a as [|x a IH]; [reflexivity|].
  rewrite app_cons. cbn [String.length]. rewrite IH. reflexivity.
Qed.

Lemma split_from_skip (sep x b : string) :
  split_from sep (String.length x) (x +:+ b) = split_from sep 0 b.
Proof.
  induction x as [|a x IH]; [reflexivity|].
  rewrite app_cons. cbn [String.length split_from]. exact IH.
Qed.

Lemma split_none (sep s : string) : includes s sep = false -> split sep s = [s].
Proof.
  unfold split. induction s as [|a s IH]; intros H; [reflexivity|].
  cbn [includes] in H. apply orb_false_iff in H as [H1 H2].
  cbn [split_from]. rewrite H1, (IH H2). reflexivity.
Qed.

Lemma split_nonempty (sep s : string) : forall skip, split_from sep skip s <> [].
Proof.
  induction s as [|a s IH]; intros skip; cbn [split_from]; [discriminate|].
  destruct skip as [|k]; [|apply IH].
  destruct (startsWith sep (String a s)); [discriminate|].
  destruct (split_from sep 0 s); discriminate.
Qed.

Lemma startsWith_within (p x w : string) :
  startsWith p (x +:+ w) = true -> String.length p <= String.length x ->
  startsWith p x = true.
Proof.
  revert x. induction p as [|a p IH]; intros x H Hlen; [reflexivity|].
  destruct x as [|b x]; [cbn [String.length] in Hlen; lia|].
  rewrite app_cons in H. cbn [startsWith] in *.
  destruct (Ascii.eqb a b); [|discriminate].
  apply IH; [exact H|cbn [String.length] in Hlen; lia].
Qed.

Lemma indexOf_from_shift (t s : string) :
  forall i,
    (indexOf_from t i s = (-1)%Z /\ indexOf_from t 0 s = (-1)%Z) \/
    ((0 <= indexOf_from t 0 s)%Z /\ indexOf_from t i s = (i + indexOf_from t 0 s)%Z).
Proof.
  induction s as [|c s IH]; intros i; cbn [indexOf_from].
  - destruct (startsWith t ""); [right; lia|left; split; reflexivity].
  - destruct (startsWith t (String c s)); [right; lia|].
    destruct (IH (i + 1)%Z) as [[H1 H2]|[H1 H2]], (IH (0 + 1)%Z) as [[H3 H4]|[H3 H4]];
      rewrite ?H1, ?H2, ?H3, ?H4 in *; lia.
Qed.

(** The separator that follows [a] is the first one of [a +:+ sep]:
    [a] is the first piece. *)
Lemma split_first (sep : string) :
  sep <> "" ->
  forall a b,
    indexOf (a +:+ sep) sep = Z.of_nat (String.length a) ->
    split sep (a +:+ sep +:+ b) = a :: split sep b.
Proof.
  intros Hne. unfold split, indexOf. induction a as [|x a IH]; intros b H.
  - rewrite app_empty_l. destruct sep as [|c sep']; [congruence|].
    rewrite app_cons. cbn [split_from].
    rewrite <- app_cons, startsWith_app_l. f_equal.
    replace (String.length (String c sep') - 1) with (String.length sep')
      by (cbn [String.length]; lia).
    apply split_from_skip.
  - rewrite app_cons in H. cbn [indexOf_from String.length] in H.
    destruct (startsWith sep (String x (a +:+ sep))) eqn:Hs; [lia|].
    rewrite app_cons. cbn [split_from].
    assert (Hs' : startsWith sep (String x (a +:+ sep +:+ b)) = false).
    { apply not_true_iff_false. intros Ht. apply not_true_iff_false in Hs. apply Hs.
      apply (startsWith_within sep (String x (a +:+ sep)) b).
      - rewrite app_cons, app_assoc_s. exact Ht.
      - cbn [String.length]. rewrite length_append. lia. }
    rewrite Hs'. rewrite IH; [reflexivity|].
    destruct (indexOf_from_shift sep (a +:+ sep) (0 + 1)%Z) as [[H1 H2]|[H1 H2]]; lia.
Qed.

End SplitFacts.

(** ** Front matter *)
Module FrontMatterFacts.
Import JS Text Generators JSFacts SplitFacts GeneratorFacts.

Section WithCollaborators.
Context {C : Collaborators}.

Lemma separator_nonempty : "---" +:+ eol <> "".
Proof. rewrite app_cons. discriminate. Qed.

Lemma frontMatter_parts (contents : string) :
  length (split ("---" +:+ eol) contents) <> 1 ->
  length (split ("---" +:+ eol) contents) <> 3 ->
  frontMatter contents = Returned (None, None).
Proof.
  intros H1 H3. unfold frontMatter.
  apply Nat.eqb_neq in H1, H3. rewrite H1, H3. reflexivity.
Qed.

End WithCollaborators.

(** X13.  A template text without a separator line has no front
    matter: [frontMatter] gives empty data and the whole text as the
    content, and the YAML parser is not asked. *)
Theorem frontMatter_without_separator (C : Collaborators) (contents : string) :
  includes contents ("---" +:+ eol) = false ->
  frontMatter contents = Returned (Some (Some no_data), Some contents).
Proof.
  intros H. unfold frontMatter. rewrite (split_none _ _ H). reflexivity.
Qed.

Lemma frontMatter_without_separator_witness :
  includes "export const a = 1" ("---" +:+ @eol Sample.sample) = false /\
  @frontMatter Sample.sample "export const a = 1"
  = Returned (Some (Some no_data), Some "export const a = 1").
Proof.
  split; [reflexivity|].
  apply (frontMatter_without_separator Sample.sample). reflexivity.
Defined.

(** X14.  A text with two separator lines: the text between them goes
    to the YAML parser, whose data or exception is the result, and the
    text after the second one is the content.  An empty block gives
    empty data without the parser, and what stands before the first
    separator is dropped. *)
Theorem frontMatter_block (C : Collaborators) (pre yaml body : string) :
  indexOf (pre +:+ "---" +:+ eol) ("---" +:+ eol) = Z.of_nat (String.length pre) ->
  indexOf (yaml +:+ "---" +:+ eol) ("---" +:+ eol) = Z.of_nat (String.length yaml) ->
  includes body ("---" +:+ eol) = false ->
  frontMatter (pre +:+ ("---" +:+ eol) +:+ yaml +:+ ("---" +:+ eol) +:+ body)
  = match truthy (Some yaml) with
    | Some y =>
        match YAML_parse y with
        | Returned data => Returned (Some data, Some body)
        | Thrown e => Thrown e
        end
    | None => Returned (Some (Some no_data), Some body)
    end.
Proof.
  intros Hpre Hyaml Hbody. unfold frontMatter.
  rewrite (split_first _ separator_nonempty pre) by exact Hpre.
  rewrite (split_first _ separator_nonempty yaml) by exact Hyaml.
  rewrite (split_none _ _ Hbody). reflexivity.
Qed.

Lemma frontMatter_block_witness :
  let C := Sample.sample in
  indexOf ("" +:+ "---" +:+ eol) ("---" +:+ eol) = Z.of_nat (String.length "") /\
  indexOf (("path: lib/a.ts" +:+ LF) +:+ "---" +:+ eol) ("---" +:+ eol)
    = Z.of_nat (String.length ("path: lib/a.ts" +:+ LF)) /\
  includes "export const a = 1" ("---" +:+ eol) = false /\
  frontMatter ("" +:+ ("---" +:+ eol) +:+ ("path: lib/a.ts" +:+ LF) +:+ ("---" +:+ eol)
               +:+ "export const a = 1")
  = match truthy (Some ("path: lib/a.ts" +:+ LF)) with
    | Some y =>
        match YAML_parse y with
        | Returned data => Returned (Some data, Some "export const a = 1")
        | Thrown e => Thrown e
        end
    | None => Returned (Some (Some no_data), Some "export const a = 1")
    end.
Proof.
  intros C. split; [reflexivity|]. split; [reflexivity|]. split; [reflexivity|].
  apply (frontMatter_block C); reflexivity.
Defined.

(** X15.  A template that is not blank and whose text holds one
    separator line, or more than two, makes the whole run fail: an
    exception leaves [generateFromTemplate], and no report is
    returned, wherever the template stands in the list. *)
Theorem template_with_odd_separators_aborts_run (C : Collaborators)
    (generator : string) (o : GeneratorOptions) (fs : Markup.FS) (log : list string)
    (f contents : string) :
  In f (templateFiles_of fs generator) ->
  Markup.read fs f = Some contents ->
  Strings.isBlank (Some contents) = false ->
  length (split ("---" +:+ eol) contents) <> 1 ->
  length (split ("---" +:+ eol) contents) <> 3 ->
  exists st e, generateFromTemplate generator o fs log = (st, Thrown e).
Proof.
  intros Hin Hread Hblank H1 H3. unfold generateFromTemplate.
  destruct (for_of_cases generator o (templateFiles_of fs generator) (initial fs log))
    as [[Hall _]|[_ [e ->]]]; [|eauto].
  rewrite List.Forall_forall in Hall. specialize (Hall f Hin).
  cbn [files initial] in Hall. rewrite Hread, Hblank in Hall. discriminate.
Qed.

Lemma template_with_odd_separators_witness :
  let C := Sample.sample in
  let fs := Sample.store Sample.templates_unclosed_first in
  let f := "ignite/templates/model/a.ts.ejs" in
  let contents := "---" +:+ LF +:+ "export const a = 1" in
  In f (templateFiles_of fs "model") /\
  Markup.read fs f = Some contents /\
  Strings.isBlank (Some contents) = false /\
  length (split ("---" +:+ eol) contents) <> 1 /\
  length (split ("---" +:+ eol) contents) <> 3 /\
  exists st e,
    generateFromTemplate "model" (Sample.sample_options false None) fs [] = (st, Thrown e).
Proof.
  intros C fs f contents.
  assert (Hin : In f (templateFiles_of fs "model")) by (vm_compute; left; reflexivity).
  assert (Hread : Markup.read fs f = Some contents) by (vm_compute; reflexivity).
  assert (Hblank : Strings.isBlank (Some contents) = false) by reflexivity.
  assert (H1 : length (split ("---" +:+ eol) contents) <> 1) by (vm_compute; lia).
  assert (H3 : length (split ("---" +:+ eol) contents) <> 3) by (vm_compute; lia).
  split; [exact Hin|]. split; [exact Hread|]. split; [exact Hblank|].
  split; [exact H1|]. split; [exact H3|].
  exact (template_with_odd_separators_aborts_run C "model" (Sample.sample_options false None)
           fs [] f contents Hin Hread Hblank H1 H3).
Defined.

End FrontMatterFacts.

(** ** What a run of [generateFromTemplate] can return *)
Module ReportDisciplineFacts.
Import JS Generators GeneratorFacts.


End ReportDisciplineFacts.

(** ** Indices and slices *)
Module TextFacts.
Import JS Text JSFacts SplitFacts.

Lemma substring_prefix (a b : string) :
  String.substring 0 (String.length a) (a +:+ b) = a.
Proof.
  induction a as [|x a IH]; [destruct b; reflexivity|].
  rewrite app_cons. cbn [String.length String.substring]. rewrite IH. reflexivity.
Qed.

Lemma substring_all (b : string) : String.substring 0 (String.length b) b = b.
Proof.
  induction b as [|x b IH]; [reflexivity|].
  cbn [String.length String.substring]. rewrite IH. reflexivity.
Qed.

Lemma substring_suffix (a b : string) :
  String.substring (String.length a) (String.length b) (a +:+ b) = b.
Proof.
  induction a as [|x a IH]; [apply substring_all|].
  rewrite app_cons. cbn [String.length String.substring]. exact IH.
Qed.

Lemma startsWith_char (c x : ascii) (s : string) :
  startsWith (String c "") (String x s) = Ascii.eqb c x.
Proof. cbn [startsWith]. destruct (Ascii.eqb c x); reflexivity. Qed.

Lemma includes_char (c : ascii) (s : string) : includes s (String c "") = has_char c s.
Proof.
  induction s as [|x s IH]; [reflexivity|].
  cbn [includes has_char]. rewrite startsWith_char, IH, (Ascii.eqb_sym c x). reflexivity.
Qed.

Lemma indexOf_char (c : ascii) (s : string) :
  forall i, (0 <= i)%Z ->
    (indexOf_from (String c "") i s >? -1)%Z = has_char c s.
Proof.
  induction s as [|x s IH]; intros i Hi; [reflexivity|].
  cbn [indexOf_from has_char]. rewrite startsWith_char, (Ascii.eqb_sym c x).
  destruct (Ascii.eqb x c); cbn [orb].
  - apply Z.gtb_lt. lia.
  - apply IH. lia.
Qed.

(** The last occurrence of a code unit splits the string into what
    stands before it and a rest without the code unit. *)
Lemma lastIndexOf_char (c : ascii) (s : string) :
  forall i, (0 <= i)%Z ->
    (lastIndexOf_from (String c "") i s = (-1)%Z /\ has_char c s = false) \/
    (exists a b,
        s = a +:+ String c b /\ has_char c b = false /\
        lastIndexOf_from (String c "") i s = (i + Z.of_nat (String.length a))%Z).
Proof.
  induction s as [|x s IH]; intros i Hi.
  - left. split; reflexivity.
  - cbn [lastIndexOf_from has_char]. rewrite startsWith_char, (Ascii.eqb_sym c x).
    destruct (IH (i + 1)%Z ltac:(lia)) as [[H1 H2]|(a & b & Hs & Hb & H1)]; rewrite H1.
    + rewrite Z.eqb_refl, H2, orb_false_r.
      destruct (Ascii.eqb x c) eqn:E.
      * right. apply Ascii.eqb_eq in E. subst x. exists "", s.
        rewrite app_empty_l. cbn [String.length Z.of_nat]. repeat split; [exact H2|lia].
      * left. split; reflexivity.
    + right. exists (String x a), b. rewrite app_cons, <- Hs.
      destruct (i + 1 + Z.of_nat (String.length a) =? -1)%Z eqn:E;
        [apply Z.eqb_eq in E; lia|].
      cbn [String.length]. repeat split; [exact Hb|lia].
Qed.

End TextFacts.

(** ** The parameters of the [generate] command *)
Module GenerateCommandFacts.
Import JS Text Generators GenerateCommand JSFacts SplitFacts TextFacts.

Lemma substring_to (a b : string) :
  substring (a +:+ b) 0 (Some (Z.of_nat (String.length a))) = a.
Proof.
  unfold substring, substring_index. rewrite length_append.
  cbn [Z.to_nat]. rewrite Nat2Z.id.
  rewrite Nat.min_0_l, (Nat.min_l (String.length a)) by lia.
  rewrite Nat.min_0_l, Nat.max_0_l, Nat.sub_0_r. apply substring_prefix.
Qed.

Lemma substring_from (a b : string) :
  substring (a +:+ b) (Z.of_nat (String.length a)) None = b.
Proof.
  unfold substring, substring_index. rewrite length_append, Nat2Z.id.
  rewrite (Nat.min_l (String.length a)) by lia.
  rewrite Nat.min_l, Nat.max_r by lia.
  replace (String.length a + String.length b - String.length a) with (String.length b) by lia.
  apply substring_suffix.
Qed.

Lemma endsWith_app (a t : string) : endsWith (a +:+ t) t = true.
Proof.
  unfold endsWith. rewrite length_append. apply andb_true_iff. split.
  - apply Nat.leb_le. lia.
  - replace (String.length a + String.length t - String.length t) with (String.length a) by lia.
    rewrite drop_app_length. apply String.eqb_refl.
Qed.

(** X18.  The command cuts its second parameter at the last slash:
    the subdirectory followed by the name is the parameter again, the
    name holds no slash, and the subdirectory is empty or ends with a
    slash. *)
Theorem split_name_cuts_at_last_slash (name : string) :
  fst (split_name name) +:+ snd (split_name name) = name /\
  has_char "/" (snd (split_name name)) = false /\
  (fst (split_name name) = "" \/ endsWith (fst (split_name name)) "/" = true).
Proof.
  unfold split_name, SUB_DIR_DELIMITER, indexOf, lastIndexOf.
  rewrite (indexOf_char "/" name 0) by lia.
  destruct (lastIndexOf_char "/" name 0 ltac:(lia)) as [[H1 H2]|(a & b & Hs & Hb & H1)].
  - rewrite H2. cbn [fst snd]. rewrite app_empty_l. auto.
  - assert (Hc : has_char "/" name = true).
    { rewrite Hs, has_char_app. cbn [has_char]. rewrite Ascii.eqb_refl. apply orb_true_r. }
    rewrite Hc, H1. cbn [fst snd].
    assert (Hname : name = (a +:+ "/") +:+ b).
    { rewrite Hs, app_assoc_s. reflexivity. }
    assert (Hlen : (0 + Z.of_nat (String.length a) + 1)%Z
                   = Z.of_nat (String.length (a +:+ "/"))).
    { rewrite length_append. cbn [String.length]. lia. }
    rewrite Hlen. clear Hs Hc H1. subst name.
    rewrite substring_to, substring_from.
    split; [reflexivity|]. split; [exact Hb|].
    right. apply endsWith_app.
Qed.

Lemma substring_drop (k : nat) (s : string) : String.substring 0 k s +:+ drop k s = s.
Proof.
  revert s. induction k as [|k IH]; intros s.
  - destruct s; reflexivity.
  - destruct s as [|x s]; [reflexivity|].
    cbn [String.substring drop]. rewrite app_cons, IH. reflexivity.
Qed.

Lemma strip_generator_slice (g n : string) :
  g <> "" -> endsWith n g = true ->
  strip_generator g n = String.substring 0 (String.length n - String.length g) n.
Proof.
  intros Hne He. unfold strip_generator. rewrite He. unfold slice, slice_index.
  assert (Hlen : 0 < String.length g) by (destruct g; [congruence|cbn; lia]).
  destruct (0 <? 0)%Z eqn:E0; [discriminate E0|].
  destruct (-1 * Z.of_nat (String.length g) <? 0)%Z eqn:E1; [|apply Z.ltb_ge in E1; lia].
  cbn [Z.to_nat]. rewrite Nat.min_0_l, Nat.sub_0_r. f_equal. lia.
Qed.

(** X19.  When the name in Pascal case ends with the name of the
    generator, exactly that ending is cut off: the name passed on,
    followed by the generator's name, is the name again.  A name that
    is the generator's name is passed on empty. *)
Theorem strip_generator_cuts_the_ending (pascalGenerator pascalName : string) :
  pascalGenerator <> "" ->
  endsWith pascalName pascalGenerator = true ->
  strip_generator pascalGenerator pascalName +:+ pascalGenerator = pascalName /\
  (pascalName = pascalGenerator -> strip_generator pascalGenerator pascalName = "").
Proof.
  intros Hne He. rewrite (strip_generator_slice _ _ Hne He).
  unfold endsWith in He. apply andb_true_iff in He as [_ He].
  apply String.eqb_eq in He. split.
  - rewrite <- He at 2. apply substring_drop.
  - intros ->. rewrite Nat.sub_diag. destruct pascalGenerator; reflexivity.
Qed.

Lemma strip_generator_cuts_the_ending_witness :
  "Component" <> "" /\
  endsWith "HeaderComponent" "Component" = true /\
  strip_generator "Component" "HeaderComponent" +:+ "Component" = "HeaderComponent" /\
  ("HeaderComponent" = "Component" -> strip_generator "Component" "HeaderComponent" = "").
Proof.
  split; [discriminate|]. split; [reflexivity|].
  apply strip_generator_cuts_the_ending; [discriminate|reflexivity].
Defined.

End GenerateCommandFacts.

(** ** Names of boilerplates *)
Module BoilerplateFacts.
Import JS Text Generators Boilerplate JSFacts SplitFacts TextFacts GenerateCommandFacts.

Lemma split_char_cons (c a : ascii) (s : string) :
  split (String c "") (String a s) =
  if Ascii.eqb c a then "" :: split (String c "") s
  else match split (String c "") s with
       | h :: t => String a h :: t
       | [] => [String a ""]
       end.
Proof.
  unfold split. cbn [split_from startsWith]. destruct (Ascii.eqb c a); reflexivity.
Qed.

Lemma split_char_pieces (c : ascii) (s : string) :
  Forall (fun l => has_char c l = false) (split (String c "") s).
Proof.
  induction s as [|a s IH]; [repeat constructor|]. rewrite split_char_cons.
  destruct (Ascii.eqb c a) eqn:E; [constructor; [reflexivity|exact IH]|].
  destruct (split (String c "") s) as [|h t]; [repeat constructor|].
  - cbn. rewrite Ascii.eqb_sym, E. reflexivity.
  - inversion IH as [|? ? Hh Ht]; subst. constructor; [|exact Ht].
    cbn. rewrite Ascii.eqb_sym, E. exact Hh.
Qed.

Lemma split_char_app (c : ascii) (a b : string) :
  split (String c "") (a +:+ String c b) = split (String c "") a ++ split (String c "") b.
Proof.
  induction a as [|x a IH].
  - rewrite app_empty_l, split_char_cons, Ascii.eqb_refl. reflexivity.
  - rewrite app_cons, !split_char_cons. rewrite IH.
    destruct (Ascii.eqb c x); [reflexivity|].
    destruct (split (String c "") a) as [|h t] eqn:E; [|reflexivity].
    destruct (split_nonempty (String c "") a 0 E).
Qed.

Lemma last_piece_In (pieces : list string) : pieces <> [] -> In (last_piece pieces) pieces.
Proof.
  unfold last_piece. induction pieces as [|x l IH]; [congruence|]. intros _.
  destruct l as [|y l]; [left; reflexivity|]. right. apply IH. discriminate.
Qed.

Lemma has_char_substring (c : ascii) (s : string) :
  has_char c s = false -> forall n m, has_char c (String.substring n m s) = false.
Proof.
  induction s as [|x s IH]; intros H n m.
  - destruct n, m; reflexivity.
  - cbn [has_char] in H. apply orb_false_iff in H as [H1 H2].
    destruct n as [|n]; [destruct m as [|m]; [reflexivity|]|].
    + cbn [String.substring has_char]. rewrite H1. apply IH. exact H2.
    + cbn [String.substring]. apply IH. exact H2.
Qed.

Lemma has_char_slice (c : ascii) (s : string) (from : Z) (to : option Z) :
  has_char c s = false -> has_char c (slice s from to) = false.
Proof. intros H. unfold slice. apply has_char_substring. exact H. Qed.

(** X21.  Where the path separator is the slash, the name that
    [extractBoilerplateName] returns begins with [ignite-] and holds
    no slash, whatever it is given. *)
Theorem extractBoilerplateName_is_an_ignite_name (C : Collaborators) (boilerplateName : string) :
  separator = "/" ->
  startsWith "ignite-" (extractBoilerplateName boilerplateName) = true /\
  has_char "/" (extractBoilerplateName boilerplateName) = false.
Proof.
  intros Hsep. unfold extractBoilerplateName. rewrite Hsep.
  set (n1 := if startsWith "react-native-" boilerplateName then _ else _).
  set (n2 := if includes n1 "/" then _ else _).
  assert (H2 : has_char "/" n2 = false).
  { unfold n2. destruct (includes n1 "/") eqn:E.
    - pose proof (split_char_pieces "/" n1) as Hall.
      rewrite List.Forall_forall in Hall. apply Hall.
      apply last_piece_In. apply split_nonempty.
    - rewrite includes_char in E. exact E. }
  set (n3 := if endsWith n2 ".git" then _ else _).
  assert (H3 : has_char "/" n3 = false).
  { unfold n3. destruct (endsWith n2 ".git"); [|exact H2].
    apply has_char_slice, has_char_slice. exact H2. }
  destruct (startsWith "ignite-" n3) eqn:E; cbn [negb].
  - split; [exact E|exact H3].
  - split; [apply startsWith_app_l|]. rewrite has_char_app, H3. reflexivity.
Qed.

Lemma extractBoilerplateName_is_an_ignite_name_witness :
  let C := Sample.sample in
  separator = "/" /\
  startsWith "ignite-" (extractBoilerplateName "git@github.com:user/repo.git") = true /\
  has_char "/" (extractBoilerplateName "git@github.com:user/repo.git") = false.
Proof.
  intros C. split; [reflexivity|].
  apply (extractBoilerplateName_is_an_ignite_name C). reflexivity.
Defined.

(** X22.  A name that begins with [ignite-], holds no path separator
    and does not end with [.git] is returned as it is. *)
Theorem extractBoilerplateName_keeps_ignite_names (C : Collaborators) (boilerplateName : string) :
  startsWith "ignite-" boilerplateName = true ->
  includes boilerplateName separator = false ->
  endsWith boilerplateName ".git" = false ->
  extractBoilerplateName boilerplateName = boilerplateName.
Proof.
  intros Hstart Hsep Hgit. unfold extractBoilerplateName.
  assert (Hrn : startsWith "react-native-" boilerplateName = false).
  { destruct boilerplateName as [|x s]; [reflexivity|].
    cbn [startsWith] in *. destruct (Ascii.eqb "i" x) eqn:E; [|discriminate Hstart].
    apply Ascii.eqb_eq in E. subst x. reflexivity. }
  rewrite Hrn, Hsep, Hgit, Hstart. reflexivity.
Qed.

Lemma extractBoilerplateName_keeps_ignite_names_witness :
  let C := Sample.sample in
  startsWith "ignite-" "ignite-bowser" = true /\
  includes "ignite-bowser" separator = false /\
  endsWith "ignite-bowser" ".git" = false /\
  extractBoilerplateName "ignite-bowser" = "ignite-bowser".
Proof.
  intros C. split; [reflexivity|]. split; [reflexivity|]. split; [reflexivity|].
  apply (extractBoilerplateName_keeps_ignite_names C); reflexivity.
Defined.

Lemma lastIndexOf_absent (c : ascii) (s : string) :
  has_char c s = false -> lastIndexOf s (String c "") = (-1)%Z.
Proof.
  intros H. unfold lastIndexOf.
  destruct (lastIndexOf_char c s 0 ltac:(lia)) as [[H1 _]|(a & b & Hs & _ & _)]; [exact H1|].
  rewrite Hs, has_char_app in H. cbn [has_char] in H.
  rewrite Ascii.eqb_refl, orb_true_r in H. discriminate.
Qed.

Lemma slice_all (s : string) : slice s 0 None = s.
Proof.
  unfold slice, slice_index. cbn [Z.ltb Z.compare Z.to_nat].
  rewrite Nat.min_0_l, Nat.sub_0_r. apply substring_all.
Qed.

Lemma slice_without_ending (a t : string) :
  t <> "" -> slice (a +:+ t) 0 (Some (- Z.of_nat (String.length t))%Z) = a.
Proof.
  intros Hne. unfold slice, slice_index. rewrite length_append.
  assert (Hlen : 0 < String.length t) by (destruct t; [congruence|cbn; lia]).
  destruct (- Z.of_nat (String.length t) <? 0)%Z eqn:E; [|apply Z.ltb_ge in E; lia].
  cbn [Z.ltb Z.compare Z.to_nat]. rewrite Nat.min_0_l, Nat.sub_0_r.
  replace (Z.to_nat (Z.max (Z.of_nat (String.length a + String.length t)
                            + - Z.of_nat (String.length t)) 0))
    with (String.length a) by lia.
  apply substring_prefix.
Qed.

(** X23.  Given a path or a URL whose last segment is [repo.git],
    [extractBoilerplateName] returns [repo], with [ignite-] put before
    it when it does not begin so. *)
Theorem extractBoilerplateName_of_git_url (C : Collaborators) (url repo : string) :
  separator = "/" ->
  startsWith "react-native-" (url +:+ "/" +:+ repo +:+ ".git") = false ->
  has_char "/" repo = false ->
  has_char ":" repo = false ->
  extractBoilerplateName (url +:+ "/" +:+ repo +:+ ".git")
  = if startsWith "ignite-" repo then repo else "ignite-" +:+ repo.
Proof.
  intros Hsep Hrn Hslash Hcolon. unfold extractBoilerplateName. rewrite Hrn, Hsep.
  assert (Hlast : has_char "/" (repo +:+ ".git") = false).
  { rewrite has_char_app, Hslash. reflexivity. }
  assert (Hinc : includes (url +:+ "/" +:+ repo +:+ ".git") "/" = true).
  { rewrite includes_char.
    change (url +:+ "/" +:+ repo +:+ ".git") with (url +:+ String "/" (repo +:+ ".git")).
    rewrite has_char_app. cbn [has_char]. rewrite Ascii.eqb_refl. apply orb_true_r. }
  rewrite Hinc.
  change (url +:+ "/" +:+ repo +:+ ".git") with (url +:+ String "/" (repo +:+ ".git")).
  rewrite split_char_app.
  rewrite (split_none "/" (repo +:+ ".git")) by (rewrite includes_char; exact Hlast).
  unfold last_piece. rewrite last_last.
  rewrite endsWith_app.
  change (-4)%Z with (- Z.of_nat (String.length ".git"))%Z.
  rewrite slice_without_ending by discriminate.
  rewrite (lastIndexOf_absent "/" repo Hslash), (lastIndexOf_absent ":" repo Hcolon).
  change (Z.max (-1) (-1) + 1)%Z with 0%Z. rewrite slice_all.
  destruct (startsWith "ignite-" repo); reflexivity.
Qed.

Lemma extractBoilerplateName_of_git_url_witness :
  let C := Sample.sample in
  separator = "/" /\
  startsWith "react-native-" ("https://github.com/user" +:+ "/" +:+ "my-app" +:+ ".git") = false /\
  has_char "/" "my-app" = false /\
  has_char ":" "my-app" = false /\
  extractBoilerplateName ("https://github.com/user" +:+ "/" +:+ "my-app" +:+ ".git")
  = if startsWith "ignite-" "my-app" then "my-app" else "ignite-" +:+ "my-app".
Proof.
  intros C. split; [reflexivity|]. split; [reflexivity|]. split; [reflexivity|].
  split; [reflexivity|].
  apply (extractBoilerplateName_of_git_url C); reflexivity.
Defined.

End BoilerplateFacts.

(** ** Installing generators *)
Module InstallFacts.
Import JS Text Markup Generators Install.

Section WithCollaborators.
Context {C : Collaborators}.
Variable find_all : string -> list string.
Variables sourceDir targetDir : string.







End WithCollaborators.



End InstallFacts.
